(** * wifikeycontrol: the packet codec and the session manager

    A shallow embedding of [pc-app/protocol.py] (class [ProtocolHandler]) and
    of the session part of [pc-app/connection_manager.py] (class
    [ConnectionManager]), with the properties of the design document stated
    over them; then the receive thread, the discovery listener and the
    shutdown of the manager, the slots of the main window
    ([pc-app/main.py]) that use them, and the mouse handlers of
    [pc-app/input_capture.py], with properties read off the code.

    Conventions.
    - [bytes] is [list byte]; integers are [Z] with the range checks of
      [struct.pack] written out.
    - A Python exception is a value of [exc]; a [try ... except] is a match.
    - A Python [str] is represented by its UTF-8 encoding, so that
      [str.encode('utf-8')] is the list of the bytes of the string.
    - A Python [float] is a double and is represented by the rational
      number it denotes; the arithmetic of the code on floats rounds the
      exact result to the nearest double ([round_double]).
    - The library functions the code calls ([zlib], [json], the UTF-8
      decoder, [int] on a [str]) are the fields of the class [PyLib]. *)

From Stdlib Require Import String Ascii ZArith QArith Qround Qpower Bool List Lia.
From Stdlib Require Import Strings.Byte DecimalString Lqa.
Import ListNotations.
Local Open Scope Z_scope.

(* ================================================================== *)
(** * Bytes *)
(* ================================================================== *)

Definition bytes := list byte.

Definition byte_to_Z (b : byte) : Z := Z.of_N (Byte.to_N b).

Definition byte_of_Z (z : Z) : byte :=
  match Byte.of_N (Z.to_N z) with
  | Some b => b
  | None => x00
  end.

(** [len(b)] as a Python integer. *)
Definition len {A} (l : list A) : Z := Z.of_nat (length l).

(** [b[-2:]] and [b[:-2]]. *)
Definition last2 (p : bytes) : bytes := skipn (length p - 2) p.
Definition drop_last2 (p : bytes) : bytes := firstn (length p - 2) p.

(** Flipping bit [k] of a byte, and bit [i] of a byte string (bit [i] is
    bit [i mod 8] of byte [i / 8]). *)
Definition flip_bit_byte (k : nat) (b : byte) : byte :=
  byte_of_Z (Z.lxor (byte_to_Z b) (2 ^ Z.of_nat k)).

Fixpoint flip_bit (i : nat) (p : bytes) : bytes :=
  match p with
  | [] => []
  | b :: r =>
      if (i <? 8)%nat then flip_bit_byte i b :: r
      else b :: flip_bit (i - 8) r
  end.

(* ================================================================== *)
(** * Exceptions *)
(* ================================================================== *)

Inductive exn : Type :=
| StructError | ValueError | TypeError | AttributeError
| ZlibError | UnicodeDecodeError | JSONDecodeError.

Inductive exc (A : Type) : Type :=
| Ret (a : A)
| Raise (e : exn).
Arguments Ret {A} a.
Arguments Raise {A} e.

Definition exc_bind {A B} (m : exc A) (f : A -> exc B) : exc B :=
  match m with
  | Ret a => f a
  | Raise e => Raise e
  end.

Declare Scope exc_scope.
Delimit Scope exc_scope with exc.
Notation "x <- m ;; k" := (exc_bind m (fun x => k))
  (at level 61, m at next level, right associativity) : exc_scope.
Notation "' pat <- m ;; k" := (exc_bind m (fun x => match x with pat => k end))
  (at level 61, pat pattern, m at next level, right associativity) : exc_scope.

(* ================================================================== *)
(** * The checksum: [ProtocolHandler.calculate_checksum] *)
(* ================================================================== *)

(** One round of the inner loop:
    [if crc & 1: crc = (crc >> 1) ^ 0xA001 else: crc >>= 1]. *)
Definition crc_shift (crc : Z) : Z :=
  if Z.land crc 1 =? 0 then Z.shiftr crc 1
  else Z.lxor (Z.shiftr crc 1) 0xA001.

(** One round of the outer loop: [crc ^= byte], then eight inner rounds. *)
Definition crc_byte (crc : Z) (b : byte) : Z :=
  Nat.iter 8 crc_shift (Z.lxor crc (byte_to_Z b)).

Definition crc_from (crc : Z) (data : bytes) : Z := fold_left crc_byte data crc.

Definition calculate_checksum (data : bytes) : Z := crc_from 0xFFFF data.

(** ** The CRC of the design document

    The bit-serial register: initial value [0xFFFF], reflected polynomial
    [0xA001], the message consumed byte by byte, least significant bit
    first. A message bit is fed by xor-ing it with the bit shifted out. *)
Definition crc16_bit (crc : Z) (m : bool) : Z :=
  Z.lxor (Z.shiftr crc 1) (if xorb (Z.odd crc) m then 0xA001 else 0).

Definition bits_lsb_first (b : byte) : list bool :=
  map (fun k => Z.testbit (byte_to_Z b) (Z.of_nat k)) (seq 0 8).

Definition crc16_spec (data : bytes) : Z :=
  fold_left crc16_bit (flat_map bits_lsb_first data) 0xFFFF.

(* ================================================================== *)
(** * The [struct] module, little-endian standard sizes ([<]) *)
(* ================================================================== *)

(** Format characters [B], [H], [I], [Q] and [<n>s]. *)
Inductive fmt : Type := fB | fH | fI | fQ | fS (n : nat).

(** An argument of [struct.pack], a component of [struct.unpack]. *)
Inductive sval : Type :=
| SInt (z : Z)
| SBytes (b : bytes).

Definition fmt_size (f : fmt) : nat :=
  match f with
  | fB => 1 | fH => 2 | fI => 4 | fQ => 8
  | fS n => n
  end%nat.

Definition calcsize (fs : list fmt) : nat := list_sum (map fmt_size fs).

Fixpoint le_bytes (n : nat) (z : Z) : bytes :=
  match n with
  | O => []
  | S n' => byte_of_Z (z mod 256) :: le_bytes n' (z / 256)
  end.

Fixpoint le_value (b : bytes) : Z :=
  match b with
  | [] => 0
  | x :: r => byte_to_Z x + 256 * le_value r
  end.

(** An integer out of the range of its format and an argument of the wrong
    kind raise [struct.error]; [<n>s] pads with zero bytes and truncates. *)
Definition pack_item (f : fmt) (v : sval) : exc bytes :=
  match f, v with
  | fS n, SBytes b => Ret (firstn n (b ++ repeat x00 n))
  | fS _, SInt _ => Raise StructError
  | _, SBytes _ => Raise StructError
  | _, SInt z =>
      if (0 <=? z) && (z <? 256 ^ Z.of_nat (fmt_size f))
      then Ret (le_bytes (fmt_size f) z)
      else Raise StructError
  end.

(** [struct.pack(fmt, *args)]: as many arguments as the format has items,
    or [struct.error]. *)
Fixpoint struct_pack (fs : list fmt) (vs : list sval) : exc bytes :=
  match fs, vs with
  | [], [] => Ret []
  | f :: fs', v :: vs' =>
      match pack_item f v, struct_pack fs' vs' with
      | Ret b, Ret r => Ret (b ++ r)
      | Raise e, _ => Raise e
      | _, Raise e => Raise e
      end
  | _, _ => Raise StructError
  end.

Definition unpack_item (f : fmt) (b : bytes) : sval :=
  match f with
  | fS _ => SBytes b
  | _ => SInt (le_value b)
  end.

Fixpoint unpack_items (fs : list fmt) (b : bytes) : list sval :=
  match fs with
  | [] => []
  | f :: fs' =>
      unpack_item f (firstn (fmt_size f) b) :: unpack_items fs' (skipn (fmt_size f) b)
  end.

(** [struct.unpack(fmt, buffer)]: the buffer has exactly [calcsize(fmt)]
    bytes, or [struct.error]. *)
Definition struct_unpack (fs : list fmt) (b : bytes) : exc (list sval) :=
  if (length b =? calcsize fs)%nat then Ret (unpack_items fs b)
  else Raise StructError.

(* ================================================================== *)
(** * Python values *)
(* ================================================================== *)

#[warnings="-register-all"]
Inductive pyval : Type :=
| PNone
| PBool (b : bool)
| PInt (z : Z)
| PFloat (q : Q)
| PStr (s : string)
| PList (l : list pyval)
| PDict (d : list (string * pyval)).

(** A [dict] with [str] keys, in insertion order. *)
Definition dict := list (string * pyval).

Fixpoint dict_lookup {V} (d : list (string * V)) (k : string) : option V :=
  match d with
  | [] => None
  | (k', v) :: r => if String.eqb k' k then Some v else dict_lookup r k
  end.

(** [d.get(k, default)]. *)
Definition dict_get (d : dict) (k : string) (default : pyval) : pyval :=
  match dict_lookup d k with
  | Some v => v
  | None => default
  end.

(** Truth value of an object. *)
Definition py_truthy (v : pyval) : bool :=
  match v with
  | PNone => false
  | PBool b => b
  | PInt z => negb (z =? 0)
  | PFloat q => negb (Qeq_bool q 0)
  | PStr s => negb (String.eqb s EmptyString)
  | PList l => match l with [] => false | _ => true end
  | PDict d => match d with [] => false | _ => true end
  end.

(** [v == s] for a string literal [s]. *)
Definition py_eq_str (v : pyval) (s : string) : bool :=
  match v with
  | PStr t => String.eqb t s
  | _ => false
  end.

(** [table.get(key, default)] for a class constant with [str] keys: a key
    that is not hashable raises [TypeError]. *)
Definition const_get (table : list (string * Z)) (key : pyval) (default : Z) : exc Z :=
  match key with
  | PStr s => Ret (match dict_lookup table s with Some c => c | None => default end)
  | PList _ | PDict _ => Raise TypeError
  | _ => Ret default
  end.

(** The first name with the given code:
    [for name, code in table.items(): if code == c: ...; break]. *)
Fixpoint name_of_code (table : list (string * Z)) (c : Z) (default : string) : string :=
  match table with
  | [] => default
  | (name, code) :: r => if code =? c then name else name_of_code r c default
  end.

(** [s.encode('utf-8')]. *)
Definition str_encode (s : string) : bytes := list_byte_of_string s.

(** [b.rstrip(b'\x00')]. *)
Fixpoint rstrip0 (b : bytes) : bytes :=
  match b with
  | [] => []
  | x :: r =>
      match rstrip0 r with
      | [] => if Byte.eqb x x00 then [] else [x]
      | r' => x :: r'
      end
  end.

(** ** Floats

    A finite double is a rational number. An operation of the code on
    floats gives the double nearest to the exact result, ties to the even
    significand (IEEE 754 binary64, 53 bits of precision, the smallest
    exponent -1074). A result beyond the largest double, which is [inf] in
    Python, is not modelled: no clock reading comes near it. *)

(** The exponent of the binade of [x > 0]: [2^k <= x < 2^(k+1)]. *)
Definition floor_log2 (x : Q) : Z :=
  let k := Z.log2 (Qnum x) - Z.log2 (Z.pos (Qden x)) in
  if Qle_bool (2 ^ k)%Q x then k else k - 1.

(** The nearest integer, ties to even. *)
Definition round_half_even (x : Q) : Z :=
  let f := Qfloor x in
  match (x - inject_Z f ?= 1 # 2)%Q with
  | Lt => f
  | Gt => f + 1
  | Eq => if Z.even f then f else f + 1
  end.

(** The nearest double to [x > 0]: a multiple of [2^e], where [e] leaves
    53 bits to the significand and is at least -1074. *)
Definition round_positive (x : Q) : Q :=
  let e := Z.max (-1074) (floor_log2 x - 52) in
  (inject_Z (round_half_even (x / 2 ^ e)) * 2 ^ e)%Q.

Definition round_double (x : Q) : Q :=
  match (x ?= 0)%Q with
  | Eq => 0%Q
  | Gt => Qred (round_positive x)
  | Lt => Qred (- round_positive (- x))
  end.

(** [a * b], [a - b] and [a / b] on floats. *)
Definition float_mul (a b : Q) : Q := round_double (a * b).
Definition float_sub (a b : Q) : Q := round_double (a - b).
Definition float_div (a b : Q) : Q := round_double (a / b).

(** The library functions the codec and the session manager call. *)
Class PyLib : Type := {
  (** [zlib.compress(data, level=1)] *)
  zlib_compress : bytes -> exc bytes;
  (** [zlib.decompress(data)] *)
  zlib_decompress : bytes -> exc bytes;
  (** [json.dumps(obj)] *)
  json_dumps : pyval -> exc string;
  (** [json.loads(text)] *)
  json_loads : string -> exc pyval;
  (** [data.decode('utf-8')] *)
  utf8_decode : bytes -> exc string;
  (** [data.decode('utf-8', errors='ignore')] *)
  utf8_decode_ignore : bytes -> string;
  (** [int(s)] for a [str] *)
  int_of_str : string -> exc Z
}.

(** [int(v)]; a float is truncated toward zero. *)
Definition py_int `{PyLib} (v : pyval) : exc Z :=
  match v with
  | PInt z => Ret z
  | PBool b => Ret (if b then 1 else 0)
  | PFloat q => Ret (Z.quot (Qnum q) (Z.pos (Qden q)))
  | PStr s => int_of_str s
  | PNone | PList _ | PDict _ => Raise TypeError
  end.

(* ================================================================== *)
(** * [class ProtocolHandler] *)
(* ================================================================== *)

Definition HEADER_MAGIC : Z := 0xAABB.

Definition PACKET_TYPES : list (string * Z) :=
  [ ("MOUSE_MOVEMENT", 0x01); ("MOUSE_CLICK", 0x02); ("KEYBOARD_KEY", 0x03);
    ("SCROLL_EVENT", 0x04); ("GESTURE_START", 0x05); ("GESTURE_END", 0x06);
    ("CONTROL_SWITCH", 0x07); ("HEARTBEAT", 0x08) ]%string.

Definition MOUSE_BUTTONS : list (string * Z) :=
  [ ("left", 0x01); ("right", 0x02); ("middle", 0x03); ("x1", 0x04);
    ("x2", 0x05) ]%string.

Definition CONTROL_EDGES : list (string * Z) :=
  [ ("left", 0x01); ("right", 0x02); ("top", 0x03); ("bottom", 0x04);
    ("hotkey", 0x05); ("return_to_pc", 0x06) ]%string.

(** The instance attributes. *)
Record ProtocolHandler : Type := mkHandler {
  packet_sequence : Z;
  compression_enabled : bool;
  max_packet_size : Z
}.

(** [__init__]. *)
Definition init_handler : ProtocolHandler :=
  {| packet_sequence := 0; compression_enabled := true; max_packet_size := 1024 |}.

Definition set_packet_sequence (n : Z) (self : ProtocolHandler) : ProtocolHandler :=
  {| packet_sequence := n;
     compression_enabled := compression_enabled self;
     max_packet_size := max_packet_size self |}.

(** A method: it returns or raises, and leaves the instance in a state. *)
Definition M (A : Type) : Type := ProtocolHandler -> exc A * ProtocolHandler.

Definition mret {A} (a : A) : M A := fun self => (Ret a, self).

Definition mbind {A B} (m : M A) (f : A -> M B) : M B :=
  fun self =>
    match m self with
    | (Ret a, self') => f a self'
    | (Raise e, self') => (Raise e, self')
    end.

(** A computation that does not touch the instance. *)
Definition lift {A} (m : exc A) : M A := fun self => (m, self).

Declare Scope m_scope.
Delimit Scope m_scope with M.
Notation "x <- m ;; k" := (mbind m (fun x => k))
  (at level 61, m at next level, right associativity) : m_scope.

Section Codec.
Context {lib : PyLib}.

Definition calculate_and_append (packet : bytes) : exc bytes :=
  match struct_pack [fH] [SInt (calculate_checksum packet)] with
  | Ret c => Ret (packet ++ c)
  | Raise e => Raise e
  end.

(** The payload and type byte after the compression step of
    [build_packet]: compression is tried for a payload of more than 64
    bytes, kept when strictly smaller, and a failure of [zlib] falls back
    to the payload as it is. *)
Definition compress_step (enabled : bool) (packet_type : Z) (payload : bytes)
  : Z * bytes :=
  if enabled && (64 <? len payload) then
    match zlib_compress payload with
    | Ret compressed_payload =>
        if len compressed_payload <? len payload
        then (Z.lor packet_type 0x80, compressed_payload)
        else (packet_type, payload)
    | Raise _ => (packet_type, payload)
    end
  else (packet_type, payload).

Definition build_packet (packet_type : Z) (payload : bytes) : M bytes :=
  fun self =>
    let '(packet_type, payload) :=
      compress_step (compression_enabled self) packet_type payload in
    match struct_pack [fH; fB] [SInt HEADER_MAGIC; SInt packet_type] with
    | Raise e => (Raise e, self)
    | Ret hdr =>
        match calculate_and_append (hdr ++ payload) with
        | Raise e => (Raise e, self)
        | Ret packet =>
            (Ret packet,
             set_packet_sequence ((packet_sequence self + 1) mod 65536) self)
        end
    end.

(** [int(event_data.get(k, 0))]. *)
Definition get_int (event_data : dict) (k : string) : exc Z :=
  py_int (dict_get event_data k (PInt 0)).

(** The payload of a typed packet: [struct.pack(fmt, self.packet_sequence,
    ...)], then [build_packet]. *)
Definition pack_and_build (packet_type : Z) (fs : list fmt) (fields : exc (list sval))
  : M bytes :=
  fun self =>
    match fields with
    | Raise e => (Raise e, self)
    | Ret vs =>
        match struct_pack fs (SInt (packet_sequence self) :: vs) with
        | Raise e => (Raise e, self)
        | Ret payload => build_packet packet_type payload self
        end
    end.

Definition create_mouse_movement_packet (event_data : dict) (timestamp : Z) : M bytes :=
  pack_and_build 0x01 [fH; fH; fI; fI; fQ]
    (x <- get_int event_data "x" ;;
     y <- get_int event_data "y" ;;
     Ret [SInt x; SInt y; SInt timestamp])%exc.

Definition create_mouse_click_packet (event_data : dict) (timestamp : Z) : M bytes :=
  pack_and_build 0x02 [fH; fI; fI; fI; fB; fB; fQ]
    (x <- get_int event_data "x" ;;
     y <- get_int event_data "y" ;;
     let button := dict_get event_data "button" (PStr "left") in
     let pressed := dict_get event_data "pressed" (PBool false) in
     button_byte <- const_get MOUSE_BUTTONS button 0x01 ;;
     let state_byte := if py_truthy pressed then 0x01 else 0x00 in
     Ret [SInt x; SInt y; SInt button_byte; SInt state_byte; SInt timestamp])%exc.

Definition create_keyboard_packet (event_data : dict) (timestamp : Z) : M bytes :=
  pack_and_build 0x03 [fH; fI; fB; fB; fB; fS 16; fQ]
    (key_code <- get_int event_data "key_code" ;;
     let pressed := dict_get event_data "pressed" (PBool false) in
     key_bytes <- match dict_get event_data "key" (PStr "") with
                  | PStr key_str => Ret (firstn 16 (str_encode key_str))
                  | _ => Raise AttributeError
                  end ;;
     let key_bytes_padded := key_bytes ++ repeat x00 (16 - length key_bytes) in
     let state_byte := if py_truthy pressed then 0x01 else 0x00 in
     let modifiers_byte := 0x00 in
     Ret [SInt key_code; SInt state_byte; SInt modifiers_byte;
          SBytes key_bytes_padded; SInt timestamp])%exc.

Definition create_scroll_packet (event_data : dict) (timestamp : Z) : M bytes :=
  pack_and_build 0x04 [fH; fI; fI; fH; fH; fH; fQ]
    (x <- get_int event_data "x" ;;
     y <- get_int event_data "y" ;;
     dx <- get_int event_data "dx" ;;
     dy <- get_int event_data "dy" ;;
     Ret [SInt x; SInt y; SInt dx; SInt dy; SInt timestamp])%exc.

Definition create_control_switch_packet (event_data : dict) (timestamp : Z) : M bytes :=
  pack_and_build 0x07 [fH; fB; fB; fB; fQ]
    (let edge := dict_get event_data "edge" (PStr "left") in
     edge_byte <- const_get CONTROL_EDGES edge 0x01 ;;
     Ret [SInt edge_byte; SInt 0x00; SInt 0x00; SInt 0x00; SInt timestamp])%exc.

(** [now] is the value of [time.time()]. *)
Definition create_heartbeat_packet (now : Q) : M bytes :=
  pack_and_build 0x08 [fH; fQ]
    (timestamp <- py_int (PFloat (float_mul now 1000)) ;;
     Ret [SInt timestamp])%exc.

(** The payload of a JSON or batch packet:
    [struct.pack('<HH', self.packet_sequence, len(data)) + data]. *)
Definition json_payload (seq : Z) (obj : pyval) : exc bytes :=
  (text <- json_dumps obj ;;
   let json_data := str_encode text in
   hdr <- struct_pack [fH; fH] [SInt seq; SInt (len json_data)] ;;
   Ret (hdr ++ json_data))%exc.

Definition create_json_packet (event_data : dict) : M bytes :=
  fun self =>
    match json_payload (packet_sequence self) (PDict event_data) with
    | Raise e => (Raise e, self)
    | Ret payload => build_packet 0xFF payload self
    end.

Definition create_packet (now : Q) (event_data : dict) : M bytes :=
  fun self =>
    let packet_type := dict_get event_data "type" (PStr "") in
    match py_int (dict_get event_data "timestamp" (PFloat (float_mul now 1000))) with
    | Raise e => (Raise e, self)
    | Ret timestamp =>
        match const_get PACKET_TYPES packet_type 0x00 with
        | Raise e => (Raise e, self)
        | Ret type_byte =>
            if type_byte =? 0x00 then create_json_packet event_data self
            else if py_eq_str packet_type "mouse_move" then
              create_mouse_movement_packet event_data timestamp self
            else if py_eq_str packet_type "mouse_click" then
              create_mouse_click_packet event_data timestamp self
            else if py_eq_str packet_type "key_press"
                    || py_eq_str packet_type "key_release" then
              create_keyboard_packet event_data timestamp self
            else if py_eq_str packet_type "mouse_scroll" then
              create_scroll_packet event_data timestamp self
            else if py_eq_str packet_type "control_switch" then
              create_control_switch_packet event_data timestamp self
            else create_json_packet event_data self
        end
    end.

Definition create_batch_packet (events : list dict) : M bytes :=
  fun self =>
    match json_payload (packet_sequence self) (PList (map PDict events)) with
    | Raise e => (Raise e, self)
    | Ret payload =>
        match struct_pack [fH; fB] [SInt HEADER_MAGIC; SInt 0xFE] with
        | Raise e => (Raise e, self)
        | Ret hdr =>
            match calculate_and_append (hdr ++ payload) with
            | Raise e => (Raise e, self)
            | Ret packet =>
                (Ret packet,
                 set_packet_sequence ((packet_sequence self + 1) mod 65536) self)
            end
        end
    end.

(** The loop of [batch_events], with its three local variables. *)
Fixpoint batch_loop (now : Q) (max_size : Z) (events : list dict)
  (packets : list bytes) (current_batch : list dict) (current_size : Z)
  : M (list bytes) :=
  match events with
  | [] =>
      match current_batch with
      | [] => mret packets
      | _ => (b <- create_batch_packet current_batch ;; mret (packets ++ [b]))%M
      end
  | event :: rest =>
      (packet <- create_packet now event ;;
       if (max_size <? current_size + len packet)
          && match current_batch with [] => false | _ => true end
       then
         b <- create_batch_packet current_batch ;;
         batch_loop now max_size rest (packets ++ [b]) [event] (len packet)
       else
         batch_loop now max_size rest packets (current_batch ++ [event])
           (current_size + len packet))%M
  end.

Definition batch_events (now : Q) (events : list dict) (max_size : Z) : M (list bytes) :=
  batch_loop now max_size events [] [] 0.

(** ** Decoding *)

Definition verify_checksum (packet : bytes) : bool :=
  if (length packet <? 2)%nat then false
  else
    match struct_unpack [fH] (last2 packet) with
    | Ret [SInt received_checksum] =>
        received_checksum =? calculate_checksum (drop_last2 packet)
    | _ => false
    end.

Definition parse_mouse_movement_packet (payload : bytes) : exc pyval :=
  (vals <- struct_unpack [fH; fI; fI; fQ] payload ;;
   match vals with
   | [SInt seq; SInt x; SInt y; SInt timestamp] =>
       Ret (PDict [ ("type", PStr "mouse_move"); ("sequence", PInt seq);
                    ("x", PInt x); ("y", PInt y);
                    ("timestamp", PInt timestamp) ]%string)
   | _ => Raise ValueError
   end)%exc.

(** The format has seven items and the assignment six names. *)
Definition parse_mouse_click_packet (payload : bytes) : exc pyval :=
  (vals <- struct_unpack [fH; fI; fI; fI; fB; fB; fQ] payload ;;
   match vals with
   | [SInt seq; SInt x; SInt y; SInt button; SInt state; SInt timestamp] =>
       let button_name := name_of_code MOUSE_BUTTONS button "unknown" in
       Ret (PDict [ ("type", PStr "mouse_click"); ("sequence", PInt seq);
                    ("x", PInt x); ("y", PInt y);
                    ("button", PStr button_name);
                    ("pressed", PBool (negb (state =? 0)%Z));
                    ("timestamp", PInt timestamp) ]%string)
   | _ => Raise ValueError
   end)%exc.

(** The format has seven items and the assignment six names. *)
Definition parse_keyboard_packet (payload : bytes) : exc pyval :=
  (vals <- struct_unpack [fH; fI; fB; fB; fB; fS 16; fQ] payload ;;
   match vals with
   | [SInt seq; SInt key_code; SInt state; SInt modifiers; SBytes key_bytes;
      SInt timestamp] =>
       let key_str := utf8_decode_ignore (rstrip0 key_bytes) in
       let event_type := if state =? 0x01 then "key_press"%string else "key_release"%string in
       Ret (PDict [ ("type", PStr event_type); ("sequence", PInt seq);
                    ("key_code", PInt key_code); ("key", PStr key_str);
                    ("pressed", PBool (negb (state =? 0)%Z));
                    ("modifiers", PInt modifiers);
                    ("timestamp", PInt timestamp) ]%string)
   | _ => Raise ValueError
   end)%exc.

(** The format has seven items and the assignment six names. *)
Definition parse_scroll_packet (payload : bytes) : exc pyval :=
  (vals <- struct_unpack [fH; fI; fI; fH; fH; fH; fQ] payload ;;
   match vals with
   | [SInt seq; SInt x; SInt y; SInt dx; SInt dy; SInt timestamp] =>
       Ret (PDict [ ("type", PStr "mouse_scroll"); ("sequence", PInt seq);
                    ("x", PInt x); ("y", PInt y); ("dx", PInt dx);
                    ("dy", PInt dy); ("timestamp", PInt timestamp) ]%string)
   | _ => Raise ValueError
   end)%exc.

(** The format has five items and the assignment six names. *)
Definition parse_control_switch_packet (payload : bytes) : exc pyval :=
  (vals <- struct_unpack [fH; fB; fB; fB; fQ] payload ;;
   match vals with
   | [SInt seq; SInt edge; SInt reserved1; SInt reserved2; SInt reserved3;
      SInt timestamp] =>
       let edge_name := name_of_code CONTROL_EDGES edge "unknown" in
       Ret (PDict [ ("type", PStr "control_switch"); ("sequence", PInt seq);
                    ("edge", PStr edge_name);
                    ("timestamp", PInt timestamp) ]%string)
   | _ => Raise ValueError
   end)%exc.

Definition parse_heartbeat_packet (payload : bytes) : exc pyval :=
  (vals <- struct_unpack [fH; fQ] payload ;;
   match vals with
   | [SInt seq; SInt timestamp] =>
       Ret (PDict [ ("type", PStr "heartbeat"); ("sequence", PInt seq);
                    ("timestamp", PInt timestamp) ]%string)
   | _ => Raise ValueError
   end)%exc.

Definition parse_json_packet (payload : bytes) : exc pyval :=
  (vals <- struct_unpack [fH; fH] (firstn 4 payload) ;;
   match vals with
   | [SInt seq; SInt json_len] =>
       json_data <- utf8_decode (firstn (Z.to_nat json_len) (skipn 4 payload)) ;;
       json_loads json_data
   | _ => Raise ValueError
   end)%exc.

(** The dispatch on the type code, inside [try: ... except: return None]. *)
Definition parse_payload (packet_type : Z) (payload : bytes) : exc (option pyval) :=
  let guarded (r : exc pyval) : exc (option pyval) :=
    match r with
    | Ret v => Ret (Some v)
    | Raise _ => Ret None
    end in
  if packet_type =? 0x01 then guarded (parse_mouse_movement_packet payload)
  else if packet_type =? 0x02 then guarded (parse_mouse_click_packet payload)
  else if packet_type =? 0x03 then guarded (parse_keyboard_packet payload)
  else if packet_type =? 0x04 then guarded (parse_scroll_packet payload)
  else if packet_type =? 0x07 then guarded (parse_control_switch_packet payload)
  else if packet_type =? 0x08 then guarded (parse_heartbeat_packet payload)
  else if packet_type =? 0xFF then guarded (parse_json_packet payload)
  else Ret None.

(** [parse_packet]: [Ret None] is the value [None], [Raise] an exception
    that leaves the method. *)
Definition parse_packet (packet : bytes) : exc (option pyval) :=
  if len packet <? 5 then Ret None
  else
    (hs <- struct_unpack [fH] (firstn 2 packet) ;;
     match hs with
     | [SInt header] =>
         if negb (header =? HEADER_MAGIC) then Ret None
         else if negb (verify_checksum packet) then Ret None
         else
           let type_byte := byte_to_Z (nth 2 packet x00) in
           let compressed := negb (Z.land type_byte 0x80 =? 0) in
           let packet_type := Z.land type_byte 0x7F in
           let payload := skipn 3 (drop_last2 packet) in
           if compressed then
             match zlib_decompress payload with
             | Ret payload => parse_payload packet_type payload
             | Raise _ => Ret None
             end
           else parse_payload packet_type payload
     | _ => Raise ValueError
     end)%exc.

End Codec.

(* ================================================================== *)
(** * [class ConnectionManager]: the session *)
(* ================================================================== *)

(** A socket object, by identity, and a peer address. *)
Definition sock : Type := nat.
Definition addr : Type := (string * Z)%type.

(** The text of a [log_message] signal, without its interpolated details. *)
Inductive log_entry : Type :=
| LogConnected (device_name : pyval) (a : addr)
| LogDisconnected (device_name : pyval)
| LogInvalidHandshake (a : addr)
| LogErrorHandlingClient
| LogErrorSendingPacket
| LogErrorSendingJson
| LogTimeout
| LogInvalidJson
| LogErrorReceivingJson.

(** What the code does to the world, in program order. *)
Inductive effect : Type :=
| SockSend (s : sock) (data : bytes)
| SockSendRaised (s : sock) (data : bytes)
| SockSetTimeout (s : sock) (seconds : Q)
| SockRecv (s : sock)
| SockClose (s : sock)
| EmitStatusChanged (connected : bool) (name : string)
| EmitLog (l : log_entry)
| ThreadStart (s : sock)
| Sleep (seconds : Q).

(** What [sock.recv(1024)] does. *)
Inductive recv_outcome : Type :=
| RecvData (data : bytes)
| RecvTimeout
| RecvRaised.

(** The attributes of the session, the lock, and the world: the sockets
    closed so far and the effects so far (the latest last). *)
Record ConnectionManager : Type := mkManager {
  client_socket : option sock;
  client_address : option addr;
  device_name : pyval;
  connected : bool;
  server_running : bool;
  lock_held : bool;
  closed : list sock;
  trace : list effect
}.

Definition HEARTBEAT_INTERVAL : Q := 5.

(** A method of the manager returns, or waits for [self.lock] forever: the
    lock is a [threading.Lock], which the thread that holds it cannot take
    again. *)
Inductive outcome (A : Type) : Type :=
| Done (a : A) (st : ConnectionManager)
| Blocked (st : ConnectionManager).
Arguments Done {A} a st.
Arguments Blocked {A} st.

Definition Mgr (A : Type) : Type := ConnectionManager -> outcome A.

Definition sret {A} (a : A) : Mgr A := fun st => Done a st.

Definition sbind {A B} (m : Mgr A) (f : A -> Mgr B) : Mgr B :=
  fun st =>
    match m st with
    | Done a st' => f a st'
    | Blocked st' => Blocked st'
    end.

Declare Scope mgr_scope.
Delimit Scope mgr_scope with mgr.
Notation "x <- m ;; k" := (sbind m (fun x => k))
  (at level 61, m at next level, right associativity) : mgr_scope.
Notation "m ;;; k" := (sbind m (fun _ => k))
  (at level 61, right associativity) : mgr_scope.

Definition get_state : Mgr ConnectionManager := fun st => Done st st.

Definition do_effect (e : effect) : Mgr unit :=
  fun st =>
    Done tt {| client_socket := client_socket st;
               client_address := client_address st;
               device_name := device_name st;
               connected := connected st;
               server_running := server_running st;
               lock_held := lock_held st;
               closed := closed st;
               trace := trace st ++ [e] |}.

Definition set_lock (b : bool) (st : ConnectionManager) : ConnectionManager :=
  {| client_socket := client_socket st;
     client_address := client_address st;
     device_name := device_name st;
     connected := connected st;
     server_running := server_running st;
     lock_held := b;
     closed := closed st;
     trace := trace st |}.

(** [with self.lock: body]. *)
Definition with_lock {A} (body : Mgr A) : Mgr A :=
  fun st =>
    if lock_held st then Blocked st
    else
      match body (set_lock true st) with
      | Done a st' => Done a (set_lock false st')
      | Blocked st' => Blocked st'
      end.

(** [s.close()]. *)
Definition sock_close (s : sock) : Mgr unit :=
  fun st =>
    Done tt {| client_socket := client_socket st;
               client_address := client_address st;
               device_name := device_name st;
               connected := connected st;
               server_running := server_running st;
               lock_held := lock_held st;
               closed := s :: closed st;
               trace := trace st ++ [SockClose s] |}.

(** The assignments of [disconnect_client] and of [handle_client_connection]
    to the session attributes. *)
Definition set_session (cs : option sock) (ca : option addr) (dn : pyval)
  (c : bool) : Mgr unit :=
  fun st =>
    Done tt {| client_socket := cs;
               client_address := ca;
               device_name := dn;
               connected := c;
               server_running := server_running st;
               lock_held := lock_held st;
               closed := closed st;
               trace := trace st |}.

Section Session.
Context {lib : PyLib}.

(** The peer and the network: whether a send on an open socket raises, and
    what a receive returns. *)
Variable net_send_raises : sock -> bool.
Variable net_recv : sock -> recv_outcome.

(** [str.strip()]. *)
Variable str_strip : string -> string.

(** [s.send(data)]: [true] when it returned; a closed socket raises. *)
Definition sock_send (s : sock) (data : bytes) : Mgr bool :=
  (st <- get_state ;;
   if existsb (Nat.eqb s) (closed st) || net_send_raises s
   then do_effect (SockSendRaised s data) ;;; sret false
   else do_effect (SockSend s data) ;;; sret true)%mgr.

Definition disconnect_client : Mgr unit :=
  (old_device_name <-
     with_lock
       (st <- get_state ;;
        match client_socket st with
        | Some s => sock_close s
        | None => sret tt
        end ;;;
        set_session None None (PStr "") false ;;;
        sret (device_name st)) ;;
   if py_truthy old_device_name then
     do_effect (EmitLog (LogDisconnected old_device_name)) ;;;
     do_effect (EmitStatusChanged false "")
   else sret tt)%mgr.

Definition send_packet (packet : bytes) : Mgr bool :=
  with_lock
    (st <- get_state ;;
     match connected st, client_socket st with
     | true, Some s =>
         sent <- sock_send s packet ;;
         if sent then sret true
         else
           do_effect (EmitLog LogErrorSendingPacket) ;;;
           disconnect_client ;;;
           sret false
     | _, _ => sret false
     end)%mgr.

(** [send_json(sock, data)]; [sock] is [None] when the attribute is. *)
Definition send_json (s : option sock) (data : pyval) : Mgr bool :=
  match json_dumps data, s with
  | Ret text, Some s =>
      (sent <- sock_send s (str_encode (text ++ String "010" EmptyString)) ;;
       if sent then sret true
       else do_effect (EmitLog LogErrorSendingJson) ;;; sret false)%mgr
  | _, _ => (do_effect (EmitLog LogErrorSendingJson) ;;; sret false)%mgr
  end.

(** [receive_json(sock, timeout)]. *)
Definition receive_json (s : sock) (timeout : Q) : Mgr (option pyval) :=
  (st <- get_state ;;
   if existsb (Nat.eqb s) (closed st)
   then do_effect (EmitLog LogErrorReceivingJson) ;;; sret None
   else
     do_effect (SockSetTimeout s timeout) ;;;
     do_effect (SockRecv s) ;;;
     match net_recv s with
     | RecvTimeout => do_effect (EmitLog LogTimeout) ;;; sret None
     | RecvRaised => do_effect (EmitLog LogErrorReceivingJson) ;;; sret None
     | RecvData raw =>
         match utf8_decode raw with
         | Raise _ => do_effect (EmitLog LogErrorReceivingJson) ;;; sret None
         | Ret text =>
             let data := str_strip text in
             if String.eqb data EmptyString then sret None
             else
               match json_loads data with
               | Ret v => sret (Some v)
               | Raise _ => do_effect (EmitLog LogInvalidJson) ;;; sret None
               end
         end
     end)%mgr.

(** [response and response.get('type') == 'handshake_response']: an object
    without [get] raises [AttributeError]. *)
Definition is_handshake_response (response : option pyval) : exc bool :=
  match response with
  | None => Ret false
  | Some v =>
      if negb (py_truthy v) then Ret false
      else
        match v with
        | PDict d => Ret (py_eq_str (dict_get d "type" PNone) "handshake_response")
        | _ => Raise AttributeError
        end
  end.

(** The handler of [except Exception] in [handle_client_connection]. *)
Definition on_connection_error (client_socket : sock) : Mgr unit :=
  (do_effect (EmitLog LogErrorHandlingClient) ;;; sock_close client_socket)%mgr.

(** [status_changed] is declared [pyqtSignal(bool, str)]: its [emit] takes
    a [str], and [None] as the null string; on a device name of another
    type it raises [TypeError], and the handler of the method then closes
    the socket it has just installed.

    [ThreadStart s] is the start of the receive thread of [s]. The steps of
    that thread are the calls of [handle_client_data s] below, which run
    after this method has returned, between and after the later calls of
    the manager. *)
Definition handle_client_connection (now : Q) (new_socket : sock)
  (new_address : addr) : Mgr unit :=
  (let handshake :=
     PDict [ ("type", PStr "handshake"); ("version", PStr "1.0");
             ("timestamp", PFloat now) ]%string in
   _ <- send_json (Some new_socket) handshake ;;
   response <- receive_json new_socket 5 ;;
   match is_handshake_response response with
   | Raise _ => on_connection_error new_socket
   | Ret false =>
       sock_close new_socket ;;;
       do_effect (EmitLog (LogInvalidHandshake new_address))
   | Ret true =>
       let name :=
         match response with
         | Some (PDict d) => dict_get d "device_name" (PStr "Unknown Device")
         | _ => PNone
         end in
       st <- get_state ;;
       match client_socket st with
       | Some _ => disconnect_client
       | None => sret tt
       end ;;;
       with_lock (set_session (Some new_socket) (Some new_address) name true) ;;;
       do_effect (EmitLog (LogConnected name new_address)) ;;;
       match name with
       | PStr n =>
           do_effect (EmitStatusChanged true n) ;;;
           do_effect (ThreadStart new_socket)
       | PNone =>
           do_effect (EmitStatusChanged true EmptyString) ;;;
           do_effect (ThreadStart new_socket)
       | _ => on_connection_error new_socket
       end
   end)%mgr.

(** One round of the loop of [heartbeat_monitor]; [now] is the value of
    [time.time()] after the sleep. *)
Definition heartbeat_round (now : Q) : Mgr unit :=
  (do_effect (Sleep HEARTBEAT_INTERVAL) ;;;
   st <- get_state ;;
   if connected st then
     let heartbeat :=
       PDict [ ("type", PStr "heartbeat"); ("timestamp", PFloat now) ]%string in
     sent <- send_json (client_socket st) heartbeat ;;
     if sent then sret tt else disconnect_client
   else sret tt)%mgr.

(** [heartbeat_monitor], one round for each reading of the clock. *)
Fixpoint heartbeat_monitor (clock : list Q) : Mgr unit :=
  match clock with
  | [] => sret tt
  | now :: later =>
      (st <- get_state ;;
       if server_running st
       then heartbeat_round now ;;; heartbeat_monitor later
       else sret tt)%mgr
  end.

End Session.

(* ================================================================== *)
(** * An instance of the library for the closed examples

    [json.dumps] for values whose floats are whole numbers below [10^16]
    and whose strings are ASCII; [json.loads] on the one text the examples
    receive; the UTF-8 decoder on well-formed input. The examples build
    payloads of at most 64 bytes, which [build_packet] does not hand to
    [zlib]: its two functions are not modelled and raise. Nor do the
    examples reach the lenient decoder, which keeps the ASCII bytes here,
    or [int] on a [str], which raises here. Outside these domains the
    instance raises where the library returns a value (a float that is not
    whole, a payload given to [zlib]); no example leaves them, and the
    theorems below hold for every instance. *)
(* ================================================================== *)

Definition string_of_Z (z : Z) : string := NilZero.string_of_int (Z.to_int z).

Definition dquote : ascii := ascii_of_nat 34.
Definition backslash : ascii := ascii_of_nat 92.

Definition hex_digit (n : Z) : ascii :=
  nth (Z.to_nat n) (list_ascii_of_string "0123456789abcdef") "0"%char.

(** The escape of one character, as [json.dumps] with [ensure_ascii]
    writes it; [None] out of ASCII. *)
Definition json_escape_char (c : ascii) : option string :=
  let n := Z.of_nat (nat_of_ascii c) in
  let esc (r : string) := Some (String backslash r) in
  if n =? 34 then esc (String dquote EmptyString)
  else if n =? 92 then esc (String backslash EmptyString)
  else if n =? 10 then esc "n"%string
  else if n =? 13 then esc "r"%string
  else if n =? 9 then esc "t"%string
  else if n =? 8 then esc "b"%string
  else if n =? 12 then esc "f"%string
  else if (32 <=? n) && (n <=? 126) then Some (String c EmptyString)
  else if n <? 128 then
    esc (String "u" (String "0" (String "0"
           (String (hex_digit (n / 16)) (String (hex_digit (n mod 16)) EmptyString)))))
  else None.

Fixpoint json_escape (s : string) : exc string :=
  match s with
  | EmptyString => Ret EmptyString
  | String c r =>
      match json_escape_char c, json_escape r with
      | Some a, Ret b => Ret (a ++ b)%string
      | None, _ => Raise ValueError
      | _, Raise e => Raise e
      end
  end.

Definition json_quote (s : string) : exc string :=
  match json_escape s with
  | Ret e => Ret (String dquote e ++ String dquote EmptyString)%string
  | Raise e => Raise e
  end.

Fixpoint join_with (sep : string) (l : list string) : string :=
  match l with
  | [] => EmptyString
  | [x] => x
  | x :: r => (x ++ sep ++ join_with sep r)%string
  end.

Fixpoint ref_json_dumps (v : pyval) : exc string :=
  match v with
  | PNone => Ret "null"%string
  | PBool b => Ret (if b then "true" else "false")%string
  | PInt z => Ret (string_of_Z z)
  | PFloat q =>
      if (Qden q =? 1)%positive && (Z.abs (Qnum q) <? 10 ^ 16)
      then Ret (string_of_Z (Qnum q) ++ ".0")%string
      else Raise ValueError
  | PStr s => json_quote s
  | PList l =>
      match
        (fix items (l : list pyval) : exc (list string) :=
           match l with
           | [] => Ret []
           | x :: r =>
               match ref_json_dumps x, items r with
               | Ret a, Ret b => Ret (a :: b)
               | Raise e, _ => Raise e
               | _, Raise e => Raise e
               end
           end) l
      with
      | Ret parts => Ret ("[" ++ join_with ", " parts ++ "]")%string
      | Raise e => Raise e
      end
  | PDict d =>
      match
        (fix items (d : list (string * pyval)) : exc (list string) :=
           match d with
           | [] => Ret []
           | (k, x) :: r =>
               match json_quote k, ref_json_dumps x, items r with
               | Ret q, Ret a, Ret b => Ret ((q ++ ": " ++ a)%string :: b)
               | Raise e, _, _ => Raise e
               | _, Raise e, _ => Raise e
               | _, _, Raise e => Raise e
               end
           end) d
      with
      | Ret parts => Ret ("{" ++ join_with ", " parts ++ "}")%string
      | Raise e => Raise e
      end
  end.


(** Well-formed UTF-8: the shortest form only, no surrogates, at most
    U+10FFFF. *)
Fixpoint utf8_valid (b : bytes) : bool :=
  let cont (x : byte) := (0x80 <=? byte_to_Z x) && (byte_to_Z x <=? 0xBF) in
  let between (lo hi : Z) (x : byte) := (lo <=? byte_to_Z x) && (byte_to_Z x <=? hi) in
  match b with
  | [] => true
  | x :: r =>
      if byte_to_Z x <? 0x80 then utf8_valid r
      else
        match r with
        | [] => false
        | c1 :: r1 =>
            if between 0xC2 0xDF x then cont c1 && utf8_valid r1
            else
              match r1 with
              | [] => false
              | c2 :: r2 =>
                  if between 0xE0 0xEF x then
                    (if byte_to_Z x =? 0xE0 then between 0xA0 0xBF c1
                     else if byte_to_Z x =? 0xED then between 0x80 0x9F c1
                     else cont c1)
                    && cont c2 && utf8_valid r2
                  else
                    match r2 with
                    | [] => false
                    | c3 :: r3 =>
                        between 0xF0 0xF4 x
                        && (if byte_to_Z x =? 0xF0 then between 0x90 0xBF c1
                            else if byte_to_Z x =? 0xF4 then between 0x80 0x8F c1
                            else cont c1)
                        && cont c2 && cont c3 && utf8_valid r3
                    end
              end
        end
  end.

Definition ref_utf8_decode (b : bytes) : exc string :=
  if utf8_valid b then Ret (string_of_list_byte b) else Raise UnicodeDecodeError.

(** The reply of a device named Pixel to the handshake, and its text. *)
Definition pixel_reply : pyval :=
  PDict [ ("type", PStr "handshake_response"); ("device_name", PStr "Pixel") ]%string.

Definition text_of (v : pyval) : string :=
  match ref_json_dumps v with
  | Ret t => t
  | Raise _ => EmptyString
  end.

Definition ref_json_loads (text : string) : exc pyval :=
  if String.eqb text (text_of pixel_reply) then Ret pixel_reply
  else Raise JSONDecodeError.

#[export] Instance ref_lib : PyLib := {|
  zlib_compress := fun _ => Raise ZlibError;
  zlib_decompress := fun _ => Raise ZlibError;
  json_dumps := ref_json_dumps;
  json_loads := ref_json_loads;
  utf8_decode := ref_utf8_decode;
  utf8_decode_ignore := fun b => string_of_list_byte (filter (fun x => byte_to_Z x <? 0x80) b);
  int_of_str := fun _ => Raise ValueError
|}.

(* ================================================================== *)
(** * Notions used in the statements *)
(* ================================================================== *)

(** The frame that [build_packet] and [create_batch_packet] assemble from
    a type byte and the payload bytes that go on the wire. *)
Definition frame_body (type_byte : Z) (wire_payload : bytes) : bytes :=
  le_bytes 2 HEADER_MAGIC ++ le_bytes 1 type_byte ++ wire_payload.

Definition frame_of (type_byte : Z) (wire_payload : bytes) : bytes :=
  frame_body type_byte wire_payload
  ++ le_bytes 2 (calculate_checksum (frame_body type_byte wire_payload)).

Definition next_sequence (self : ProtocolHandler) : ProtocolHandler :=
  set_packet_sequence ((packet_sequence self + 1) mod 65536) self.

(** The records [parse_packet] builds: every key of the kind is present. *)
Definition mouse_move_record (seq x y timestamp : Z) : pyval :=
  PDict [ ("type", PStr "mouse_move"); ("sequence", PInt seq); ("x", PInt x);
          ("y", PInt y); ("timestamp", PInt timestamp) ]%string.

Definition heartbeat_record (seq timestamp : Z) : pyval :=
  PDict [ ("type", PStr "heartbeat"); ("sequence", PInt seq);
          ("timestamp", PInt timestamp) ]%string.

Definition full_record (v : pyval) : Prop :=
  (exists seq x y timestamp, v = mouse_move_record seq x y timestamp)
  \/ (exists seq timestamp, v = heartbeat_record seq timestamp).

(** The payload of a mouse movement frame as the comment in
    [create_mouse_movement_packet] and the decoder have it:
    [SEQ:2][X:4][Y:4][TIMESTAMP:8]. *)
Definition mouse_move_payload (seq x y timestamp : Z) : bytes :=
  le_bytes 2 seq ++ le_bytes 4 x ++ le_bytes 4 y ++ le_bytes 8 timestamp.

(** The events of the examples. *)
Definition mouse_move_event (x y timestamp : Z) : dict :=
  [ ("type", PStr "mouse_move"); ("x", PInt x); ("y", PInt y);
    ("timestamp", PInt timestamp) ]%string.

Definition heartbeat_event (timestamp : Z) : dict :=
  [ ("type", PStr "heartbeat"); ("timestamp", PInt timestamp) ]%string.






(** The sessions alive along a trace: the session of a socket starts when
    its receive thread is started, the last step of a handshake that
    succeeded, and ends when the socket is closed. *)
Definition session_step (e : effect) (alive : list sock) : list sock :=
  match e with
  | ThreadStart s => s :: alive
  | SockClose s => filter (fun x => negb (Nat.eqb x s)) alive
  | _ => alive
  end.

Fixpoint alive_history (tr : list effect) (alive : list sock) : list (list sock) :=
  match tr with
  | [] => [alive]
  | e :: r => alive :: alive_history r (session_step e alive)
  end.

(** At every point of the trace at most one session is alive. *)
Definition exclusive (tr : list effect) : Prop :=
  Forall (fun alive => (length alive <= 1)%nat) (alive_history tr []).

(** An effect that neither starts nor ends a session. *)
Definition quiet (e : effect) : bool :=
  match e with
  | ThreadStart _ | SockClose _ => false
  | _ => true
  end.

(** The state after more effects. *)
Definition add_trace (pre : list effect) (st : ConnectionManager) : ConnectionManager :=
  {| client_socket := client_socket st;
     client_address := client_address st;
     device_name := device_name st;
     connected := connected st;
     server_running := server_running st;
     lock_held := lock_held st;
     closed := closed st;
     trace := trace st ++ pre |}.

(** The state that [disconnect_client] leaves. *)
Definition disconnected (st : ConnectionManager) : ConnectionManager :=
  {| client_socket := None;
     client_address := None;
     device_name := PStr "";
     connected := false;
     server_running := server_running st;
     lock_held := lock_held st;
     closed := match client_socket st with
               | Some s => s :: closed st
               | None => closed st
               end;
     trace := trace st
              ++ match client_socket st with
                 | Some s => [SockClose s]
                 | None => []
                 end
              ++ (if py_truthy (device_name st)
                  then [EmitLog (LogDisconnected (device_name st));
                        EmitStatusChanged false ""]
                  else []) |}.

(** The state with the session of [s] installed. *)
Definition installed (s : sock) (a : addr) (name : pyval) (st : ConnectionManager)
  : ConnectionManager :=
  {| client_socket := Some s;
     client_address := Some a;
     device_name := name;
     connected := true;
     server_running := server_running st;
     lock_held := lock_held st;
     closed := closed st;
     trace := trace st |}.

(** The message of [heartbeat_monitor]; [now] is the value of
    [time.time()], in seconds. *)
Definition heartbeat_message (now : Q) : pyval :=
  PDict [ ("type", PStr "heartbeat"); ("timestamp", PFloat now) ]%string.

Section CodecNotions.
Context {lib : PyLib}.




(** [frame] is the batch frame of the events [evs]: type [0xFE], and a
    payload of the sequence number, the length of the JSON text and the
    JSON array of the event records. *)
Definition batch_frame_of (evs : list dict) (frame : bytes) : Prop :=
  exists (n : Z) (text : string),
    0 <= n < 65536
    /\ json_dumps (PList (map PDict evs)) = Ret text
    /\ frame = frame_of 0xFE
                 (le_bytes 2 n ++ le_bytes 2 (len (str_encode text))
                  ++ str_encode text).


End CodecNotions.

Section SessionNotions.
Context {lib : PyLib}.
Variable net_recv : sock -> recv_outcome.
Variable str_strip : string -> string.

(** The peer of [s] answers the handshake with a well-formed reply that
    names the device [name]. *)
Definition replies_handshake (s : sock) (name : string) : Prop :=
  exists (raw : bytes) (text : string) (d : dict),
    net_recv s = RecvData raw
    /\ utf8_decode raw = Ret text
    /\ String.eqb (str_strip text) EmptyString = false
    /\ json_loads (str_strip text) = Ret (PDict d)
    /\ dict_get d "type" PNone = PStr "handshake_response"
    /\ dict_get d "device_name" (PStr "Unknown Device") = PStr name.

End SessionNotions.

(** ** The managers, the peers and the network of the closed examples *)

(** [str.strip()] on ASCII text. *)
Definition is_space (c : ascii) : bool :=
  let n := nat_of_ascii c in
  ((9 <=? n) && (n <=? 13) || (28 <=? n) && (n <=? 32))%nat.

Fixpoint lstrip (s : string) : string :=
  match s with
  | EmptyString => EmptyString
  | String c r => if is_space c then lstrip r else s
  end.

Fixpoint rstrip (s : string) : string :=
  match s with
  | EmptyString => EmptyString
  | String c r =>
      match rstrip r with
      | EmptyString => if is_space c then EmptyString else String c EmptyString
      | r' => String c r'
      end
  end.

Definition ref_strip (s : string) : string := rstrip (lstrip s).

(** The attributes after [__init__]. *)
Definition init_manager : ConnectionManager :=
  {| client_socket := None; client_address := None; device_name := PStr "";
     connected := false; server_running := false; lock_held := false;
     closed := []; trace := [] |}.

Definition pixel_address : addr := ("192.168.1.20"%string, 50000).

(** A running manager whose session with socket 1 is connected. *)
Definition connected_manager : ConnectionManager :=
  {| client_socket := Some 1%nat; client_address := Some pixel_address;
     device_name := PStr "Pixel"; connected := true; server_running := true;
     lock_held := false; closed := []; trace := [] |}.

Definition newline : string := String "010" EmptyString.

(** Every peer sends the reply of the device named Pixel; the network
    delivers every write, or none. *)
Definition pixel_net (s : sock) : recv_outcome :=
  RecvData (str_encode (text_of pixel_reply ++ newline)).

Definition net_up (s : sock) : bool := false.
Definition net_down (s : sock) : bool := true.

(* ================================================================== *)
(** * [class ConnectionManager]: the receive thread, discovery, shutdown *)
(* ================================================================== *)

(** The [log_message] signals of the receive thread. *)
Inductive data_log : Type :=
| LogClientStatus (message : pyval)
| LogControlReturned
| LogBinaryData (n : Z)
| LogErrorProcessing
| LogErrorReceivingData.

(** [d[k] = v]: an existing key keeps its place. *)
Fixpoint dict_set (d : dict) (k : string) (v : pyval) : dict :=
  match d with
  | [] => [(k, v)]
  | (k', v') :: r =>
      if String.eqb k' k then (k', v) :: r else (k', v') :: dict_set r k v
  end.

(** [data.startswith(prefix)]. *)
Fixpoint startswith (data prefix : bytes) : bool :=
  match prefix, data with
  | [], _ => true
  | _ :: _, [] => false
  | p :: ps, d :: ds => Byte.eqb d p && startswith ds ps
  end.

Definition DISCOVERY_RESPONSE : bytes := str_encode "WIFIKEY_RESPONSE".

(** The [log_message] signals of the discovery listener. *)
Inductive discovery_log : Type :=
| LogDeviceDiscovered (name : pyval) (ip : string)
| LogDeviceDiscoveredAt (ip : string).

(** What the listener does with one datagram: nothing, or the two signals
    [device_discovered] and [log_message], or an exception, which the
    handler of the loop answers with [break]. *)
Inductive datagram_result : Type :=
| Ignored
| Emitted (device_info : dict) (l : discovery_log)
| ListenerStops (e : exn).

(** The attributes of the manager that belong to the server. *)
Record Server : Type := mkServer {
  manager : ConnectionManager;
  server_socket : option sock;
  discovery_socket : option sock
}.

(** [stop_server] returns with its [log_message] signals, all emitted
    before the effects of the manager, or waits for the lock. *)
Inductive stop_outcome : Type :=
| Stopped (stopping_logged : bool) (sv : Server)
| StopBlocked (sv : Server).

Definition set_server_running (b : bool) : Mgr unit :=
  fun st =>
    Done tt {| client_socket := client_socket st;
               client_address := client_address st;
               device_name := device_name st;
               connected := connected st;
               server_running := b;
               lock_held := lock_held st;
               closed := closed st;
               trace := trace st |}.

(** What [on_input_event] of the main window does. *)
Inductive slot_outcome : Type :=
| SlotDone (h : ProtocolHandler) (st : ConnectionManager)
| SlotRaised (e : exn) (h : ProtocolHandler) (st : ConnectionManager)
| SlotBlocked (h : ProtocolHandler) (st : ConnectionManager).

Section MoreSession.
Context {lib : PyLib}.
Variable net_send_raises : sock -> bool.

(** [process_client_message(data)]: its one effect is at most one
    [log_message] signal. Bytes that are not UTF-8 raise
    [UnicodeDecodeError], which is not a [JSONDecodeError]; a message
    without [get] raises [AttributeError]. *)
Definition process_client_message (data : bytes) : option data_log :=
  match utf8_decode data with
  | Raise _ => Some LogErrorProcessing
  | Ret text =>
      match json_loads text with
      | Raise JSONDecodeError => Some (LogBinaryData (len data))
      | Raise _ => Some LogErrorProcessing
      | Ret (PDict message) =>
          if py_eq_str (dict_get message "type" PNone) "status"
          then Some (LogClientStatus (dict_get message "message" (PStr "")))
          else if py_eq_str (dict_get message "type" PNone) "control_return"
               then Some LogControlReturned
               else None
      | Ret _ => Some LogErrorProcessing
      end
  end.

(** The loop of [handle_client_data(client_socket)]; [schedule] is what
    the successive calls of [recv] do on an open socket, a closed socket
    raises. [None]: the loop is still running when the schedule ends. *)
Fixpoint receive_loop (s : sock) (schedule : list recv_outcome) (logs : list data_log)
  (st : ConnectionManager) : option (list data_log * ConnectionManager) :=
  if negb (server_running st && connected st) then Some (logs, st)
  else
    match schedule with
    | [] => None
    | received :: later =>
        if existsb (Nat.eqb s) (closed st)
        then Some (logs ++ [LogErrorReceivingData], st)
        else
          let st' := add_trace [SockRecv s] st in
          match received with
          | RecvTimeout => receive_loop s later logs st'
          | RecvRaised => Some (logs ++ [LogErrorReceivingData], st')
          | RecvData [] => Some (logs, st')
          | RecvData data =>
              receive_loop s later
                (logs ++ match process_client_message data with
                         | Some l => [l]
                         | None => []
                         end) st'
          end
    end.

(** [handle_client_data(client_socket)]: the loop, then
    [self.disconnect_client()]. *)
Definition handle_client_data (s : sock) (schedule : list recv_outcome)
  (st : ConnectionManager) : option (list data_log * outcome unit) :=
  match receive_loop s schedule [] st with
  | None => None
  | Some (logs, st') => Some (logs, disconnect_client st')
  end.

(** [is_connected()]. *)
Definition is_connected : Mgr bool :=
  with_lock (st <- get_state ;; sret (connected st))%mgr.

(** [on_input_event(event_data)] of the main window, the slot of the
    [input_event] signal. *)
Definition on_input_event (now : Q) (event_data : dict) (h : ProtocolHandler)
  (st : ConnectionManager) : slot_outcome :=
  match is_connected st with
  | Blocked st1 => SlotBlocked h st1
  | Done false st1 => SlotDone h st1
  | Done true st1 =>
      match create_packet now event_data h with
      | (Raise e, h') => SlotRaised e h' st1
      | (Ret packet, h') =>
          match send_packet net_send_raises packet st1 with
          | Done _ st2 => SlotDone h' st2
          | Blocked st2 => SlotBlocked h' st2
          end
      end
  end.

(** The body of the loop of [listen_for_discovery_responses] for one
    datagram [data] from [(ip, port)]. An item assignment on a value that
    is not a [dict] raises [TypeError]: a [list] wants an integer index,
    the others have no item assignment. *)
Definition handle_datagram (server_port : Z) (data : bytes) (ip : string)
  : datagram_result :=
  if startswith data DISCOVERY_RESPONSE then
    match utf8_decode (skipn (length DISCOVERY_RESPONSE) data) with
    | Raise e => ListenerStops e
    | Ret text =>
        match json_loads text with
        | Ret (PDict d) =>
            let device_info := dict_set d "ip" (PStr ip) in
            Emitted device_info
              (LogDeviceDiscovered (dict_get device_info "name" (PStr "Unknown")) ip)
        | Ret _ => ListenerStops TypeError
        | Raise JSONDecodeError =>
            Emitted [ ("name", PStr ("Android Device (" ++ ip ++ ")"));
                      ("ip", PStr ip);
                      ("port", PInt server_port) ]%string
              (LogDeviceDiscoveredAt ip)
        | Raise e => ListenerStops e
        end
    end
  else Ignored.

(** [on_device_discovered(device_info)] of the main window: the two values
    its log line shows, or the key whose lookup raises [KeyError]. *)
Definition on_device_discovered (device_info : dict) : pyval * pyval + string :=
  match dict_lookup device_info "name" with
  | None => inr "name"%string
  | Some name =>
      match dict_lookup device_info "ip" with
      | None => inr "ip"%string
      | Some ip => inl (name, ip)
      end
  end.

(** [cleanup()]. *)
Definition cleanup (sv : Server) : Server :=
  let close (s : option sock) (st : ConnectionManager) : ConnectionManager :=
    match s with
    | Some s =>
        match sock_close s st with
        | Done _ st' => st'
        | Blocked st' => st'
        end
    | None => st
    end in
  {| manager := close (discovery_socket sv) (close (server_socket sv) (manager sv));
     server_socket := None;
     discovery_socket := None |}.

(** [stop_server()]. *)
Definition stop_server (sv : Server) : stop_outcome :=
  match
    with_lock (st <- get_state ;;
               if negb (server_running st) then sret false
               else set_server_running false ;;; sret true)%mgr (manager sv)
  with
  | Blocked st => StopBlocked {| manager := st;
                                 server_socket := server_socket sv;
                                 discovery_socket := discovery_socket sv |}
  | Done false st => Stopped false {| manager := st;
                                      server_socket := server_socket sv;
                                      discovery_socket := discovery_socket sv |}
  | Done true st =>
      match disconnect_client st with
      | Blocked st' => StopBlocked {| manager := st';
                                      server_socket := server_socket sv;
                                      discovery_socket := discovery_socket sv |}
      | Done _ st' =>
          Stopped true (cleanup {| manager := st';
                                   server_socket := server_socket sv;
                                   discovery_socket := discovery_socket sv |})
      end
  end.

End MoreSession.

(* ================================================================== *)
(** * [class InputCapture]: the mouse handlers and the control switch

    The coordinates that [pynput] hands to the handlers are integers; a
    [float] is a double, as everywhere. The keyboard handlers, which
    inspect [pynput] key objects, are not modelled. *)
(* ================================================================== *)

Record InputCapture : Type := mkCapture {
  active : bool;
  screen_width : Z;
  screen_height : Z;
  edge_threshold : Z;
  control_active : bool;
  last_x : Z;
  last_y : Z;
  last_mouse_time : Q;
  mouse_interval : Q
}.

(** The [log_message] signals of the handlers. *)
Inductive capture_log : Type :=
| LogSwitchingAtEdge (edge : string)
| LogSwitchingBack
| LogSwitchingToAndroid
| LogControlReturnedToPc.

(** A signal of the capture object, [input_event] or [log_message]. *)
Inductive capture_signal : Type :=
| InputEvent (event : dict)
| CaptureLog (l : capture_log).

Definition set_control_active (b : bool) (self : InputCapture) : InputCapture :=
  {| active := active self;
     screen_width := screen_width self;
     screen_height := screen_height self;
     edge_threshold := edge_threshold self;
     control_active := b;
     last_x := last_x self;
     last_y := last_y self;
     last_mouse_time := last_mouse_time self;
     mouse_interval := mouse_interval self |}.

Definition set_last_mouse (t : Q) (x y : Z) (self : InputCapture) : InputCapture :=
  {| active := active self;
     screen_width := screen_width self;
     screen_height := screen_height self;
     edge_threshold := edge_threshold self;
     control_active := control_active self;
     last_x := x;
     last_y := y;
     last_mouse_time := t;
     mouse_interval := mouse_interval self |}.

(** [a < b] on floats. *)
Definition float_lt (a b : Q) : bool :=
  (Qnum a * Z.pos (Qden b) <? Qnum b * Z.pos (Qden a)).

(** [check_screen_edge_switch(x, y)]. *)
Definition check_screen_edge_switch (x y : Z) (self : InputCapture) : option string :=
  if x <=? edge_threshold self then Some "left"%string
  else if x >=? screen_width self - edge_threshold self then Some "right"%string
  else if y <=? edge_threshold self then Some "top"%string
  else if y >=? screen_height self - edge_threshold self then Some "bottom"%string
  else None.

Definition control_switch_event (edge : string) (current_time : Q) : dict :=
  [ ("type", PStr "control_switch"); ("edge", PStr edge);
    ("timestamp", PFloat (float_mul current_time 1000)) ]%string.

(** [on_mouse_move(x, y)]; [current_time] is the value of [time.time()]. *)
Definition on_mouse_move (current_time : Q) (x y : Z) (self : InputCapture)
  : list capture_signal * InputCapture :=
  if negb (active self) then ([], self)
  else if float_lt (float_sub current_time (last_mouse_time self)) (mouse_interval self)
  then ([], self)
  else
    let self := set_last_mouse current_time x y self in
    match check_screen_edge_switch x y self, control_active self with
    | Some edge, false =>
        ([CaptureLog (LogSwitchingAtEdge edge);
          InputEvent (control_switch_event edge current_time)],
         set_control_active true self)
    | _, _ =>
        if control_active self then
          ([InputEvent [ ("type", PStr "mouse_move"); ("x", PInt x); ("y", PInt y);
                         ("timestamp", PFloat (float_mul current_time 1000)) ]%string],
           self)
        else ([], self)
    end.

(** [s.replace(old, new)] for a non-empty [old]: the occurrences are
    taken from the left and do not overlap. *)
Fixpoint replace_from (old new : string) (skip : nat) (s : string) : string :=
  match s with
  | EmptyString => EmptyString
  | String c r =>
      match skip with
      | S k => replace_from old new k r
      | O =>
          if String.prefix old s
          then (new ++ replace_from old new (String.length old - 1) r)%string
          else String c (replace_from old new O r)
      end
  end.

Definition str_replace (s old new : string) : string := replace_from old new O s.

(** [on_mouse_click(x, y, button, pressed)]; [button] is [str(button)]. *)
Definition on_mouse_click (now : Q) (x y : Z) (button : string) (pressed : bool)
  (self : InputCapture) : list capture_signal * InputCapture :=
  if negb (active self) || negb (control_active self) then ([], self)
  else
    let button_str := str_replace button "Button." EmptyString in
    ([InputEvent [ ("type", PStr "mouse_click"); ("x", PInt x); ("y", PInt y);
                   ("button", PStr button_str); ("pressed", PBool pressed);
                   ("timestamp", PFloat (float_mul now 1000)) ]%string],
     self).

(** [on_mouse_scroll(x, y, dx, dy)]. *)
Definition on_mouse_scroll (now : Q) (x y dx dy : Z) (self : InputCapture)
  : list capture_signal * InputCapture :=
  if negb (active self) || negb (control_active self) then ([], self)
  else
    ([InputEvent [ ("type", PStr "mouse_scroll"); ("x", PInt x); ("y", PInt y);
                   ("dx", PInt dx); ("dy", PInt dy);
                   ("timestamp", PFloat (float_mul now 1000)) ]%string],
     self).

(** [toggle_control()]. *)
Definition toggle_control (now : Q) (self : InputCapture)
  : list capture_signal * InputCapture :=
  if control_active self then
    ([CaptureLog LogSwitchingBack; InputEvent (control_switch_event "return_to_pc" now)],
     set_control_active false self)
  else
    ([CaptureLog LogSwitchingToAndroid; InputEvent (control_switch_event "hotkey" now)],
     set_control_active true self).

(** [return_control_to_pc()]. *)
Definition return_control_to_pc (now : Q) (self : InputCapture)
  : list capture_signal * InputCapture :=
  if control_active self then
    ([CaptureLog LogControlReturnedToPc;
      InputEvent (control_switch_event "return_to_pc" now)],
     set_control_active false self)
  else ([], self).

(** A call of one of the methods above, with the reading of the clock. *)
Inductive capture_call : Type :=
| MouseMove (now : Q) (x y : Z)
| MouseClick (now : Q) (x y : Z) (button : string) (pressed : bool)
| MouseScroll (now : Q) (x y dx dy : Z)
| ToggleControl (now : Q)
| ReturnControl (now : Q).

Definition capture_step (c : capture_call) (self : InputCapture)
  : list capture_signal * InputCapture :=
  match c with
  | MouseMove now x y => on_mouse_move now x y self
  | MouseClick now x y button pressed => on_mouse_click now x y button pressed self
  | MouseScroll now x y dx dy => on_mouse_scroll now x y dx dy self
  | ToggleControl now => toggle_control now self
  | ReturnControl now => return_control_to_pc now self
  end.

(** The calls in order, on one capture object. *)
Fixpoint capture_run (cs : list capture_call) (self : InputCapture)
  : list capture_signal * InputCapture :=
  match cs with
  | [] => ([], self)
  | c :: later =>
      let '(signals, self') := capture_step c self in
      let '(more, self'') := capture_run later self' in
      (signals ++ more, self'')
  end.

(** The [input_event] signals among the signals. *)
Fixpoint input_events (signals : list capture_signal) : list dict :=
  match signals with
  | [] => []
  | InputEvent e :: r => e :: input_events r
  | CaptureLog _ :: r => input_events r
  end.

(** The control state that a stream of events leaves at the device, from
    the state [on]: a [control_switch] to the device needs the control at
    the PC, one back to the PC and every mouse event need it at the
    device. [None] when an event comes in the wrong state. *)
Fixpoint control_after (on : bool) (events : list dict) : option bool :=
  match events with
  | [] => Some on
  | e :: r =>
      if py_eq_str (dict_get e "type" PNone) "control_switch" then
        if py_eq_str (dict_get e "edge" PNone) "return_to_pc"
        then (if on then control_after false r else None)
        else (if on then None else control_after true r)
      else if on then control_after on r else None
  end.

(** The timestamps of the [mouse_move] events. *)
Fixpoint move_timestamps (events : list dict) : list Q :=
  match events with
  | [] => []
  | e :: r =>
      if py_eq_str (dict_get e "type" PNone) "mouse_move" then
        match dict_get e "timestamp" PNone with
        | PFloat t => t :: move_timestamps r
        | _ => move_timestamps r
        end
      else move_timestamps r
  end.

(** Successive readings never decrease. *)
Fixpoint nondecreasing (ts : list Q) : Prop :=
  match ts with
  | a :: (b :: _) as r => (a <= b)%Q /\ nondecreasing r
  | _ => True
  end.

(** ** Notions for the session *)

(** An effect of a handshake that rejects the candidate [s]: no
    [status_changed] signal, no receive thread, and no socket closed but
    [s]. *)
Definition rejecting (s : sock) (e : effect) : bool :=
  match e with
  | EmitStatusChanged _ _ | ThreadStart _ => false
  | SockClose s' => Nat.eqb s' s
  | _ => true
  end.

Section MoreSessionNotions.
Context {lib : PyLib}.
Variable net_recv : sock -> recv_outcome.
Variable str_strip : string -> string.

(** The value that the peer of an open socket [s] makes [receive_json]
    return. *)
Definition peer_reply (s : sock) : option pyval :=
  match net_recv s with
  | RecvData raw =>
      match utf8_decode raw with
      | Ret text =>
          if String.eqb (str_strip text) EmptyString then None
          else match json_loads (str_strip text) with
               | Ret v => Some v
               | Raise _ => None
               end
      | Raise _ => None
      end
  | _ => None
  end.

End MoreSessionNotions.

(** The readings start at [lo] or above and never decrease. *)
Definition nondecreasing_from (lo : Q) (ts : list Q) : Prop :=
  match ts with
  | [] => True
  | a :: _ => (lo <= a)%Q
  end /\ nondecreasing ts.

Section MoreCodecNotions.
Context {lib : PyLib}.

(** The size of the JSON frame of an event when it is not compressed: five
    bytes of framing, four of sequence number and length, and the text. *)
Definition raw_frame_size (event_data : dict) : Z :=
  match json_dumps (PDict event_data) with
  | Ret text => 9 + len (str_encode text)
  | Raise _ => 0
  end.

End MoreCodecNotions.

(** ** More instances and objects for the closed examples *)

(** A stand-in for [zlib] that shortens a payload ending in zero bytes:
    the length in one byte, then the payload without its trailing zeros.
    It inverts itself on payloads of fewer than 256 bytes. *)
Definition toy_compress (data : bytes) : exc bytes :=
  Ret (byte_of_Z (len data) :: rstrip0 data).

Definition toy_decompress (data : bytes) : exc bytes :=
  match data with
  | [] => Raise ZlibError
  | n :: r => Ret (r ++ repeat x00 (Z.to_nat (byte_to_Z n) - length r))
  end.

Definition toy_lib : PyLib := {|
  zlib_compress := toy_compress;
  zlib_decompress := toy_decompress;
  json_dumps := ref_json_dumps;
  json_loads := ref_json_loads;
  utf8_decode := ref_utf8_decode;
  utf8_decode_ignore := fun b => string_of_list_byte (filter (fun x => byte_to_Z x <? 0x80) b);
  int_of_str := fun _ => Raise ValueError
|}.

(** A running manager without a session. *)
Definition idle_manager : ConnectionManager :=
  {| client_socket := None; client_address := None; device_name := PStr "";
     connected := false; server_running := true; lock_held := false;
     closed := []; trace := [] |}.

(** The instance of the examples with a JSON array among the texts that
    [json.loads] reads. *)
Definition array_lib : PyLib := {|
  zlib_compress := fun _ => Raise ZlibError;
  zlib_decompress := fun _ => Raise ZlibError;
  json_dumps := ref_json_dumps;
  json_loads := fun text =>
    if String.eqb text "[]" then Ret (PList []) else ref_json_loads text;
  utf8_decode := ref_utf8_decode;
  utf8_decode_ignore := fun b => string_of_list_byte (filter (fun x => byte_to_Z x <? 0x80) b);
  int_of_str := fun _ => Raise ValueError
|}.

(** A peer that sends nothing. *)
Definition silent_net (s : sock) : recv_outcome := RecvTimeout.

(** A running server with its two sockets and the session of socket 1. *)
Definition running_server : Server :=
  {| manager := connected_manager;
     server_socket := Some 2%nat;
     discovery_socket := Some 3%nat |}.

(** The capture object after [__init__] on the default screen and
    [start_capture]. *)
Definition started_capture : InputCapture :=
  {| active := true; screen_width := 1920; screen_height := 1080;
     edge_threshold := 10; control_active := false;
     last_x := 0; last_y := 0; last_mouse_time := 0;
     mouse_interval := float_div 1 60 |}.

(* ================================================================== *)
(** * Properties: bytes and bits *)
(* ================================================================== *)

Lemma byte_to_Z_range (b : byte) : 0 <= byte_to_Z b < 256.
Proof. unfold byte_to_Z. pose proof (Byte.to_N_bounded b). lia. Qed.

Lemma byte_of_to_Z (b : byte) : byte_of_Z (byte_to_Z b) = b.
Proof.
  unfold byte_of_Z, byte_to_Z. now rewrite N2Z.id, Byte.of_to_N.
Qed.

Lemma byte_to_of_Z (z : Z) : 0 <= z < 256 -> byte_to_Z (byte_of_Z z) = z.
Proof.
  intros Hz. unfold byte_of_Z, byte_to_Z.
  destruct (Byte.of_N (Z.to_N z)) as [b|] eqn:E.
  - apply Byte.to_of_N in E. rewrite E. lia.
  - apply Byte.of_N_None_iff in E. lia.
Qed.

Lemma byte_to_Z_inj (a b : byte) : byte_to_Z a = byte_to_Z b -> a = b.
Proof.
  intros H. rewrite <- (byte_of_to_Z a), <- (byte_of_to_Z b). now rewrite H.
Qed.

Lemma testbit_above (n x : Z) : 0 <= n -> 0 <= x < 2 ^ n -> Z.testbit x n = false.
Proof.
  intros Hn Hx. apply Z.testbit_false; [assumption|].
  now rewrite Z.div_small.
Qed.

Lemma lxor_range (n a b : Z) :
  0 <= n -> 0 <= a < 2 ^ n -> 0 <= b < 2 ^ n -> 0 <= Z.lxor a b < 2 ^ n.
Proof.
  intros Hn Ha Hb.
  assert (Hnn : 0 <= Z.lxor a b) by (apply Z.lxor_nonneg; lia).
  split; [assumption|].
  destruct (Z.eq_dec a 0) as [->|Ha0]; [now rewrite Z.lxor_0_l|].
  destruct (Z.eq_dec b 0) as [->|Hb0]; [now rewrite Z.lxor_0_r|].
  destruct (Z.eq_dec (Z.lxor a b) 0) as [->|Hx0]; [lia|].
  apply Z.log2_lt_pow2; [lia|].
  pose proof (Z.log2_lxor a b ltac:(lia) ltac:(lia)) as Hl.
  assert (Z.log2 a < n) by (apply Z.log2_lt_pow2; lia).
  assert (Z.log2 b < n) by (apply Z.log2_lt_pow2; lia).
  lia.
Qed.

Lemma lxor_cancel_r (a b m : Z) : Z.lxor a m = Z.lxor b m -> a = b.
Proof.
  intros H. apply (f_equal (fun x => Z.lxor x m)) in H.
  now rewrite !Z.lxor_assoc, !Z.lxor_nilpotent, !Z.lxor_0_r in H.
Qed.

Lemma lxor_cancel_l (a b m : Z) : Z.lxor m a = Z.lxor m b -> a = b.
Proof. rewrite !(Z.lxor_comm m). apply lxor_cancel_r. Qed.

Lemma flip_bit_byte_value (k : nat) (b : byte) :
  (k < 8)%nat ->
  byte_to_Z (flip_bit_byte k b) = Z.lxor (byte_to_Z b) (2 ^ Z.of_nat k).
Proof.
  intros Hk. unfold flip_bit_byte. apply byte_to_of_Z.
  change 256 with (2 ^ 8). apply lxor_range; [lia|apply byte_to_Z_range|].
  split; [apply Z.pow_nonneg; lia|].
  apply Z.pow_lt_mono_r; lia.
Qed.

Lemma flip_bit_byte_neq (k : nat) (b : byte) : (k < 8)%nat -> flip_bit_byte k b <> b.
Proof.
  intros Hk E. apply (f_equal byte_to_Z) in E.
  rewrite flip_bit_byte_value in E by assumption.
  rewrite <- (Z.lxor_0_r (byte_to_Z b)) in E at 2.
  apply lxor_cancel_l in E.
  pose proof (Z.pow_pos_nonneg 2 (Z.of_nat k)). lia.
Qed.

Lemma flip_bit_length (i : nat) (p : bytes) : length (flip_bit i p) = length p.
Proof.
  revert i. induction p as [|b r IH]; intros i; simpl; [reflexivity|].
  destruct (i <? 8)%nat; simpl; [reflexivity|]. now rewrite IH.
Qed.

Lemma flip_bit_app_l (i : nat) (p q : bytes) :
  (i < 8 * length p)%nat -> flip_bit i (p ++ q) = flip_bit i p ++ q.
Proof.
  revert i. induction p as [|b r IH]; intros i Hi; simpl in *; [lia|].
  destruct (Nat.ltb_spec i 8); [reflexivity|].
  simpl. f_equal. apply IH. lia.
Qed.

Lemma flip_bit_app_r (i : nat) (p q : bytes) :
  (8 * length p <= i)%nat -> flip_bit i (p ++ q) = p ++ flip_bit (i - 8 * length p) q.
Proof.
  revert i. induction p as [|b r IH]; intros i Hi; simpl in *.
  - now rewrite Nat.sub_0_r.
  - destruct (Nat.ltb_spec i 8); [lia|].
    f_equal. rewrite IH by lia. do 2 f_equal. lia.
Qed.

Lemma flip_bit_neq (i : nat) (p : bytes) : (i < 8 * length p)%nat -> flip_bit i p <> p.
Proof.
  revert i. induction p as [|b r IH]; intros i Hi; simpl in *; [lia|].
  destruct (Nat.ltb_spec i 8) as [Hlt|Hge]; intros E; injection E.
  - intros Hb. now apply (flip_bit_byte_neq i b Hlt).
  - apply IH. lia.
Qed.

(* ================================================================== *)
(** * Properties: the checksum *)
(* ================================================================== *)

Lemma land_1_odd (x : Z) : (Z.land x 1 =? 0) = negb (Z.odd x).
Proof.
  change 1 with (Z.ones 1) at 1. rewrite Z.land_ones by lia.
  change (2 ^ 1) with 2. rewrite Zmod_odd.
  now destruct (Z.odd x).
Qed.

Lemma crc_shift_alt (x : Z) :
  crc_shift x = Z.lxor (Z.shiftr x 1) (if Z.odd x then 0xA001 else 0).
Proof.
  unfold crc_shift. rewrite land_1_odd.
  destruct (Z.odd x); simpl negb; cbv iota; [reflexivity|].
  now rewrite Z.lxor_0_r.
Qed.

Lemma crc_shift_range (c : Z) : 0 <= c < 65536 -> 0 <= crc_shift c < 65536.
Proof.
  intros Hc. rewrite crc_shift_alt. change 65536 with (2 ^ 16).
  apply lxor_range; [lia| |destruct (Z.odd c); lia].
  rewrite Z.shiftr_div_pow2 by lia. change (2 ^ 1) with 2.
  change (2 ^ 16) with 65536. split.
  - apply Z.div_pos; lia.
  - apply Z.div_lt_upper_bound; lia.
Qed.

Lemma crc_shift_top_bit (c : Z) :
  0 <= c < 65536 -> Z.testbit (crc_shift c) 15 = Z.odd c.
Proof.
  intros Hc. rewrite crc_shift_alt, Z.lxor_spec.
  assert (Hq : Z.testbit (Z.shiftr c 1) 15 = false).
  { apply testbit_above; [lia|].
    rewrite Z.shiftr_div_pow2 by lia. change (2 ^ 1) with 2.
    change (2 ^ 15) with 32768. split.
    - apply Z.div_pos; lia.
    - apply Z.div_lt_upper_bound; lia. }
  rewrite Hq. now destruct (Z.odd c).
Qed.

Lemma crc_shift_inj (a b : Z) :
  0 <= a < 65536 -> 0 <= b < 65536 -> crc_shift a = crc_shift b -> a = b.
Proof.
  intros Ha Hb E.
  assert (Hodd : Z.odd a = Z.odd b).
  { rewrite <- (crc_shift_top_bit a Ha), <- (crc_shift_top_bit b Hb). now rewrite E. }
  rewrite !crc_shift_alt, Hodd in E. apply lxor_cancel_r in E.
  rewrite !Z.shiftr_div_pow2 in E by lia. change (2 ^ 1) with 2 in E.
  rewrite (Z.div_mod a 2), (Z.div_mod b 2) by lia.
  rewrite !Zmod_odd, Hodd, E. reflexivity.
Qed.

Lemma iter_crc_shift_range (k : nat) (c : Z) :
  0 <= c < 65536 -> 0 <= Nat.iter k crc_shift c < 65536.
Proof.
  intros Hc. induction k as [|k IH]; simpl; [assumption|].
  now apply crc_shift_range.
Qed.

Lemma iter_crc_shift_inj (k : nat) (a b : Z) :
  0 <= a < 65536 -> 0 <= b < 65536 ->
  Nat.iter k crc_shift a = Nat.iter k crc_shift b -> a = b.
Proof.
  intros Ha Hb. induction k as [|k IH]; simpl; [trivial|].
  intros E. apply IH. apply crc_shift_inj; try assumption.
  all: now apply iter_crc_shift_range.
Qed.

Lemma lxor_byte_range (c : Z) (b : byte) :
  0 <= c < 65536 -> 0 <= Z.lxor c (byte_to_Z b) < 65536.
Proof.
  intros Hc. change 65536 with (2 ^ 16). apply lxor_range; [lia|assumption|].
  pose proof (byte_to_Z_range b). change (2 ^ 16) with 65536. lia.
Qed.

Lemma crc_byte_range (c : Z) (b : byte) :
  0 <= c < 65536 -> 0 <= crc_byte c b < 65536.
Proof.
  intros Hc. apply iter_crc_shift_range. now apply lxor_byte_range.
Qed.

Lemma crc_from_range (data : bytes) (c : Z) :
  0 <= c < 65536 -> 0 <= crc_from c data < 65536.
Proof.
  revert c. induction data as [|b r IH]; intros c Hc; simpl; [assumption|].
  apply IH. now apply crc_byte_range.
Qed.

Lemma calculate_checksum_range (data : bytes) :
  0 <= calculate_checksum data < 65536.
Proof. apply crc_from_range. lia. Qed.

(** The register after a byte determines the register before it. *)
Lemma crc_byte_inj_state (a b : Z) (x : byte) :
  0 <= a < 65536 -> 0 <= b < 65536 -> crc_byte a x = crc_byte b x -> a = b.
Proof.
  intros Ha Hb E. unfold crc_byte in E.
  apply iter_crc_shift_inj in E; try now apply lxor_byte_range.
  now apply lxor_cancel_r in E.
Qed.

(** From one register, two different bytes lead to different registers. *)
Lemma crc_byte_inj_byte (c : Z) (x y : byte) :
  0 <= c < 65536 -> crc_byte c x = crc_byte c y -> x = y.
Proof.
  intros Hc E. unfold crc_byte in E.
  apply iter_crc_shift_inj in E; try now apply lxor_byte_range.
  apply lxor_cancel_l in E. now apply byte_to_Z_inj.
Qed.

Lemma crc_from_inj_state (data : bytes) (a b : Z) :
  0 <= a < 65536 -> 0 <= b < 65536 -> crc_from a data = crc_from b data -> a = b.
Proof.
  revert a b. induction data as [|x r IH]; intros a b Ha Hb E; simpl in E.
  - assumption.
  - apply IH in E; try now apply crc_byte_range.
    now apply crc_byte_inj_state in E.
Qed.

(** A byte string and the same string with one bit flipped have different
    checksums. *)
Lemma crc_from_flip (data : bytes) (c : Z) (i : nat) :
  0 <= c < 65536 -> (i < 8 * length data)%nat ->
  crc_from c (flip_bit i data) <> crc_from c data.
Proof.
  revert c i. induction data as [|x r IH]; intros c i Hc Hi; simpl in Hi; [lia|].
  simpl. destruct (Nat.ltb_spec i 8) as [Hlt|Hge]; simpl; intros E.
  - apply crc_from_inj_state in E; try now apply crc_byte_range.
    apply crc_byte_inj_byte in E; [|assumption].
    now apply (flip_bit_byte_neq i x Hlt).
  - revert E. apply IH; [now apply crc_byte_range|lia].
Qed.

(** ** The byte-wise loop computes the bit-serial register *)

Lemma crc_shift_lxor (s t : Z) :
  crc_shift (Z.lxor s t) = Z.lxor (crc16_bit s (Z.testbit t 0)) (Z.shiftr t 1).
Proof.
  rewrite crc_shift_alt. unfold crc16_bit.
  rewrite Z.shiftr_lxor, <- !Z.bit0_odd, Z.lxor_spec.
  rewrite !Z.lxor_assoc. f_equal. apply Z.lxor_comm.
Qed.

Lemma iter_crc_shift_serial (k : nat) (s t : Z) :
  Nat.iter k crc_shift (Z.lxor s t)
  = Z.lxor (fold_left crc16_bit
              (map (fun j => Z.testbit t (Z.of_nat j)) (seq 0 k)) s)
           (Z.shiftr t (Z.of_nat k)).
Proof.
  induction k as [|k IH].
  - simpl. now rewrite Z.shiftr_0_r.
  - rewrite seq_S, map_app, fold_left_app. simpl Nat.iter. rewrite IH.
    rewrite crc_shift_lxor. simpl fold_left.
    rewrite Z.shiftr_spec by lia. rewrite Z.add_0_l.
    rewrite Z.shiftr_shiftr by lia. do 2 f_equal. lia.
Qed.

Lemma crc_byte_serial (c : Z) (b : byte) :
  crc_byte c b = fold_left crc16_bit (bits_lsb_first b) c.
Proof.
  unfold crc_byte, bits_lsb_first. rewrite iter_crc_shift_serial.
  rewrite Z.shiftr_div_pow2 by lia.
  rewrite Z.div_small by (pose proof (byte_to_Z_range b); simpl; lia).
  apply Z.lxor_0_r.
Qed.

Lemma crc_from_serial (data : bytes) (c : Z) :
  crc_from c data = fold_left crc16_bit (flat_map bits_lsb_first data) c.
Proof.
  revert c. induction data as [|b r IH]; intros c; [reflexivity|].
  change (crc_from c (b :: r)) with (crc_from (crc_byte c b) r).
  change (flat_map bits_lsb_first (b :: r))
    with (bits_lsb_first b ++ flat_map bits_lsb_first r).
  now rewrite fold_left_app, <- crc_byte_serial, IH.
Qed.

(** [calculate_checksum] is the CRC of the design document. *)
Lemma calculate_checksum_is_crc16 (data : bytes) :
  calculate_checksum data = crc16_spec data.
Proof. apply crc_from_serial. Qed.

(** The check value of CRC-16/MODBUS. *)
Example calculate_checksum_check_value :
  calculate_checksum (list_byte_of_string "123456789") = 0x4B37.
Proof. reflexivity. Qed.

(* ================================================================== *)
(** * Properties: [struct] *)
(* ================================================================== *)

Lemma le_bytes_length (n : nat) (z : Z) : length (le_bytes n z) = n.
Proof. revert z. induction n as [|n IH]; intros z; simpl; [reflexivity|]. now rewrite IH. Qed.

Lemma le_value_le_bytes (n : nat) (z : Z) :
  0 <= z < 256 ^ Z.of_nat n -> le_value (le_bytes n z) = z.
Proof.
  revert z. induction n as [|n IH]; intros z Hz.
  - simpl in *. lia.
  - rewrite Nat2Z.inj_succ, Z.pow_succ_r in Hz by lia.
    cbn [le_bytes le_value]. rewrite byte_to_of_Z by (apply Z.mod_pos_bound; lia).
    rewrite IH.
    + pose proof (Z.div_mod z 256). lia.
    + split; [apply Z.div_pos; lia|apply Z.div_lt_upper_bound; lia].
Qed.

Lemma le_value_inj (a b : bytes) :
  length a = length b -> le_value a = le_value b -> a = b.
Proof.
  revert b. induction a as [|x r IH]; intros [|y s] Hlen E;
    cbn [le_value length] in *; try discriminate; [reflexivity|].
  pose proof (byte_to_Z_range x). pose proof (byte_to_Z_range y).
  assert (byte_to_Z x = byte_to_Z y /\ le_value r = le_value s) as [Hx Hr] by lia.
  f_equal; [now apply byte_to_Z_inj|apply IH; [lia|assumption]].
Qed.

Lemma struct_pack_H (z : Z) :
  0 <= z < 65536 -> struct_pack [fH] [SInt z] = Ret (le_bytes 2 z).
Proof.
  intros Hz. unfold struct_pack, pack_item. cbn [fmt_size].
  change (256 ^ Z.of_nat 2) with 65536.
  destruct (Z.leb_spec 0 z); [|lia]. destruct (Z.ltb_spec z 65536); [|lia].
  cbn [andb]. now rewrite app_nil_r.
Qed.

Lemma struct_unpack_H (t : bytes) :
  length t = 2%nat -> struct_unpack [fH] t = Ret [SInt (le_value t)].
Proof.
  intros Ht. unfold struct_unpack. rewrite Ht. simpl.
  destruct t as [|a [|b [|c r]]]; simpl in Ht; try discriminate. reflexivity.
Qed.

(** ** Slices *)

Lemma last2_app (a t : bytes) : length t = 2%nat -> last2 (a ++ t) = t.
Proof.
  intros Ht. unfold last2. rewrite length_app, Ht.
  replace (length a + 2 - 2)%nat with (length a + 0)%nat by lia.
  now rewrite skipn_app, Nat.add_0_r, skipn_all, Nat.sub_diag.
Qed.

Lemma drop_last2_app (a t : bytes) : length t = 2%nat -> drop_last2 (a ++ t) = a.
Proof.
  intros Ht. unfold drop_last2. rewrite length_app, Ht.
  replace (length a + 2 - 2)%nat with (length a) by lia.
  now rewrite firstn_app, Nat.sub_diag, firstn_all, app_nil_r.
Qed.

Lemma split_last2 (p : bytes) :
  (2 <= length p)%nat -> p = drop_last2 p ++ last2 p /\ length (last2 p) = 2%nat.
Proof.
  intros Hp. unfold drop_last2, last2. split.
  - symmetry. apply firstn_skipn.
  - rewrite length_skipn. lia.
Qed.

(* ================================================================== *)
(** * Properties: frames *)
(* ================================================================== *)

Lemma struct_pack_header (t : Z) :
  struct_pack [fH; fB] [SInt HEADER_MAGIC; SInt t]
  = if (0 <=? t) && (t <? 256) then Ret (le_bytes 2 HEADER_MAGIC ++ le_bytes 1 t)
    else Raise StructError.
Proof.
  unfold struct_pack, pack_item. cbn [fmt_size].
  change (256 ^ Z.of_nat 1) with 256. change (256 ^ Z.of_nat 2) with 65536.
  change ((0 <=? HEADER_MAGIC) && (HEADER_MAGIC <? 65536)) with true. cbv iota.
  destruct ((0 <=? t) && (t <? 256)); [|reflexivity].
  now rewrite app_nil_r.
Qed.

Lemma calculate_and_append_ok (packet : bytes) :
  calculate_and_append packet = Ret (packet ++ le_bytes 2 (calculate_checksum packet)).
Proof.
  unfold calculate_and_append.
  now rewrite struct_pack_H by apply calculate_checksum_range.
Qed.

Lemma frame_of_length (t : Z) (w : bytes) : length (frame_of t w) = (5 + length w)%nat.
Proof.
  unfold frame_of, frame_body. rewrite !length_app, !le_bytes_length. lia.
Qed.

Lemma frame_of_type_byte (t : Z) (w : bytes) :
  0 <= t < 256 -> byte_to_Z (nth 2 (frame_of t w) x00) = t.
Proof.
  intros Ht. unfold frame_of, frame_body. cbn [le_bytes app nth].
  rewrite byte_to_of_Z; rewrite Z.mod_small; lia.
Qed.

Lemma frame_of_payload (t : Z) (w : bytes) :
  skipn 3 (drop_last2 (frame_of t w)) = w.
Proof.
  unfold frame_of. rewrite drop_last2_app by apply le_bytes_length.
  reflexivity.
Qed.

Section CodecFacts.
Context {lib : PyLib}.

(** [build_packet] returns exactly when the type byte fits a byte; it
    then returns the frame of the compression step and advances the
    counter, and otherwise leaves the instance as it was. *)
Lemma build_packet_eq (packet_type : Z) (payload : bytes) (self : ProtocolHandler) :
  build_packet packet_type payload self
  = let '(t, w) := compress_step (compression_enabled self) packet_type payload in
    if (0 <=? t) && (t <? 256) then (Ret (frame_of t w), next_sequence self)
    else (Raise StructError, self).
Proof.
  unfold build_packet.
  destruct (compress_step (compression_enabled self) packet_type payload) as [t w].
  rewrite struct_pack_header.
  destruct ((0 <=? t) && (t <? 256)); [|reflexivity].
  rewrite calculate_and_append_ok. unfold frame_of, frame_body.
  now rewrite <- !app_assoc.
Qed.

Lemma build_packet_inv (packet_type : Z) (payload frame : bytes)
  (self self' : ProtocolHandler) :
  build_packet packet_type payload self = (Ret frame, self') ->
  exists t w,
    compress_step (compression_enabled self) packet_type payload = (t, w)
    /\ 0 <= t < 256 /\ frame = frame_of t w /\ self' = next_sequence self.
Proof.
  rewrite build_packet_eq.
  destruct (compress_step (compression_enabled self) packet_type payload) as [t w].
  destruct (Z.leb_spec 0 t); destruct (Z.ltb_spec t 256); cbn [andb];
    intros E; inversion E; subst.
  exists t, w. repeat split; lia.
Qed.

Lemma create_batch_packet_inv (events : list dict) (frame : bytes)
  (self self' : ProtocolHandler) :
  create_batch_packet events self = (Ret frame, self') ->
  exists payload,
    json_payload (packet_sequence self) (PList (map PDict events)) = Ret payload
    /\ frame = frame_of 0xFE payload /\ self' = next_sequence self.
Proof.
  unfold create_batch_packet.
  destruct (json_payload _ _) as [payload|e]; [|discriminate].
  rewrite struct_pack_header. cbn [Z.leb Z.ltb andb Z.compare Pos.compare Pos.compare_cont].
  rewrite calculate_and_append_ok. intros E. inversion E; subst.
  exists payload. unfold frame_of, frame_body, next_sequence.
  now rewrite <- !app_assoc.
Qed.

(** ** The checksum check *)

Lemma verify_checksum_eq (p : bytes) :
  (2 <= length p)%nat ->
  verify_checksum p = (le_value (last2 p) =? calculate_checksum (drop_last2 p)).
Proof.
  intros Hp. unfold verify_checksum.
  destruct (Nat.ltb_spec (length p) 2); [lia|].
  now rewrite struct_unpack_H by apply (split_last2 p Hp).
Qed.

Lemma verify_checksum_frame (body : bytes) :
  verify_checksum (body ++ le_bytes 2 (calculate_checksum body)) = true.
Proof.
  rewrite verify_checksum_eq by (rewrite length_app, le_bytes_length; lia).
  rewrite last2_app, drop_last2_app by apply le_bytes_length.
  rewrite le_value_le_bytes by apply calculate_checksum_range.
  apply Z.eqb_refl.
Qed.

(** One flipped bit, anywhere in a byte string that passes the check, makes
    the check fail. *)
Lemma verify_checksum_flip (p : bytes) (i : nat) :
  verify_checksum p = true -> (i < 8 * length p)%nat ->
  verify_checksum (flip_bit i p) = false.
Proof.
  intros Hv Hi.
  assert (Hp : (2 <= length p)%nat).
  { unfold verify_checksum in Hv. destruct (Nat.ltb_spec (length p) 2); [discriminate|lia]. }
  rewrite verify_checksum_eq in Hv by assumption. apply Z.eqb_eq in Hv.
  destruct (split_last2 p Hp) as [Hsplit Ht].
  rewrite verify_checksum_eq by (rewrite flip_bit_length; assumption).
  apply Z.eqb_neq.
  set (body := drop_last2 p) in *. set (t := last2 p) in *.
  assert (Hlen : (length p = length body + 2)%nat)
    by (rewrite Hsplit at 1; rewrite length_app; lia).
  rewrite Hsplit.
  destruct (Nat.lt_ge_cases i (8 * length body)) as [Hin|Hout].
  - rewrite flip_bit_app_l by assumption.
    rewrite last2_app, drop_last2_app by assumption.
    rewrite Hv. intros E. symmetry in E. revert E.
    apply crc_from_flip; [lia|assumption].
  - rewrite flip_bit_app_r by assumption.
    rewrite last2_app, drop_last2_app by (rewrite flip_bit_length; assumption).
    rewrite <- Hv. intros E.
    apply le_value_inj in E; [|now rewrite flip_bit_length].
    revert E. apply flip_bit_neq. lia.
Qed.

Lemma parse_packet_unverified (p : bytes) :
  verify_checksum p = false -> parse_packet p = Ret None.
Proof.
  intros Hv. unfold parse_packet, len.
  destruct (Z.ltb_spec (Z.of_nat (length p)) 5); [reflexivity|].
  rewrite struct_unpack_H by (rewrite length_firstn; lia).
  cbn [exc_bind]. rewrite Hv.
  now destruct (negb (le_value (firstn 2 p) =? HEADER_MAGIC)).
Qed.

End CodecFacts.

(* ================================================================== *)
(** * Properties: encoding and decoding *)
(* ================================================================== *)

Section CodecTheorems.
Context {lib : PyLib}.

(** ** [create_packet] takes the JSON path for every event

    The keys of [PACKET_TYPES] are the upper-case packet names, the value
    of ['type'] in an event is a lower-case event name: the lookup returns
    the default, or a code for a name that no branch of the chain tests. *)
Lemma packet_types_lookup (s : string) (c : Z) :
  dict_lookup PACKET_TYPES s = Some c ->
  In s (map fst PACKET_TYPES).
Proof.
  unfold PACKET_TYPES. cbn [dict_lookup map fst].
  repeat match goal with
         | |- context [String.eqb ?k s] =>
             destruct (String.eqb_spec k s) as [<-|_]; [cbn [In]; tauto|]
         end.
  discriminate.
Qed.

Lemma create_packet_is_json (now : Q) (event_data : dict) (self : ProtocolHandler) :
  create_packet now event_data self
  = match py_int (dict_get event_data "timestamp" (PFloat (float_mul now 1000))) with
    | Raise e => (Raise e, self)
    | Ret _ =>
        match const_get PACKET_TYPES (dict_get event_data "type" (PStr "")) 0 with
        | Raise e => (Raise e, self)
        | Ret _ => create_json_packet event_data self
        end
    end.
Proof.
  unfold create_packet.
  destruct (py_int _) as [timestamp|e]; [|reflexivity].
  destruct (dict_get event_data "type" (PStr "")) as [| | | |s| |]; try reflexivity.
  cbn [const_get].
  destruct (dict_lookup PACKET_TYPES s) as [c|] eqn:E; [|reflexivity].
  apply packet_types_lookup in E. cbn [PACKET_TYPES map fst In] in E.
  decompose [or] E; subst; try contradiction; destruct (c =? 0); reflexivity.
Qed.

Lemma compress_step_type (enabled : bool) (t : Z) (payload : bytes) :
  fst (compress_step enabled t payload) = t
  \/ fst (compress_step enabled t payload) = Z.lor t 0x80.
Proof.
  unfold compress_step.
  destruct (enabled && (64 <? len payload)); [|now left].
  destruct (zlib_compress payload) as [c|e]; [|now left].
  destruct (len c <? len payload); [now right|now left].
Qed.

Lemma compress_step_json_type (enabled : bool) (payload : bytes) :
  fst (compress_step enabled 0xFF payload) = 0xFF.
Proof. destruct (compress_step_type enabled 0xFF payload) as [->| ->]; reflexivity. Qed.

(** The frame of a JSON packet carries the type byte [0xFF]. *)
Lemma create_json_packet_eq (event_data : dict) (self : ProtocolHandler) :
  create_json_packet event_data self
  = match json_payload (packet_sequence self) (PDict event_data) with
    | Raise e => (Raise e, self)
    | Ret payload =>
        (Ret (frame_of 0xFF
                (snd (compress_step (compression_enabled self) 0xFF payload))),
         next_sequence self)
    end.
Proof.
  unfold create_json_packet.
  destruct (json_payload _ _) as [payload|e]; [|reflexivity].
  rewrite build_packet_eq.
  pose proof (compress_step_json_type (compression_enabled self) payload) as Ht.
  destruct (compress_step _ _ payload) as [t w]. cbn [fst snd] in *. now subst t.
Qed.

(** ** What [parse_packet] does with a frame *)

Lemma parse_packet_frame_of (t : Z) (w : bytes) :
  0 <= t < 256 ->
  parse_packet (frame_of t w)
  = if Z.land t 0x80 =? 0 then parse_payload (Z.land t 0x7F) w
    else match zlib_decompress w with
         | Ret payload => parse_payload (Z.land t 0x7F) payload
         | Raise _ => Ret None
         end.
Proof.
  intros Ht. unfold parse_packet, len. rewrite frame_of_length.
  destruct (Z.ltb_spec (Z.of_nat (5 + length w)) 5); [lia|].
  change (firstn 2 (frame_of t w)) with (le_bytes 2 HEADER_MAGIC).
  rewrite struct_unpack_H by reflexivity. cbn [exc_bind].
  rewrite le_value_le_bytes by (cbv; split; congruence).
  rewrite Z.eqb_refl. cbn [negb].
  unfold frame_of at 1. rewrite verify_checksum_frame. cbn [negb].
  rewrite frame_of_type_byte, frame_of_payload by assumption.
  now destruct (Z.land t 0x80 =? 0).
Qed.

(** No frame with the type byte [0xFF] decodes: its bit 7 reads as the
    compression flag and the remaining seven bits as the type [0x7F]. *)
Lemma parse_packet_json_frame (w : bytes) :
  parse_packet (frame_of 0xFF w) = Ret None.
Proof.
  rewrite parse_packet_frame_of by lia.
  change (Z.land 0xFF 0x80 =? 0) with false. cbv iota.
  now destruct (zlib_decompress w).
Qed.

End CodecTheorems.

Lemma unpack_int_item (f : fmt) (fs : list fmt) (z : Z) (rest : bytes) :
  match f with fS _ => False | _ => True end ->
  0 <= z < 256 ^ Z.of_nat (fmt_size f) ->
  unpack_items (f :: fs) (le_bytes (fmt_size f) z ++ rest)
  = SInt z :: unpack_items fs rest.
Proof.
  intros Hf Hz. cbn [unpack_items].
  rewrite firstn_app, skipn_app, le_bytes_length, Nat.sub_diag.
  rewrite firstn_all2, skipn_all2 by (rewrite le_bytes_length; lia).
  cbn [firstn skipn app]. rewrite app_nil_r.
  destruct f; try contradiction; cbn [unpack_item];
    now rewrite le_value_le_bytes.
Qed.

Section Decoding.
Context {lib : PyLib}.

Lemma parse_mouse_movement_payload (seq x y timestamp : Z) :
  0 <= seq < 2 ^ 16 -> 0 <= x < 2 ^ 32 -> 0 <= y < 2 ^ 32 ->
  0 <= timestamp < 2 ^ 64 ->
  parse_mouse_movement_packet (mouse_move_payload seq x y timestamp)
  = Ret (mouse_move_record seq x y timestamp).
Proof.
  intros Hs Hx Hy Ht. unfold parse_mouse_movement_packet, struct_unpack, mouse_move_payload.
  rewrite !length_app, !le_bytes_length. cbn [calcsize map fmt_size list_sum Nat.add Nat.eqb].
  cbn [exc_bind].
  rewrite (unpack_int_item fH) by (cbn; trivial; lia).
  rewrite (unpack_int_item fI) by (cbn; trivial; lia).
  rewrite (unpack_int_item fI) by (cbn; trivial; lia).
  rewrite <- (app_nil_r (le_bytes 8 timestamp)).
  rewrite (unpack_int_item fQ) by (cbn; trivial; lia).
  reflexivity.
Qed.

(** Six names cannot take the seven values that the formats of the click,
    keyboard and scroll decoders yield, nor the five of the control switch
    decoder: the four raise on every payload. *)
Lemma parse_mouse_click_raises (payload : bytes) :
  exists e, parse_mouse_click_packet payload = Raise e.
Proof.
  unfold parse_mouse_click_packet, struct_unpack.
  destruct (length payload =? _)%nat; cbn; eauto.
Qed.

Lemma parse_keyboard_raises (payload : bytes) :
  exists e, parse_keyboard_packet payload = Raise e.
Proof.
  unfold parse_keyboard_packet, struct_unpack.
  destruct (length payload =? _)%nat; cbn; eauto.
Qed.

Lemma parse_scroll_raises (payload : bytes) :
  exists e, parse_scroll_packet payload = Raise e.
Proof.
  unfold parse_scroll_packet, struct_unpack.
  destruct (length payload =? _)%nat; cbn; eauto.
Qed.

Lemma parse_control_switch_raises (payload : bytes) :
  exists e, parse_control_switch_packet payload = Raise e.
Proof.
  unfold parse_control_switch_packet, struct_unpack.
  destruct (length payload =? _)%nat; cbn; eauto.
Qed.

Lemma parse_mouse_movement_full (payload : bytes) (v : pyval) :
  parse_mouse_movement_packet payload = Ret v -> full_record v.
Proof.
  unfold parse_mouse_movement_packet, struct_unpack.
  destruct (length payload =? _)%nat; cbn; [|discriminate].
  intros E. inversion E. left. do 4 eexists. reflexivity.
Qed.

Lemma parse_heartbeat_full (payload : bytes) (v : pyval) :
  parse_heartbeat_packet payload = Ret v -> full_record v.
Proof.
  unfold parse_heartbeat_packet, struct_unpack.
  destruct (length payload =? _)%nat; cbn; [|discriminate].
  intros E. inversion E. right. do 2 eexists. reflexivity.
Qed.

(** The dispatch returns, and returns [None] or a full record, for every
    type code of seven bits. *)
Lemma parse_payload_total (t : Z) (payload : bytes) :
  0 <= t < 128 ->
  exists r, parse_payload t payload = Ret r
            /\ (r = None \/ exists v, r = Some v /\ full_record v).
Proof.
  intros Ht. unfold parse_payload.
  destruct (t =? 1).
  { destruct (parse_mouse_movement_packet payload) as [v|e] eqn:E; eauto.
    apply parse_mouse_movement_full in E. eauto 6. }
  destruct (t =? 2).
  { destruct (parse_mouse_click_raises payload) as [e ->]. eauto. }
  destruct (t =? 3).
  { destruct (parse_keyboard_raises payload) as [e ->]. eauto. }
  destruct (t =? 4).
  { destruct (parse_scroll_raises payload) as [e ->]. eauto. }
  destruct (t =? 7).
  { destruct (parse_control_switch_raises payload) as [e ->]. eauto. }
  destruct (t =? 8).
  { destruct (parse_heartbeat_packet payload) as [v|e] eqn:E; eauto.
    apply parse_heartbeat_full in E. eauto 6. }
  destruct (Z.eqb_spec t 255); [lia|]. eauto.
Qed.

(** C10: [parse_packet] returns for every byte string, it never raises, and
    what it returns is [None] or a record with every key of its kind. *)
Theorem parse_packet_total :
  forall packet : bytes,
    exists r, parse_packet packet = Ret r
              /\ (r = None \/ exists v, r = Some v /\ full_record v).
Proof.
  intros packet. unfold parse_packet.
  destruct (Z.ltb_spec (len packet) 5) as [Hshort|Hlong]; [eauto|].
  unfold len in Hlong.
  rewrite struct_unpack_H by (rewrite length_firstn; lia).
  cbn [exc_bind].
  destruct (negb (le_value (firstn 2 packet) =? HEADER_MAGIC)); [eauto|].
  destruct (negb (verify_checksum packet)); [eauto|].
  set (type_byte := byte_to_Z (nth 2 packet x00)).
  assert (Ht : 0 <= Z.land type_byte 0x7F < 128).
  { pose proof (byte_to_Z_range (nth 2 packet x00)).
    change 0x7F with (Z.ones 7). rewrite Z.land_ones by lia.
    apply Z.mod_pos_bound. reflexivity. }
  destruct (negb (Z.land type_byte 0x80 =? 0)).
  - destruct (zlib_decompress _) as [payload|e]; [|eauto].
    now apply parse_payload_total.
  - now apply parse_payload_total.
Qed.

End Decoding.

Section RoundTrip.
Context {lib : PyLib}.

(** A frame of [create_packet] carries the type byte [0xFF] and does not
    decode. *)
Lemma create_packet_json_frame (now : Q) (event_data : dict) (self : ProtocolHandler) :
  match create_packet now event_data self with
  | (Ret frame, _) =>
      byte_to_Z (nth 2 frame x00) = 0xFF /\ parse_packet frame = Ret None
  | (Raise _, _) => True
  end.
Proof.
  rewrite create_packet_is_json.
  destruct (py_int _); [|exact I].
  destruct (const_get _ _ _); [|exact I].
  rewrite create_json_packet_eq.
  destruct (json_payload _ _); [|exact I].
  split; [apply frame_of_type_byte; lia|apply parse_packet_json_frame].
Qed.

(** C1: the round trip fails on the code. Whatever the event, the frame
    that [create_packet] returns carries the type byte [0xFF], and
    [parse_packet] returns [None] on it. *)
Theorem create_packet_frame_never_decodes :
  forall (now : Q) (event_data : dict) (self : ProtocolHandler),
    match create_packet now event_data self with
    | (Ret frame, _) =>
        byte_to_Z (nth 2 frame x00) = 0xFF /\ parse_packet frame = Ret None
    | (Raise _, _) => True
    end.
Proof. exact create_packet_json_frame. Qed.

(** C2: scenario A on the code. The mouse movement encoder raises (its
    format has five items for four values), [create_packet] returns a
    frame of type [0xFF] that does not decode, and the frame of 23 bytes
    that the scenario describes does decode to the record. *)
Theorem scenario_A_on_the_code :
  forall (now : Q) (self : ProtocolHandler),
    let e := mouse_move_event 100 200 1000 in
    create_mouse_movement_packet e 1000 self = (Raise StructError, self)
    /\ match create_packet now e self with
       | (Ret frame, _) =>
           byte_to_Z (nth 2 frame x00) = 0xFF /\ parse_packet frame = Ret None
       | (Raise _, _) => True
       end
    /\ (forall seq, 0 <= seq < 65536 ->
        let frame := frame_of 0x01 (mouse_move_payload seq 100 200 1000) in
        length frame = 23%nat
        /\ parse_packet frame = Ret (Some (mouse_move_record seq 100 200 1000))).
Proof.
  intros now self e. split; [|split].
  - unfold create_mouse_movement_packet, pack_and_build. cbn [e mouse_move_event].
    cbn [get_int dict_get dict_lookup String.eqb Ascii.eqb Bool.eqb py_int exc_bind].
    unfold struct_pack, pack_item. cbn [fmt_size].
    destruct ((0 <=? packet_sequence self) && _); reflexivity.
  - apply create_packet_json_frame.
  - intros seq Hseq frame. split; [reflexivity|].
    unfold frame. rewrite parse_packet_frame_of by lia.
    change (Z.land 1 128 =? 0) with true. cbv iota.
    change (Z.land 1 127) with 1. unfold parse_payload. cbn [Z.eqb Pos.eqb].
    rewrite parse_mouse_movement_payload; [reflexivity|lia..].
Qed.

(** C4: the last two bytes of a frame are the CRC of the design document
    over the bytes before them, and a frame with any one bit flipped is
    rejected. It holds for the frames of [build_packet], which every typed
    and JSON encoder returns, and for those of [create_batch_packet]. *)
Theorem checksum_is_crc16_and_detects_bit_flips :
  forall (self self' : ProtocolHandler) (packet_type : Z) (payload : bytes)
         (events : list dict) (frame : bytes),
    build_packet packet_type payload self = (Ret frame, self')
    \/ create_batch_packet events self = (Ret frame, self') ->
    last2 frame = le_bytes 2 (crc16_spec (drop_last2 frame))
    /\ forall i : nat,
         (i < 8 * length frame)%nat -> parse_packet (flip_bit i frame) = Ret None.
Proof.
  intros self self' packet_type payload events frame H.
  assert (Hf : exists t w, frame = frame_of t w).
  { destruct H as [H|H].
    - apply build_packet_inv in H. destruct H as (t & w & _ & _ & -> & _). eauto.
    - apply create_batch_packet_inv in H. destruct H as (w & _ & -> & _). eauto. }
  destruct Hf as (t & w & ->). split.
  - unfold frame_of.
    rewrite last2_app, drop_last2_app by apply le_bytes_length.
    now rewrite calculate_checksum_is_crc16.
  - intros i Hi. apply parse_packet_unverified.
    apply verify_checksum_flip; [|assumption].
    unfold frame_of. apply verify_checksum_frame.
Qed.

End RoundTrip.

(* ================================================================== *)
(** * Properties: compression gating *)
(* ================================================================== *)

Section Compression.
Context {lib : PyLib}.

(** For a type code whose bit 7 is clear, the flag is set exactly when
    compression is enabled, the payload has more than 64 bytes and the
    compressed form is strictly smaller; otherwise the payload and the type
    code are unchanged. *)
Lemma compress_step_gating (enabled : bool) (t : Z) (payload : bytes) :
  Z.testbit t 7 = false ->
  let '(t', w) := compress_step enabled t payload in
  (Z.testbit t' 7 = true <->
     enabled = true /\ 64 < len payload
     /\ exists c, zlib_compress payload = Ret c /\ len c < len payload /\ w = c)
  /\ (Z.testbit t' 7 = false -> t' = t /\ w = payload).
Proof.
  intros Ht. unfold compress_step.
  assert (Hset : Z.testbit (Z.lor t 0x80) 7 = true)
    by (rewrite Z.lor_spec; apply orb_true_r).
  destruct enabled; cbn [andb].
  2:{ rewrite Ht. split; [split; [discriminate|intros (E & _); discriminate]|auto]. }
  destruct (Z.ltb_spec 64 (len payload)) as [Hlong|Hshort].
  2:{ rewrite Ht. split; [split; [discriminate|intros (_ & E & _); lia]|auto]. }
  destruct (zlib_compress payload) as [c|e].
  2:{ rewrite Ht. split; [split; [discriminate|intros (_ & _ & c & E & _); discriminate]|auto]. }
  destruct (Z.ltb_spec (len c) (len payload)) as [Hsmall|Hbig].
  - rewrite Hset. split; [split; [eauto 8|reflexivity]|discriminate].
  - rewrite Ht. split; [split; [discriminate|]|auto].
    intros (_ & _ & c' & E & Hc' & _). inversion E; subst. lia.
Qed.

Lemma compress_step_small (enabled : bool) (t : Z) (payload : bytes) :
  len payload <= 64 -> compress_step enabled t payload = (t, payload).
Proof.
  intros H. unfold compress_step.
  destruct (Z.ltb_spec 64 (len payload)); [lia|].
  now rewrite andb_false_r.
Qed.

(** C5: the gating fails on the code for the JSON encoder. Its type code
    [0xFF] has bit 7 set before the compression step: a JSON frame carries
    the flag on a raw payload of at most 64 bytes, which was never
    compressed. *)
Theorem json_frame_flag_set_on_raw_payload :
  forall (self : ProtocolHandler) (event_data : dict) (payload : bytes),
    json_payload (packet_sequence self) (PDict event_data) = Ret payload ->
    len payload <= 64 ->
    create_json_packet event_data self
    = (Ret (frame_of 0xFF payload), next_sequence self)
    /\ Z.testbit (byte_to_Z (nth 2 (frame_of 0xFF payload) x00)) 7 = true
    /\ skipn 3 (drop_last2 (frame_of 0xFF payload)) = payload.
Proof.
  intros self event_data payload Hp Hlen.
  rewrite create_json_packet_eq, Hp, compress_step_small by assumption.
  split; [reflexivity|split].
  - now rewrite frame_of_type_byte by lia.
  - apply frame_of_payload.
Qed.

End Compression.

(* ================================================================== *)
(** * Properties: sequence numbers *)
(* ================================================================== *)

Section Sequence.
Context {lib : PyLib}.








End Sequence.

(* ================================================================== *)
(** * Properties: batching *)
(* ================================================================== *)







Section Batching.
Context {lib : PyLib}.

Lemma create_batch_packet_frame (evs : list dict) (frame : bytes)
  (self self' : ProtocolHandler) :
  create_batch_packet evs self = (Ret frame, self') -> batch_frame_of evs frame.
Proof.
  intros H. apply create_batch_packet_inv in H. destruct H as (payload & E & -> & _).
  unfold json_payload in E.
  destruct (json_dumps _) as [text|x] eqn:Ej; [|discriminate].
  cbn [exc_bind] in E.
  destruct (struct_pack _ _) as [hdr|x] eqn:Eh; [|discriminate].
  cbn [exc_bind] in E. injection E as <-.
  cbn [struct_pack pack_item fmt_size] in Eh.
  change (256 ^ Z.of_nat 2) with 65536 in Eh.
  destruct (Z.leb_spec 0 (packet_sequence self));
    destruct (Z.ltb_spec (packet_sequence self) 65536); cbn [andb] in Eh;
    destruct ((0 <=? len (str_encode text)) && (len (str_encode text) <? 65536));
    try discriminate.
  injection Eh as <-. exists (packet_sequence self), text.
  split; [lia|split; [exact Ej|reflexivity]].
Qed.


End Batching.

Section BatchingTheorem.
Context {lib : PyLib}.


End BatchingTheorem.

(* ================================================================== *)
(** * Properties: the session *)
(* ================================================================== *)

Lemma alive_history_quiet (P : list sock -> Prop) (pre r : list effect)
  (alive : list sock) :
  forallb quiet pre = true ->
  Forall P (alive_history r alive) ->
  Forall P (alive_history (pre ++ r) alive).
Proof.
  intros Hq Hr. induction pre as [|e pre IH]; cbn [app]; [assumption|].
  cbn [forallb] in Hq. apply andb_true_iff in Hq. destruct Hq as [He Hq].
  cbn [alive_history]. constructor.
  - destruct r; cbn [alive_history] in Hr; now inversion Hr.
  - destruct e; cbn [quiet] in He; try discriminate; cbn [session_step]; auto.
Qed.

Section SessionTheorems.
Context {lib : PyLib}.
Variable net_send_raises : sock -> bool.
Variable net_recv : sock -> recv_outcome.
Variable str_strip : string -> string.

Lemma not_in_existsb (s : sock) (l : list sock) :
  ~ In s l -> existsb (Nat.eqb s) l = false.
Proof.
  intros H. destruct (existsb (Nat.eqb s) l) eqn:E; [|reflexivity].
  apply existsb_exists in E. destruct E as (x & Hx & Ex).
  apply Nat.eqb_eq in Ex. now subst.
Qed.

(** [send_json] returns, keeps the session and the closed sockets, and its
    effects are quiet. *)
Lemma send_json_quiet (s : sock) (data : pyval) (st : ConnectionManager) :
  exists (b : bool) (pre : list effect),
    forallb quiet pre = true
    /\ send_json net_send_raises (Some s) data st
       = Done b {| client_socket := client_socket st;
                   client_address := client_address st;
                   device_name := device_name st;
                   connected := connected st;
                   server_running := server_running st;
                   lock_held := lock_held st;
                   closed := closed st;
                   trace := trace st ++ pre |}.
Proof.
  unfold send_json. destruct (json_dumps data) as [text|e].
  - unfold sbind, sock_send, get_state. cbn.
    destruct (existsb (Nat.eqb s) (closed st) || net_send_raises s); cbn.
    + exists false, [SockSendRaised s (str_encode (text ++ String "010" EmptyString));
                     EmitLog LogErrorSendingJson].
      split; [reflexivity|]. now rewrite <- app_assoc.
    + exists true, [SockSend s (str_encode (text ++ String "010" EmptyString))].
      split; reflexivity.
  - cbn. exists false, [EmitLog LogErrorSendingJson]. split; reflexivity.
Qed.

Ltac mgr_run :=
  cbv [sbind get_state do_effect sret sock_send sock_close set_session set_lock
       with_lock client_socket client_address device_name connected
       server_running lock_held closed trace].

Lemma receive_json_reply (s : sock) (timeout : Q) (n : string) (st : ConnectionManager) :
  ~ In s (closed st) -> replies_handshake net_recv str_strip s n ->
  exists d,
    dict_get d "type" PNone = PStr "handshake_response"
    /\ dict_get d "device_name" (PStr "Unknown Device") = PStr n
    /\ receive_json net_recv str_strip s timeout st
       = Done (Some (PDict d)) (add_trace [SockSetTimeout s timeout; SockRecv s] st).
Proof.
  intros Hopen (raw & text & d & Hrecv & Hdec & Hne & Hjson & Htype & Hname).
  exists d. split; [assumption|split; [assumption|]].
  unfold receive_json, sbind, get_state.
  rewrite (not_in_existsb _ _ Hopen). cbn [do_effect].
  rewrite Hrecv, Hdec, Hne, Hjson. unfold sret, add_trace. cbn.
  now rewrite <- app_assoc.
Qed.

Lemma disconnect_client_eq (st : ConnectionManager) :
  lock_held st = false -> disconnect_client st = Done tt (disconnected st).
Proof.
  destruct st as [cs ca dn c sr lk cl tr]. cbn [lock_held]. intros ->.
  unfold disconnect_client, disconnected.
  destruct cs as [s|]; destruct (py_truthy dn) eqn:E;
    cbv [with_lock sbind get_state sock_close set_session set_lock do_effect sret
         client_socket client_address device_name connected server_running
         lock_held closed trace];
    rewrite E; cbn [app]; rewrite <- ?app_assoc, ?app_nil_r; reflexivity.
Qed.

Lemma install_eq (s : sock) (a : addr) (name : pyval) (st : ConnectionManager) :
  lock_held st = false ->
  with_lock (set_session (Some s) (Some a) name true) st = Done tt (installed s a name st).
Proof.
  destruct st as [cs ca dn c sr lk cl tr]. cbn [lock_held]. intros ->. reflexivity.
Qed.

Lemma handshake_installs (now : Q) (s : sock) (a : addr) (n : string)
  (st : ConnectionManager) :
  lock_held st = false -> ~ In s (closed st) -> replies_handshake net_recv str_strip s n ->
  exists (st' : ConnectionManager) (pre mid : list effect),
    handle_client_connection net_send_raises net_recv str_strip now s a st
    = Done tt st'
    /\ client_socket st' = Some s /\ client_address st' = Some a
    /\ device_name st' = PStr n /\ connected st' = true
    /\ lock_held st' = false /\ server_running st' = server_running st
    /\ closed st'
       = match client_socket st with Some old => [old] | None => [] end ++ closed st
    /\ forallb quiet pre = true /\ forallb quiet mid = true
    /\ trace st'
       = trace st ++ pre
         ++ match client_socket st with Some old => [SockClose old] | None => [] end
         ++ mid ++ [ThreadStart s].
Proof.
  intros Hlock Hopen Hreply.
  unfold handle_client_connection. cbv zeta. unfold sbind at 1.
  destruct (send_json_quiet s
              (PDict [("type", PStr "handshake"); ("version", PStr "1.0");
                      ("timestamp", PFloat now)]%string) st)
    as (b & pre & Hpre & ->).
  fold (add_trace pre st). unfold sbind at 1.
  destruct (receive_json_reply s 5 n (add_trace pre st) Hopen Hreply)
    as (d & Htype & Hname & ->).
  assert (Hd : py_truthy (PDict d) = true).
  { destruct d; [discriminate Htype|reflexivity]. }
  unfold is_handshake_response. rewrite Hd. cbn [negb].
  rewrite Htype, Hname. cbn [py_eq_str]. rewrite String.eqb_refl.
  set (st1 := add_trace [SockSetTimeout s 5; SockRecv s] (add_trace pre st)).
  assert (Hl1 : lock_held st1 = false) by exact Hlock.
  assert (Hcs : client_socket st1 = client_socket st) by reflexivity.
  assert (Hsr : server_running st1 = server_running st) by reflexivity.
  assert (Hcl : closed st1 = closed st) by reflexivity.
  assert (Hdn : device_name st1 = device_name st) by reflexivity.
  assert (Htr : trace st1 = trace st ++ pre ++ [SockSetTimeout s 5; SockRecv s])
    by (cbn [st1 add_trace trace]; now rewrite <- app_assoc).
  clearbody st1.
  unfold sbind at 1, get_state. unfold sbind at 1.
  destruct (client_socket st1) as [old|] eqn:Hold.
  - rewrite (disconnect_client_eq st1 Hl1). unfold sbind at 1.
    rewrite install_eq by exact Hl1.
    exists (add_trace [ThreadStart s]
              (add_trace [EmitStatusChanged true n]
                 (add_trace [EmitLog (LogConnected (PStr n) a)]
                    (installed s a (PStr n) (disconnected st1))))),
      (pre ++ [SockSetTimeout s 5; SockRecv s]),
      ((if py_truthy (device_name st)
        then [EmitLog (LogDisconnected (device_name st)); EmitStatusChanged false ""]
        else [])
       ++ [EmitLog (LogConnected (PStr n) a); EmitStatusChanged true n]).
    split.
    { reflexivity. }
    cbn [add_trace installed disconnected client_socket client_address device_name
         connected lock_held server_running closed trace].
    rewrite Hold, Hcl, Htr, Hdn, <- Hcs.
    repeat split; try assumption.
    + now rewrite forallb_app, Hpre.
    + rewrite forallb_app. now destruct (py_truthy (device_name st)).
    + rewrite <- !app_assoc. reflexivity.
  - unfold sret at 1. cbv beta iota. unfold sbind at 1.
    rewrite install_eq by exact Hl1.
    exists (add_trace [ThreadStart s]
              (add_trace [EmitStatusChanged true n]
                 (add_trace [EmitLog (LogConnected (PStr n) a)]
                    (installed s a (PStr n) st1)))),
      (pre ++ [SockSetTimeout s 5; SockRecv s]),
      [EmitLog (LogConnected (PStr n) a); EmitStatusChanged true n].
    split.
    { reflexivity. }
    cbn [add_trace installed client_socket client_address device_name
         connected lock_held server_running closed trace].
    rewrite Hcl, Htr, <- Hcs.
    repeat split; try assumption.
    + now rewrite forallb_app, Hpre.
    + rewrite <- !app_assoc. reflexivity.
Qed.

Lemma exclusive_two_sessions (pre1 mid1 pre2 mid2 : list effect) (s1 s2 : sock) :
  forallb quiet pre1 = true -> forallb quiet mid1 = true ->
  forallb quiet pre2 = true -> forallb quiet mid2 = true ->
  exclusive (pre1 ++ mid1 ++ [ThreadStart s1] ++ pre2 ++ [SockClose s1]
             ++ mid2 ++ [ThreadStart s2]).
Proof.
  intros H1 H2 H3 H4. unfold exclusive.
  apply alive_history_quiet; [assumption|].
  apply alive_history_quiet; [assumption|].
  cbn [app alive_history session_step]. constructor; [cbn; lia|].
  apply alive_history_quiet; [assumption|].
  cbn [app alive_history session_step filter]. rewrite Nat.eqb_refl. cbn [negb].
  constructor; [cbn; lia|].
  apply alive_history_quiet; [assumption|].
  cbn [alive_history session_step]. repeat constructor.
Qed.

(** At the instant the second of two successful handshakes returns, the
    socket of the later peer is the one installed and connected, and the
    socket of the earlier peer has been closed; up to that instant at most
    one session is alive at every point. What the receive thread of the
    earlier socket does next is
    [earlier_receive_thread_ends_the_later_session] below. *)
Lemma later_handshake_wins :
  forall (now1 now2 : Q) (s1 s2 : sock) (a1 a2 : addr) (n1 n2 : string)
         (st0 : ConnectionManager),
    client_socket st0 = None -> lock_held st0 = false -> trace st0 = [] ->
    ~ In s1 (closed st0) -> ~ In s2 (closed st0) -> s1 <> s2 ->
    replies_handshake net_recv str_strip s1 n1 ->
    replies_handshake net_recv str_strip s2 n2 ->
    exists st1 st2 : ConnectionManager,
      handle_client_connection net_send_raises net_recv str_strip now1 s1 a1 st0
      = Done tt st1
      /\ handle_client_connection net_send_raises net_recv str_strip now2 s2 a2 st1
         = Done tt st2
      /\ client_socket st1 = Some s1 /\ connected st1 = true
      /\ client_socket st2 = Some s2 /\ connected st2 = true
      /\ client_address st2 = Some a2 /\ device_name st2 = PStr n2
      /\ In s1 (closed st2) /\ ~ In s2 (closed st2)
      /\ exclusive (trace st2).
Proof.
  intros now1 now2 s1 s2 a1 a2 n1 n2 st0 Hidle Hlock Htrace Hs1 Hs2 Hneq Hr1 Hr2.
  destruct (handshake_installs now1 s1 a1 n1 st0 Hlock Hs1 Hr1)
    as (st1 & pre1 & mid1 & E1 & Hc1 & _ & _ & Hconn1 & Hlock1 & _ & Hcl1
        & Hpre1 & Hmid1 & Htr1).
  rewrite Hidle in Hcl1, Htr1. cbn [app] in Hcl1, Htr1.
  assert (Hs2' : ~ In s2 (closed st1)) by now rewrite Hcl1.
  destruct (handshake_installs now2 s2 a2 n2 st1 Hlock1 Hs2' Hr2)
    as (st2 & pre2 & mid2 & E2 & Hc2 & Ha2 & Hn2 & Hconn2 & _ & _ & Hcl2
        & Hpre2 & Hmid2 & Htr2).
  rewrite Hc1 in Hcl2, Htr2.
  exists st1, st2. repeat split; try assumption.
  - rewrite Hcl2. now left.
  - rewrite Hcl2, Hcl1. cbn [app In]. intros [E|E]; [now apply Hneq|now apply Hs2].
  - rewrite Htr2, Htr1, Htrace. cbn [app]. rewrite <- !app_assoc.
    now apply exclusive_two_sessions.
Qed.

(** ** [send_packet] *)

Lemma send_packet_not_connected (packet : bytes) (st : ConnectionManager) :
  lock_held st = false ->
  connected st = false \/ client_socket st = None ->
  send_packet net_send_raises packet st = Done false st.
Proof.
  intros Hlock H. unfold send_packet, with_lock, sbind, get_state. rewrite Hlock.
  cbn [set_lock connected client_socket].
  destruct st as [cs ca dn c sr lk cl tr]. cbn in *. subst lk.
  destruct H as [->| ->]; [reflexivity|now destruct c].
Qed.

Lemma send_packet_written (packet : bytes) (s : sock) (st : ConnectionManager) :
  lock_held st = false -> connected st = true -> client_socket st = Some s ->
  existsb (Nat.eqb s) (closed st) || net_send_raises s = false ->
  send_packet net_send_raises packet st = Done true (add_trace [SockSend s packet] st).
Proof.
  intros Hlock Hc Hs Hok. destruct st as [cs ca dn c sr lk cl tr].
  cbn in Hlock, Hc, Hs, Hok. subst.
  unfold send_packet, with_lock, sbind, get_state, sock_send, set_lock, add_trace.
  cbn. rewrite Hok. reflexivity.
Qed.

(** C9: on a write failure [send_packet] does not return. It calls
    [disconnect_client] while it holds [self.lock], and [disconnect_client]
    waits for that lock: the socket stays open and installed, the session
    stays connected, and no value is returned. *)
Theorem send_packet_blocks_on_write_failure :
  forall (packet : bytes) (s : sock) (st : ConnectionManager),
    lock_held st = false -> connected st = true -> client_socket st = Some s ->
    existsb (Nat.eqb s) (closed st) || net_send_raises s = true ->
    exists st' : ConnectionManager,
      send_packet net_send_raises packet st = Blocked st'
      /\ lock_held st' = true
      /\ connected st' = true /\ client_socket st' = Some s
      /\ closed st' = closed st
      /\ trace st' = trace st ++ [SockSendRaised s packet; EmitLog LogErrorSendingPacket].
Proof.
  intros packet s st Hlock Hc Hs Hfail. destruct st as [cs ca dn c sr lk cl tr].
  cbn in Hlock, Hc, Hs, Hfail. subst.
  unfold send_packet, with_lock, sbind, get_state, sock_send, set_lock.
  cbn. rewrite Hfail. cbn.
  eexists. split; [reflexivity|]. cbn. rewrite <- app_assoc. auto.
Qed.

(** ** The heartbeat *)

(** C8, as the code has it: a round of the heartbeat loop sleeps 5 seconds
    and then, when the session is connected, sends on its socket the
    line of JSON of [heartbeat_message], whose timestamp is the clock in
    seconds; when the send fails the session is disconnected and its
    socket closed. It sends nothing when the session is not connected. *)
Theorem heartbeat_round_sends_json_in_seconds :
  forall (now : Q) (st : ConnectionManager),
    lock_held st = false ->
    (connected st = false ->
     heartbeat_round net_send_raises now st = Done tt (add_trace [Sleep 5] st))
    /\ (forall (s : sock) (text : string),
          connected st = true -> client_socket st = Some s ->
          json_dumps (heartbeat_message now) = Ret text ->
          let line := str_encode (text ++ String "010" EmptyString) in
          (existsb (Nat.eqb s) (closed st) || net_send_raises s = false ->
           heartbeat_round net_send_raises now st
           = Done tt (add_trace [Sleep 5; SockSend s line] st))
          /\ (existsb (Nat.eqb s) (closed st) || net_send_raises s = true ->
              exists st' : ConnectionManager,
                heartbeat_round net_send_raises now st = Done tt st'
                /\ client_socket st' = None /\ connected st' = false
                /\ closed st' = s :: closed st
                /\ firstn (length (trace st) + 4) (trace st')
                   = trace st ++ [Sleep 5; SockSendRaised s line;
                                  EmitLog LogErrorSendingJson; SockClose s])).
Proof.
  intros now st Hlock. destruct st as [cs ca dn c sr lk cl tr].
  cbn in Hlock. subst lk. split.
  - cbn [connected]. intros ->. reflexivity.
  - cbn [connected client_socket closed trace]. intros s text -> -> Hj.
    unfold heartbeat_message in Hj.
    split; intros Hsend.
    + unfold heartbeat_round, send_json. mgr_run. rewrite Hj. mgr_run.
      rewrite Hsend. mgr_run. unfold add_trace. mgr_run.
      now rewrite <- app_assoc.
    + unfold heartbeat_round, send_json. mgr_run. rewrite Hj. mgr_run.
      rewrite Hsend. unfold disconnect_client. mgr_run.
      destruct (py_truthy dn); eexists; (split; [reflexivity|]);
        mgr_run; repeat split;
        rewrite <- !app_assoc; cbn [app];
        rewrite firstn_app, firstn_all2 by lia;
        replace (length tr + 4 - length tr)%nat with 4%nat by lia;
        cbn [firstn]; now rewrite ?app_nil_r.
Qed.

End SessionTheorems.

(* ================================================================== *)
(** * More of the codec *)
(* ================================================================== *)

Lemma struct_pack_arity (fs : list fmt) (vs : list sval) :
  length fs <> length vs -> exists e, struct_pack fs vs = Raise e.
Proof.
  revert vs. induction fs as [|f fs IH]; intros [|v vs] H; cbn [struct_pack length] in *.
  - contradiction.
  - eauto.
  - eauto.
  - destruct (IH vs) as [e ->]; [congruence|].
    destruct (pack_item f v); eauto.
Qed.

Lemma struct_pack_int_first (f : fmt) (fs : list fmt) (z : Z) (vs : list sval)
  (p : bytes) :
  match f with fS _ => False | _ => True end ->
  struct_pack (f :: fs) (SInt z :: vs) = Ret p ->
  0 <= z < 256 ^ Z.of_nat (fmt_size f)
  /\ exists r, struct_pack fs vs = Ret r /\ p = le_bytes (fmt_size f) z ++ r.
Proof.
  intros Hf. cbn [struct_pack].
  assert (E : pack_item f (SInt z)
              = if (0 <=? z) && (z <? 256 ^ Z.of_nat (fmt_size f))
                then Ret (le_bytes (fmt_size f) z) else Raise StructError)
    by (destruct f; try contradiction; reflexivity).
  rewrite E. clear E.
  destruct (Z.leb_spec 0 z); destruct (Z.ltb_spec z (256 ^ Z.of_nat (fmt_size f)));
    cbn [andb]; destruct (struct_pack fs vs) as [r|e]; try discriminate.
  intros H1. injection H1 as <-. split; [lia|eauto].
Qed.

Section MoreCodec.
Context {lib : PyLib}.

Lemma pack_and_build_arity (t : Z) (fs : list fmt) (fields : exc (list sval))
  (n : nat) (self : ProtocolHandler) :
  (forall vs, fields = Ret vs -> length vs = n) ->
  length fs <> S n ->
  exists e, pack_and_build t fs fields self = (Raise e, self).
Proof.
  intros Hn Hlen. unfold pack_and_build. destruct fields as [vs|e]; [|eauto].
  destruct (struct_pack_arity fs (SInt (packet_sequence self) :: vs)) as [e ->]; [|eauto].
  cbn [length]. rewrite (Hn vs eq_refl). exact Hlen.
Qed.

Ltac fields_length :=
  intros vs; unfold exc_bind, get_int;
  repeat match goal with
         | |- context [match ?x with Ret _ => _ | Raise _ => _ end] =>
             destruct x; try discriminate
         | |- context [match ?x with PStr _ => _ | _ => _ end] =>
             destruct x; try discriminate
         end;
  intros E; injection E as <-; reflexivity.

(** X1: the five typed encoders never return a packet. Each hands
    [struct.pack] a number of values that is not the number of fields of
    its format (one too few, or for the control switch one too many), so
    for every event, timestamp and handler the call raises, and the
    sequence counter is left as it was. *)
Theorem typed_encoders_always_raise :
  forall (event_data : dict) (timestamp : Z) (self : ProtocolHandler),
    (exists e, create_mouse_movement_packet event_data timestamp self = (Raise e, self))
    /\ (exists e, create_mouse_click_packet event_data timestamp self = (Raise e, self))
    /\ (exists e, create_keyboard_packet event_data timestamp self = (Raise e, self))
    /\ (exists e, create_scroll_packet event_data timestamp self = (Raise e, self))
    /\ (exists e, create_control_switch_packet event_data timestamp self = (Raise e, self)).
Proof.
  intros event_data timestamp self. repeat split.
  - apply pack_and_build_arity with (n := 3%nat); [fields_length|discriminate].
  - apply pack_and_build_arity with (n := 5%nat); [fields_length|discriminate].
  - apply pack_and_build_arity with (n := 5%nat); [fields_length|discriminate].
  - apply pack_and_build_arity with (n := 5%nat); [fields_length|discriminate].
  - apply pack_and_build_arity with (n := 5%nat); [fields_length|discriminate].
Qed.


(** ** Decoding *)

Lemma parse_payload_rejected_types (t : Z) (payload : bytes) :
  In t [2; 3; 4; 7] -> parse_payload t payload = Ret None.
Proof.
  intros H. unfold parse_payload. cbn [In] in H.
  decompose [or] H; subst; try contradiction; cbn [Z.eqb Pos.eqb].
  - now destruct (parse_mouse_click_raises payload) as [e ->].
  - now destruct (parse_keyboard_raises payload) as [e ->].
  - now destruct (parse_scroll_raises payload) as [e ->].
  - now destruct (parse_control_switch_raises payload) as [e ->].
Qed.

(** The steps of [parse_packet] after its length test. *)
Lemma parse_packet_long (packet : bytes) :
  (5 <= length packet)%nat ->
  parse_packet packet
  = if negb (le_value (firstn 2 packet) =? HEADER_MAGIC) then Ret None
    else if negb (verify_checksum packet) then Ret None
    else
      let type_byte := byte_to_Z (nth 2 packet x00) in
      let payload := skipn 3 (drop_last2 packet) in
      if negb (Z.land type_byte 0x80 =? 0) then
        match zlib_decompress payload with
        | Ret payload => parse_payload (Z.land type_byte 0x7F) payload
        | Raise _ => Ret None
        end
      else parse_payload (Z.land type_byte 0x7F) payload.
Proof.
  intros H. unfold parse_packet, len.
  destruct (Z.ltb_spec (Z.of_nat (length packet)) 5); [lia|].
  rewrite struct_unpack_H by (rewrite length_firstn; lia).
  reflexivity.
Qed.

(** X2: no packet whose type, without the compression flag, is mouse
    click, keyboard, scroll or control switch decodes: whatever its bytes,
    [parse_packet] returns [None]. The decoder of each of these types
    raises on every payload, in [struct.unpack] when the length is not that
    of the format and in the assignment of the values to a different number
    of names when it is, and [parse_packet] answers an exception with
    [None]. *)
Theorem click_keyboard_scroll_switch_packets_never_decode :
  forall packet : bytes,
    In (Z.land (byte_to_Z (nth 2 packet x00)) 0x7F) [2; 3; 4; 7] ->
    parse_packet packet = Ret None.
Proof.
  intros packet H.
  destruct (Nat.lt_ge_cases (length packet) 5) as [Hs|Hl].
  - unfold parse_packet, len. destruct (Z.ltb_spec (Z.of_nat (length packet)) 5); [reflexivity|lia].
  - rewrite parse_packet_long by assumption. cbv zeta.
    destruct (negb (le_value (firstn 2 packet) =? HEADER_MAGIC)); [reflexivity|].
    destruct (negb (verify_checksum packet)); [reflexivity|].
    destruct (negb (Z.land (byte_to_Z (nth 2 packet x00)) 0x80 =? 0)).
    + destruct (zlib_decompress _); [|reflexivity].
      now apply parse_payload_rejected_types.
    + now apply parse_payload_rejected_types.
Qed.

(** X5: what [parse_packet] accepts. A packet that decodes to a record has
    at least five bytes, starts with the magic bytes [BB AA], carries the
    checksum of the bytes before it, has type mouse movement or heartbeat,
    and the record is a complete mouse movement or heartbeat record. *)
Theorem parse_packet_accepts_only_well_formed :
  forall (packet : bytes) (v : pyval),
    parse_packet packet = Ret (Some v) ->
    (5 <= length packet)%nat
    /\ firstn 2 packet = [xbb; xaa]
    /\ verify_checksum packet = true
    /\ (Z.land (byte_to_Z (nth 2 packet x00)) 0x7F = 1
        \/ Z.land (byte_to_Z (nth 2 packet x00)) 0x7F = 8)
    /\ full_record v.
Proof.
  intros packet v H.
  destruct (Nat.lt_ge_cases (length packet) 5) as [Hs|Hl].
  { unfold parse_packet, len in H.
    destruct (Z.ltb_spec (Z.of_nat (length packet)) 5); [discriminate|lia]. }
  rewrite parse_packet_long in H by assumption. cbv zeta in H.
  destruct (Z.eqb_spec (le_value (firstn 2 packet)) HEADER_MAGIC) as [Hm|];
    cbn [negb] in H; [|discriminate].
  destruct (verify_checksum packet) eqn:Hv; cbn [negb] in H; [|discriminate].
  split; [assumption|]. split.
  { apply le_value_inj; [rewrite length_firstn; cbn [length]; lia|exact Hm]. }
  split; [reflexivity|].
  set (t := Z.land (byte_to_Z (nth 2 packet x00)) 0x7F) in *.
  assert (Hp : forall payload, parse_payload t payload = Ret (Some v) ->
                               (t = 1 \/ t = 8) /\ full_record v).
  { intros payload. unfold parse_payload.
    destruct (Z.eqb_spec t 1).
    { destruct (parse_mouse_movement_packet payload) as [r|] eqn:E; [|discriminate].
      intros Hr. injection Hr as <-. apply parse_mouse_movement_full in E. auto. }
    destruct (t =? 2).
    { destruct (parse_mouse_click_raises payload) as [e ->]. discriminate. }
    destruct (t =? 3).
    { destruct (parse_keyboard_raises payload) as [e ->]. discriminate. }
    destruct (t =? 4).
    { destruct (parse_scroll_raises payload) as [e ->]. discriminate. }
    destruct (t =? 7).
    { destruct (parse_control_switch_raises payload) as [e ->]. discriminate. }
    destruct (Z.eqb_spec t 8).
    { destruct (parse_heartbeat_packet payload) as [r|] eqn:E; [|discriminate].
      intros Hr. injection Hr as <-. apply parse_heartbeat_full in E. auto. }
    destruct (Z.eqb_spec t 255).
    { exfalso. subst t. pose proof (byte_to_Z_range (nth 2 packet x00)).
      assert (0 <= Z.land (byte_to_Z (nth 2 packet x00)) 0x7F < 128).
      { change 0x7F with (Z.ones 7). rewrite Z.land_ones by lia.
        apply Z.mod_pos_bound. reflexivity. }
      lia. }
    discriminate. }
  destruct (negb (Z.land (byte_to_Z (nth 2 packet x00)) 0x80 =? 0)).
  - destruct (zlib_decompress _) as [payload|]; [|discriminate]. eapply Hp; eassumption.
  - eapply Hp; eassumption.
Qed.

(** X6: [verify_checksum] accepts exactly the packets that end in the
    little-endian checksum of the bytes before it. *)
Theorem verify_checksum_iff :
  forall packet : bytes,
    verify_checksum packet = true
    <-> exists body, packet = body ++ le_bytes 2 (calculate_checksum body).
Proof.
  intros packet. split.
  - intros Hv.
    assert (Hp : (2 <= length packet)%nat).
    { unfold verify_checksum in Hv.
      destruct (Nat.ltb_spec (length packet) 2); [discriminate|lia]. }
    rewrite verify_checksum_eq in Hv by assumption. apply Z.eqb_eq in Hv.
    destruct (split_last2 packet Hp) as [Hsplit Ht].
    exists (drop_last2 packet). rewrite Hsplit at 1. f_equal.
    apply le_value_inj; [now rewrite le_bytes_length|].
    now rewrite le_value_le_bytes by apply calculate_checksum_range.
  - intros [body ->]. apply verify_checksum_frame.
Qed.

(** X4: a mouse movement frame laid out as the decoder reads it, with
    fields in range, decodes to the record of these fields; a frame of
    that type whose payload has not 18 bytes decodes to [None]. *)
Theorem mouse_movement_frame_decodes :
  (forall seq x y timestamp : Z,
      0 <= seq < 2 ^ 16 -> 0 <= x < 2 ^ 32 -> 0 <= y < 2 ^ 32 ->
      0 <= timestamp < 2 ^ 64 ->
      parse_packet (frame_of 0x01 (mouse_move_payload seq x y timestamp))
      = Ret (Some (mouse_move_record seq x y timestamp)))
  /\ (forall payload : bytes,
        length payload <> 18%nat -> parse_packet (frame_of 0x01 payload) = Ret None).
Proof.
  split.
  - intros seq x y timestamp Hs Hx Hy Ht.
    rewrite parse_packet_frame_of by lia.
    change (Z.land 1 128 =? 0) with true. cbv iota.
    change (Z.land 1 127) with 1. unfold parse_payload. cbn [Z.eqb Pos.eqb].
    now rewrite parse_mouse_movement_payload.
  - intros payload Hlen. rewrite parse_packet_frame_of by lia.
    change (Z.land 1 128 =? 0) with true. cbv iota.
    change (Z.land 1 127) with 1. unfold parse_payload. cbn [Z.eqb Pos.eqb].
    unfold parse_mouse_movement_packet, struct_unpack.
    change (calcsize [fH; fI; fI; fQ]) with 18%nat.
    destruct (Nat.eqb_spec (length payload) 18); [contradiction|reflexivity].
Qed.

(** X3: a heartbeat packet round-trips. The frame that
    [create_heartbeat_packet] returns has 15 bytes, uses up one sequence
    number, and decodes to the heartbeat record with that number and the
    timestamp the code computes, [int(time.time() * 1000)] with the product
    rounded to a double. *)
Theorem heartbeat_packet_decodes :
  forall (now : Q) (self self' : ProtocolHandler) (frame : bytes) (timestamp : Z),
    py_int (PFloat (float_mul now 1000)) = Ret timestamp ->
    create_heartbeat_packet now self = (Ret frame, self') ->
    length frame = 15%nat
    /\ self' = next_sequence self
    /\ parse_packet frame
       = Ret (Some (heartbeat_record (packet_sequence self) timestamp)).
Proof.
  intros now self self' frame timestamp Hts H.
  unfold create_heartbeat_packet, pack_and_build in H. rewrite Hts in H.
  cbn [exc_bind] in H.
  destruct (struct_pack _ _) as [payload|e] eqn:Ep; [|discriminate].
  apply struct_pack_int_first in Ep; [|exact I].
  destruct Ep as (Hseq & r & Er & ->).
  apply struct_pack_int_first in Er; [|exact I].
  destruct Er as (Ht & r' & Er' & ->).
  cbn [struct_pack] in Er'. injection Er' as <-.
  cbn [fmt_size] in H. rewrite app_nil_r in H.
  rewrite build_packet_eq in H.
  assert (Hl : len (le_bytes 2 (packet_sequence self) ++ le_bytes 8 timestamp) <= 64)
    by (unfold len; rewrite length_app, !le_bytes_length; cbn; lia).
  rewrite (compress_step_small _ _ _ Hl) in H.
  remember (le_bytes 2 (packet_sequence self) ++ le_bytes 8 timestamp) as payload
    eqn:Epay.
  cbn [andb Z.leb Z.ltb Z.compare Pos.compare Pos.compare_cont] in H.
  injection H as <- <-. subst payload.
  split; [rewrite frame_of_length, length_app, !le_bytes_length; reflexivity|].
  split; [reflexivity|].
  rewrite parse_packet_frame_of by lia.
  change (Z.land 8 128 =? 0) with true. cbv iota.
  change (Z.land 8 127) with 8. unfold parse_payload. cbn [Z.eqb Pos.eqb].
  unfold parse_heartbeat_packet, struct_unpack.
  rewrite length_app, !le_bytes_length. change (calcsize [fH; fQ]) with 10%nat.
  cbn [length Nat.add Nat.eqb exc_bind].
  rewrite (unpack_int_item fH) by (cbn; trivial; lia).
  rewrite <- (app_nil_r (le_bytes 8 timestamp)).
  rewrite (unpack_int_item fQ) by (cbn; trivial; lia).
  reflexivity.
Qed.


(** ** Compression *)

Lemma land_low7 (t : Z) : 0 <= t < 128 -> Z.land t 0x7F = t.
Proof.
  intros H. change 0x7F with (Z.ones 7). rewrite Z.land_ones by lia.
  apply Z.mod_small. exact H.
Qed.

Lemma land_low7_flagged (t : Z) : 0 <= t < 128 -> Z.land (Z.lor t 0x80) 0x7F = t.
Proof.
  intros H. rewrite Z.land_lor_distr_l, land_low7 by assumption.
  change (Z.land 128 127) with 0. apply Z.lor_0_r.
Qed.

(** X7: for a type below 128, the frame of [build_packet] has the
    compression flag set exactly when compression is enabled, the payload
    has more than 64 bytes and its compressed form is shorter; the frame
    then carries the compressed form, and otherwise the payload itself. In
    both cases the low seven bits of the type byte are the type. *)
Theorem build_packet_sets_flag_iff_compressed :
  forall (t : Z) (payload : bytes) (self self' : ProtocolHandler) (frame : bytes),
    0 <= t < 128 ->
    build_packet t payload self = (Ret frame, self') ->
    let type_byte := byte_to_Z (nth 2 frame x00) in
    let wire := skipn 3 (drop_last2 frame) in
    Z.land type_byte 0x7F = t
    /\ (Z.testbit type_byte 7 = true <->
        compression_enabled self = true /\ 64 < len payload
        /\ exists c, zlib_compress payload = Ret c /\ len c < len payload /\ wire = c)
    /\ (Z.testbit type_byte 7 = false -> wire = payload).
Proof.
  intros t payload self self' frame Ht H type_byte wire.
  apply build_packet_inv in H. destruct H as (t' & w & Hc & Ht' & -> & _).
  subst type_byte wire. rewrite frame_of_type_byte, frame_of_payload by assumption.
  pose proof (compress_step_gating (compression_enabled self) t payload
                (testbit_above 7 t ltac:(lia) Ht)) as G.
  pose proof (compress_step_type (compression_enabled self) t payload) as T.
  rewrite Hc in G, T. cbn [fst] in T. destruct G as [G1 G2].
  split; [|split; [exact G1|apply G2]].
  destruct T as [->| ->]; [now apply land_low7|now apply land_low7_flagged].
Qed.

(** X8: when decompression inverts compression on the payload, the frame
    that [build_packet] makes for a type below 128 decodes as the payload
    itself does, compressed or not. *)
Theorem compressed_frame_decodes_like_raw :
  forall (t : Z) (payload : bytes) (self self' : ProtocolHandler) (frame : bytes),
    0 <= t < 128 ->
    (forall c, zlib_compress payload = Ret c -> zlib_decompress c = Ret payload) ->
    build_packet t payload self = (Ret frame, self') ->
    parse_packet frame = parse_payload t payload.
Proof.
  intros t payload self self' frame Ht Hz H.
  apply build_packet_inv in H. destruct H as (t' & w & Hc & Ht' & -> & _).
  rewrite parse_packet_frame_of by assumption.
  assert (Hclear : Z.land t 0x80 = 0).
  { apply Z.bits_inj'. intros n Hn. rewrite Z.land_spec, Z.bits_0.
    destruct (Z.eq_dec n 7) as [->|Hn7].
    - now rewrite (testbit_above 7 t) by lia.
    - change 0x80 with (2 ^ 7). rewrite Z.pow2_bits_false by congruence.
      apply andb_false_r. }
  unfold compress_step in Hc.
  destruct (compression_enabled self && (64 <? len payload)).
  - destruct (zlib_compress payload) as [c|e] eqn:Ec.
    + destruct (len c <? len payload); injection Hc as <- <-.
      * assert (Hset : (Z.land (Z.lor t 0x80) 0x80 =? 0) = false).
        { rewrite Z.land_lor_distr_l, Hclear. reflexivity. }
        rewrite Hset, (Hz c eq_refl), land_low7_flagged by assumption. reflexivity.
      * now rewrite Hclear, land_low7.
    + injection Hc as <- <-. now rewrite Hclear, land_low7.
  - injection Hc as <- <-. now rewrite Hclear, land_low7.
Qed.

(** ** The JSON payload *)

(** X9: the payload that [json_payload] builds parses back: when the text
    of the object survives the UTF-8 round trip, [parse_json_packet]
    returns what [json.loads] returns on that text. *)
Theorem json_payload_parses_back :
  forall (seq : Z) (obj : pyval) (payload : bytes) (text : string),
    json_dumps obj = Ret text ->
    utf8_decode (str_encode text) = Ret text ->
    json_payload seq obj = Ret payload ->
    parse_json_packet payload = json_loads text.
Proof.
  intros seq obj payload text Hd Hu H.
  unfold json_payload in H. rewrite Hd in H. cbn [exc_bind] in H.
  destruct (struct_pack _ _) as [hdr|e] eqn:Eh; [|discriminate].
  cbn [exc_bind] in H. injection H as <-.
  apply struct_pack_int_first in Eh; [|exact I].
  destruct Eh as (Hseq & r & Er & ->).
  apply struct_pack_int_first in Er; [|exact I].
  destruct Er as (Hlen & r' & Er' & ->).
  cbn [struct_pack] in Er'. injection Er' as <-.
  cbn [fmt_size] in *. rewrite app_nil_r.
  set (a := le_bytes 2 seq). set (b := le_bytes 2 (len (str_encode text))).
  assert (Ha : length a = 2%nat) by apply le_bytes_length.
  assert (Hb : length b = 2%nat) by apply le_bytes_length.
  unfold parse_json_packet.
  assert (Hab : length (a ++ b) = 4%nat) by (rewrite length_app; lia).
  assert (E4 : firstn 4 ((a ++ b) ++ str_encode text) = a ++ b).
  { rewrite <- Hab, firstn_app, Nat.sub_diag, firstn_all, firstn_O. apply app_nil_r. }
  assert (S4 : skipn 4 ((a ++ b) ++ str_encode text) = str_encode text).
  { rewrite <- Hab, skipn_app, Nat.sub_diag, skipn_all. reflexivity. }
  rewrite E4, S4. unfold struct_unpack.
  rewrite length_app, Ha, Hb. change (calcsize [fH; fH]) with 4%nat.
  cbn [Nat.add Nat.eqb exc_bind]. subst a b.
  rewrite (unpack_int_item fH) by (cbn; trivial; lia).
  rewrite <- (app_nil_r (le_bytes 2 (len (str_encode text)))).
  rewrite (unpack_int_item fH) by (cbn; trivial; lia).
  cbn [unpack_items]. unfold len. rewrite Nat2Z.id, firstn_all, Hu. reflexivity.
Qed.

(** ** Batching *)

Lemma create_packet_next (now : Q) (e : dict) (frame : bytes)
  (self self' : ProtocolHandler) :
  create_packet now e self = (Ret frame, self') ->
  self' = next_sequence self /\ 5 <= len frame.
Proof.
  rewrite create_packet_is_json.
  destruct (py_int _); [|discriminate].
  destruct (const_get _ _ _); [|discriminate].
  rewrite create_json_packet_eq.
  destruct (json_payload _ _); [|discriminate].
  intros H. injection H as <- <-. split; [reflexivity|].
  unfold len. rewrite frame_of_length. lia.
Qed.

Lemma next_sequence_value (self : ProtocolHandler) :
  packet_sequence (next_sequence self) = (packet_sequence self + 1) mod 65536.
Proof. reflexivity. Qed.

Lemma batch_loop_counts (now : Q) (max_size : Z) (events : list dict) :
  forall (packets : list bytes) (cur : list dict) (size : Z)
         (self self' : ProtocolHandler) (frames : list bytes),
    0 <= packet_sequence self < 65536 ->
    batch_loop now max_size events packets cur size self = (Ret frames, self') ->
    exists k : nat,
      length frames = (length packets + k)%nat
      /\ packet_sequence self'
         = (packet_sequence self + len events + Z.of_nat k) mod 65536
      /\ (k <= length events + match cur with [] => 0 | _ => 1 end)%nat
      /\ (match cur, events with [], [] => True | _, _ => (1 <= k)%nat end).
Proof.
  assert (Hnext : forall s, 0 <= packet_sequence (next_sequence s) < 65536)
    by (intros s; apply Z.mod_pos_bound; reflexivity).
  induction events as [|event events IH]; intros packets cur size self self' frames Hn H.
  - cbn [batch_loop] in H. destruct cur as [|c cur].
    + injection H as <- <-. exists 0%nat. unfold len. cbn [length Z.of_nat].
      repeat split; try lia. rewrite !Z.add_0_r. symmetry. now apply Z.mod_small.
    + unfold mbind, mret in H.
      destruct (create_batch_packet (c :: cur) self) as [[b|x] self1] eqn:Eb;
        [|discriminate].
      injection H as <- <-. apply create_batch_packet_inv in Eb.
      destruct Eb as (_ & _ & _ & ->).
      exists 1%nat. unfold len. cbn [length Z.of_nat]. rewrite length_app.
      repeat split; try (cbn; lia).
      rewrite next_sequence_value. f_equal. lia.
  - cbn [batch_loop] in H. unfold mbind in H.
    destruct (create_packet now event self) as [[packet|x] self1] eqn:Ep;
      [|discriminate].
    apply create_packet_next in Ep. destruct Ep as [-> _].
    destruct ((max_size <? size + len packet)
              && match cur with [] => false | _ :: _ => true end) eqn:Ec.
    + destruct cur as [|c cur]; [now rewrite andb_false_r in Ec|].
      destruct (create_batch_packet (c :: cur) (next_sequence self))
        as [[b|x] self2] eqn:Eb; [|discriminate].
      apply create_batch_packet_inv in Eb. destruct Eb as (_ & _ & _ & ->).
      apply IH in H; [|apply Hnext]. destruct H as (k & Hlen & Hseq & Hk & _).
      exists (S k). rewrite length_app in Hlen. cbn [length] in Hlen, Hk.
      unfold len in *. cbn [length]. rewrite !Nat2Z.inj_succ.
      repeat split; try lia.
      rewrite Hseq, !next_sequence_value.
      rewrite Z.add_mod_idemp_l by lia.
      rewrite <- Z.add_assoc, Z.add_mod_idemp_l by lia. f_equal. lia.
    + apply IH in H; [|apply Hnext]. destruct H as (k & Hlen & Hseq & Hk & Hpos).
      exists k. unfold len in *. cbn [length]. rewrite Nat2Z.inj_succ.
      repeat split.
      * exact Hlen.
      * rewrite Hseq, next_sequence_value.
        rewrite <- Z.add_assoc, Z.add_mod_idemp_l by lia. f_equal. lia.
      * destruct cur; cbn [app length] in *; [lia|].
        destruct (cur ++ [event]); lia.
      * destruct cur as [|c cur]; cbn [app] in Hpos; [exact Hpos|].
        destruct (cur ++ [event]) eqn:E; [|exact Hpos].
        now destruct cur.
Qed.

(** X10: [batch_events] uses up one sequence number for each event and
    one for each batch frame, wrapping at 65536; it returns at most as many
    frames as there are events, and no frame only when there is no event. *)
Theorem batch_events_consumes_sequence_numbers :
  forall (now : Q) (events : list dict) (max_size : Z)
         (self self' : ProtocolHandler) (frames : list bytes),
    0 <= packet_sequence self < 65536 ->
    batch_events now events max_size self = (Ret frames, self') ->
    packet_sequence self'
    = (packet_sequence self + len events + len frames) mod 65536
    /\ (length frames <= length events)%nat
    /\ (frames = [] <-> events = []).
Proof.
  intros now events max_size self self' frames Hn H.
  unfold batch_events in H.
  apply batch_loop_counts in H; [|assumption].
  destruct H as (k & Hlen & Hseq & Hk & Hpos).
  cbn [length Nat.add] in Hlen, Hk. unfold len. rewrite Hlen.
  split; [|split].
  - exact Hseq.
  - lia.
  - destruct events; cbn [length Nat.add] in Hk, Hpos; split; intros E;
      try discriminate; try reflexivity.
    + apply length_zero_iff_nil. lia.
    + subst frames. cbn [length] in Hlen. lia.
Qed.



Lemma compress_step_shrinks (enabled : bool) (t : Z) (payload : bytes) :
  len (snd (compress_step enabled t payload)) <= len payload.
Proof.
  unfold compress_step. destruct (enabled && (64 <? len payload)); cbn [snd]; [|lia].
  destruct (zlib_compress payload) as [c|e]; cbn [snd]; [|lia].
  destruct (Z.ltb_spec (len c) (len payload)); cbn [snd]; lia.
Qed.

Lemma create_packet_size (now : Q) (e : dict) (frame : bytes)
  (self self' : ProtocolHandler) :
  create_packet now e self = (Ret frame, self') ->
  5 <= len frame <= raw_frame_size e.
Proof.
  rewrite create_packet_is_json.
  destruct (py_int _); [|discriminate].
  destruct (const_get _ _ _); [|discriminate].
  rewrite create_json_packet_eq.
  destruct (json_payload _ _) as [payload|x] eqn:Ep; [|discriminate].
  intros H. injection H as <- _.
  unfold len at 1 2. rewrite frame_of_length.
  pose proof (compress_step_shrinks (compression_enabled self) 255 payload) as Hs.
  unfold json_payload in Ep. unfold raw_frame_size.
  destruct (json_dumps (PDict e)) as [text|x]; [|discriminate].
  cbn [exc_bind] in Ep.
  destruct (struct_pack _ _) as [hdr|x] eqn:Eh; [|discriminate].
  cbn [exc_bind] in Ep. injection Ep as <-.
  apply struct_pack_int_first in Eh; [|exact I].
  destruct Eh as (_ & r & Er & ->).
  apply struct_pack_int_first in Er; [|exact I].
  destruct Er as (_ & r' & Er' & ->).
  cbn [struct_pack] in Er'. injection Er' as <-.
  unfold len in *. rewrite !length_app, !le_bytes_length in Hs.
  cbn [fmt_size length] in Hs |- *. lia.
Qed.

Lemma batch_loop_single (now : Q) (max_size : Z) (events : list dict) :
  forall (packets : list bytes) (cur : list dict) (size : Z)
         (self self' : ProtocolHandler) (frames : list bytes),
    size + fold_right Z.add 0 (map raw_frame_size events) <= max_size ->
    cur ++ events <> [] ->
    batch_loop now max_size events packets cur size self = (Ret frames, self') ->
    exists frame, frames = packets ++ [frame] /\ batch_frame_of (cur ++ events) frame.
Proof.
  induction events as [|event events IH]; intros packets cur size self self' frames Hfit Hne H.
  - cbn [batch_loop] in H. rewrite app_nil_r in *.
    destruct cur as [|c cur]; [contradiction|].
    unfold mbind, mret in H.
    destruct (create_batch_packet (c :: cur) self) as [[b|x] self1] eqn:Eb;
      [|discriminate].
    injection H as <- _. apply create_batch_packet_frame in Eb. eauto.
  - cbn [batch_loop] in H. unfold mbind in H.
    destruct (create_packet now event self) as [[packet|x] self1] eqn:Ep;
      [|discriminate].
    apply create_packet_size in Ep. cbn [map fold_right] in Hfit.
    assert (Hrest : 0 <= fold_right Z.add 0 (map raw_frame_size events)).
    { clear. induction events as [|e es IHe]; cbn [map fold_right]; [lia|].
      assert (0 <= raw_frame_size e); [|lia].
      unfold raw_frame_size, len. destruct (json_dumps _); lia. }
    destruct (Z.ltb_spec max_size (size + len packet)) as [Hbig|Hok]; [lia|].
    cbn [andb] in H. apply IH in H.
    + destruct H as (frame & -> & Hf). exists frame. now rewrite <- app_assoc in Hf.
    + lia.
    + now destruct cur.
Qed.

(** X12: when the uncompressed frames of the events fit in [max_size]
    together, [batch_events] returns the one batch frame of all of them. *)
Theorem batch_events_one_batch_when_all_fit :
  forall (now : Q) (events : list dict) (max_size : Z)
         (self self' : ProtocolHandler) (frames : list bytes),
    events <> [] ->
    fold_right Z.add 0 (map raw_frame_size events) <= max_size ->
    batch_events now events max_size self = (Ret frames, self') ->
    exists frame, frames = [frame] /\ batch_frame_of events frame.
Proof.
  intros now events max_size self self' frames Hne Hfit H.
  unfold batch_events in H. apply batch_loop_single in H; auto.
Qed.

Lemma batch_loop_singletons (now : Q) (max_size : Z) (events : list dict) :
  forall (packets : list bytes) (cur : list dict) (size : Z)
         (self self' : ProtocolHandler) (frames : list bytes),
    max_size < 5 ->
    ((cur = [] /\ 0 <= size) \/ (length cur = 1%nat /\ 5 <= size)) ->
    batch_loop now max_size events packets cur size self = (Ret frames, self') ->
    exists new,
      frames = packets ++ new
      /\ Forall2 (fun e frame => batch_frame_of [e] frame) (cur ++ events) new.
Proof.
  induction events as [|event events IH];
    intros packets cur size self self' frames Hmax Hcur H.
  - cbn [batch_loop] in H. rewrite app_nil_r.
    destruct cur as [|c cur].
    + injection H as <- _. exists []. rewrite app_nil_r. split; [reflexivity|constructor].
    + destruct Hcur as [[Hc _]|[Hc _]]; [discriminate|].
      destruct cur; [|discriminate].
      unfold mbind, mret in H.
      destruct (create_batch_packet [c] self) as [[b|x] self1] eqn:Eb; [|discriminate].
      injection H as <- _. apply create_batch_packet_frame in Eb.
      exists [b]. split; [reflexivity|]. constructor; [assumption|constructor].
  - cbn [batch_loop] in H. unfold mbind in H.
    destruct (create_packet now event self) as [[packet|x] self1] eqn:Ep;
      [|discriminate].
    apply create_packet_size in Ep.
    destruct Hcur as [[-> Hsize]|[Hc Hsize]].
    + rewrite andb_false_r in H. apply IH in H; [|assumption|right; cbn; split; lia].
      exact H.
    + destruct cur as [|c [|c' cur]]; try discriminate.
      destruct (Z.ltb_spec max_size (size + len packet)) as [_|Hok]; [|lia].
      cbn [andb] in H.
      destruct (create_batch_packet [c] self1) as [[b|x] self2] eqn:Eb; [|discriminate].
      apply create_batch_packet_frame in Eb.
      apply IH in H; [|assumption|right; cbn; split; lia].
      destruct H as (new & -> & Hf). exists (b :: new).
      split; [now rewrite <- app_assoc|]. constructor; assumption.
Qed.

(** X11: with a [max_size] that no frame fits in, below five bytes,
    [batch_events] still returns every event: each goes in a batch frame of
    its own, in order. *)
Theorem batch_events_one_batch_per_event_below_frame_size :
  forall (now : Q) (events : list dict) (max_size : Z)
         (self self' : ProtocolHandler) (frames : list bytes),
    max_size < 5 ->
    batch_events now events max_size self = (Ret frames, self') ->
    Forall2 (fun e frame => batch_frame_of [e] frame) events frames.
Proof.
  intros now events max_size self self' frames Hmax H.
  unfold batch_events in H. apply batch_loop_singletons in H; [|assumption|left; split; [reflexivity|lia]].
  destruct H as (new & -> & Hf). exact Hf.
Qed.

End MoreCodec.

(* ================================================================== *)
(** * More of the session, discovery, shutdown and the capture object *)
(* ================================================================== *)


Lemma add_trace_nil (st : ConnectionManager) : add_trace [] st = st.
Proof. destruct st. unfold add_trace. cbn. now rewrite app_nil_r. Qed.

Lemma add_trace_app (a b : list effect) (st : ConnectionManager) :
  add_trace b (add_trace a st) = add_trace (a ++ b) st.
Proof. unfold add_trace. cbn. now rewrite app_assoc. Qed.

Lemma disconnected_twice (st : ConnectionManager) :
  disconnected (disconnected st) = disconnected st.
Proof.
  unfold disconnected. cbn. now rewrite !app_nil_r.
Qed.

Section MoreSessionTheorems.
Context {lib : PyLib}.
Variable net_send_raises : sock -> bool.
Variable net_recv : sock -> recv_outcome.
Variable str_strip : string -> string.

(** X13: [disconnect_client] clears the session and closes the socket
    that was installed, and a second call changes nothing: no effect, no
    signal, the same state. *)
Theorem disconnect_client_idempotent :
  forall st : ConnectionManager,
    lock_held st = false ->
    exists st1 : ConnectionManager,
      disconnect_client st = Done tt st1
      /\ client_socket st1 = None /\ client_address st1 = None
      /\ device_name st1 = PStr "" /\ connected st1 = false
      /\ (forall s, client_socket st = Some s -> In s (closed st1))
      /\ disconnect_client st1 = Done tt st1.
Proof.
  intros st Hlock. exists (disconnected st).
  split; [now apply disconnect_client_eq|].
  repeat split.
  - intros s Hs. cbn. rewrite Hs. now left.
  - rewrite disconnect_client_eq by exact Hlock.
    now rewrite disconnected_twice.
Qed.

Lemma receive_json_result (s : sock) (timeout : Q) (st : ConnectionManager) :
  exists pre : list effect,
    forallb (rejecting s) pre = true
    /\ receive_json net_recv str_strip s timeout st
       = Done (if existsb (Nat.eqb s) (closed st) then None
               else peer_reply net_recv str_strip s)
           (add_trace pre st).
Proof.
  unfold receive_json, peer_reply, sbind, get_state.
  destruct (existsb (Nat.eqb s) (closed st)).
  - exists [EmitLog LogErrorReceivingJson]. split; reflexivity.
  - cbn [do_effect].
    destruct (net_recv s) as [raw| |].
    + destruct (utf8_decode raw) as [text|e].
      * destruct (String.eqb (str_strip text) EmptyString).
        -- exists [SockSetTimeout s timeout; SockRecv s]. split; [reflexivity|].
           unfold sret, add_trace. cbn. now rewrite <- app_assoc.
        -- destruct (json_loads (str_strip text)) as [v|e].
           ++ exists [SockSetTimeout s timeout; SockRecv s]. split; [reflexivity|].
              unfold sret, add_trace. cbn. now rewrite <- app_assoc.
           ++ exists [SockSetTimeout s timeout; SockRecv s; EmitLog LogInvalidJson].
              split; [reflexivity|].
              unfold sret, add_trace. cbn. now rewrite <- !app_assoc.
      * exists [SockSetTimeout s timeout; SockRecv s; EmitLog LogErrorReceivingJson].
        split; [reflexivity|].
        unfold sret, add_trace. cbn. now rewrite <- !app_assoc.
    + exists [SockSetTimeout s timeout; SockRecv s; EmitLog LogTimeout].
      split; [reflexivity|].
      unfold sret, add_trace. cbn. now rewrite <- !app_assoc.
    + exists [SockSetTimeout s timeout; SockRecv s; EmitLog LogErrorReceivingJson].
      split; [reflexivity|].
      unfold sret, add_trace. cbn. now rewrite <- !app_assoc.
Qed.

Lemma send_json_rejecting (s : sock) (data : pyval) (st : ConnectionManager) :
  exists (b : bool) (pre : list effect),
    forallb (rejecting s) pre = true
    /\ send_json net_send_raises (Some s) data st = Done b (add_trace pre st).
Proof.
  unfold send_json. destruct (json_dumps data) as [text|e].
  - unfold sbind, sock_send, get_state. cbn.
    destruct (existsb (Nat.eqb s) (closed st) || net_send_raises s); cbn.
    + exists false, [SockSendRaised s (str_encode (text ++ String "010" EmptyString));
                     EmitLog LogErrorSendingJson].
      split; [reflexivity|]. unfold add_trace. cbn. now rewrite <- app_assoc.
    + exists true, [SockSend s (str_encode (text ++ String "010" EmptyString))].
      split; reflexivity.
  - cbn. exists false, [EmitLog LogErrorSendingJson]. split; reflexivity.
Qed.

(** X14: a handshake that fails leaves the session alone. When the
    candidate socket is closed, or its peer does not answer with a
    handshake response, [handle_client_connection] returns with the session
    attributes and the lock as they were; it closes the candidate socket and
    no other, emits no [status_changed] signal and starts no thread. *)
Theorem failed_handshake_keeps_session :
  forall (now : Q) (s : sock) (a : addr) (st : ConnectionManager),
    In s (closed st)
    \/ is_handshake_response (peer_reply net_recv str_strip s) <> Ret true ->
    exists (st' : ConnectionManager) (pre : list effect),
      handle_client_connection net_send_raises net_recv str_strip now s a st
      = Done tt st'
      /\ client_socket st' = client_socket st
      /\ client_address st' = client_address st
      /\ device_name st' = device_name st
      /\ connected st' = connected st
      /\ lock_held st' = lock_held st
      /\ closed st' = s :: closed st
      /\ trace st' = trace st ++ pre
      /\ forallb (rejecting s) pre = true
      /\ In (SockClose s) pre.
Proof.
  intros now s a st H.
  unfold handle_client_connection. cbv zeta. unfold sbind at 1.
  destruct (send_json_rejecting s
              (PDict [("type", PStr "handshake"); ("version", PStr "1.0");
                      ("timestamp", PFloat now)]%string) st)
    as (b & pre1 & Hpre1 & ->).
  unfold sbind at 1.
  destruct (receive_json_result s 5 (add_trace pre1 st)) as (pre2 & Hpre2 & ->).
  rewrite add_trace_app.
  set (reply := if existsb (Nat.eqb s) (closed (add_trace pre1 st)) then None
                else peer_reply net_recv str_strip s).
  assert (Hr : is_handshake_response reply <> Ret true).
  { subst reply. cbn [add_trace closed].
    destruct (existsb (Nat.eqb s) (closed st)) eqn:E; [discriminate|].
    destruct H as [H|H]; [|exact H].
    exfalso. assert (existsb (Nat.eqb s) (closed st) = true); [|congruence].
    apply existsb_exists. exists s. split; [assumption|apply Nat.eqb_refl]. }
  clearbody reply.
  destruct (is_handshake_response reply) as [[|]|e].
  - now contradiction Hr.
  - eexists. exists
      ((pre1 ++ pre2) ++ [SockClose s; EmitLog (LogInvalidHandshake a)]).
    split; [reflexivity|]. cbn [add_trace client_socket client_address device_name
                                connected lock_held closed trace].
    repeat split.
    + rewrite <- !app_assoc. reflexivity.
    + rewrite !forallb_app, Hpre1, Hpre2. cbn. now rewrite Nat.eqb_refl.
    + apply in_or_app. right. now left.
  - eexists. exists
      ((pre1 ++ pre2) ++ [EmitLog LogErrorHandlingClient; SockClose s]).
    split; [reflexivity|]. cbn [add_trace client_socket client_address device_name
                                connected lock_held closed trace].
    repeat split.
    + rewrite <- !app_assoc. reflexivity.
    + rewrite !forallb_app, Hpre1, Hpre2. cbn. now rewrite Nat.eqb_refl.
    + apply in_or_app. right. right. now left.
Qed.

(** X15: [send_json] returns [True] exactly when the data has a JSON text
    and the write succeeds; its one effect is then the write of that text
    and a newline. When it returns [False] it has logged the error and
    written nothing. It always returns and keeps the session. *)
Theorem send_json_returns_whether_the_line_was_written :
  forall (s : sock) (data : pyval) (st : ConnectionManager),
    exists (sent : bool) (pre : list effect),
      send_json net_send_raises (Some s) data st = Done sent (add_trace pre st)
      /\ (sent = true <->
          exists text : string,
            json_dumps data = Ret text
            /\ existsb (Nat.eqb s) (closed st) || net_send_raises s = false)
      /\ (sent = true ->
          exists text : string,
            json_dumps data = Ret text
            /\ pre = [SockSend s (str_encode (text ++ String "010" EmptyString))])
      /\ (sent = false ->
          In (EmitLog LogErrorSendingJson) pre
          /\ forall payload, ~ In (SockSend s payload) pre).
Proof.
  intros s data st. unfold send_json.
  destruct (json_dumps data) as [text|e].
  - unfold sbind, sock_send, get_state. cbn.
    destruct (existsb (Nat.eqb s) (closed st) || net_send_raises s); cbn.
    + exists false, [SockSendRaised s (str_encode (text ++ String "010" EmptyString));
                     EmitLog LogErrorSendingJson].
      split; [unfold add_trace; cbn; now rewrite <- app_assoc|].
      split; [|split]; try discriminate.
      * split; [discriminate|]. intros (t & _ & E). discriminate E.
      * intros _. split; [right; now left|].
        intros payload [E|[E|[]]]; discriminate E.
    + exists true, [SockSend s (str_encode (text ++ String "010" EmptyString))].
      split; [reflexivity|]. split; [|split]; try discriminate.
      * split; [|reflexivity]. intros _. now exists text.
      * intros _. now exists text.
  - cbn. exists false, [EmitLog LogErrorSendingJson].
    split; [reflexivity|]. split; [|split]; try discriminate.
    + split; [discriminate|]. intros (t & E & _). discriminate E.
    + intros _. split; [now left|]. intros payload [E|[]]. discriminate E.
Qed.

(** X16: [send_packet] returns [False] without any effect when the
    session is not connected or has no socket; when connected, and the
    write succeeds, its one effect is the write of the packet on the
    session socket and it returns [True]. *)
Theorem send_packet_writes_only_to_the_connected_socket :
  forall (packet : bytes) (st : ConnectionManager),
    lock_held st = false ->
    (connected st = false \/ client_socket st = None ->
     send_packet net_send_raises packet st = Done false st)
    /\ (forall s : sock,
          connected st = true -> client_socket st = Some s ->
          existsb (Nat.eqb s) (closed st) || net_send_raises s = false ->
          send_packet net_send_raises packet st
          = Done true (add_trace [SockSend s packet] st)).
Proof.
  intros packet st Hlock. split.
  - now apply send_packet_not_connected.
  - intros s Hc Hs Hok. now apply send_packet_written.
Qed.

Lemma heartbeat_round_idle (now : Q) (st : ConnectionManager) :
  connected st = false ->
  heartbeat_round net_send_raises now st = Done tt (add_trace [Sleep 5] st).
Proof.
  destruct st as [cs ca dn c sr lk cl tr]. cbn [connected]. intros ->. reflexivity.
Qed.

(** X17: while no session is connected, [heartbeat_monitor] only sleeps,
    five seconds a round, and sends nothing; when the server is not running
    it returns at once. *)
Theorem heartbeat_monitor_idle_only_sleeps :
  forall (clock : list Q) (st : ConnectionManager),
    connected st = false ->
    heartbeat_monitor net_send_raises clock st
    = Done tt (if server_running st
               then add_trace (repeat (Sleep 5) (length clock)) st
               else st).
Proof.
  induction clock as [|now later IH]; intros st Hc.
  - cbn. destruct (server_running st); [now rewrite add_trace_nil|reflexivity].
  - cbn [heartbeat_monitor]. unfold sbind at 1, get_state.
    destruct (server_running st) eqn:Hr; [|reflexivity].
    unfold sbind at 1. rewrite (heartbeat_round_idle now st Hc).
    rewrite IH by exact Hc. cbn [add_trace server_running]. rewrite Hr.
    now rewrite add_trace_app.
Qed.

Ltac mgr_steps :=
  cbv [sbind get_state do_effect sret sock_send sock_close set_session set_lock
       with_lock client_socket client_address device_name connected
       server_running lock_held closed trace].

Lemma heartbeat_round_sends (now : Q) (s : sock) (text : string)
  (st : ConnectionManager) :
  connected st = true -> client_socket st = Some s ->
  existsb (Nat.eqb s) (closed st) || net_send_raises s = false ->
  json_dumps (heartbeat_message now) = Ret text ->
  heartbeat_round net_send_raises now st
  = Done tt (add_trace [Sleep 5; SockSend s (str_encode (text ++ String "010" EmptyString))]
               st).
Proof.
  intros Hc Hs Hok Hj. destruct st as [cs ca dn c sr lk cl tr].
  cbn in Hc, Hs, Hok. subst. unfold heartbeat_message in Hj.
  unfold heartbeat_round, send_json. mgr_steps. rewrite Hj. mgr_steps.
  rewrite Hok. mgr_steps. unfold add_trace. mgr_steps.
  now rewrite <- app_assoc.
Qed.

(** X18: while the session stays connected and its writes succeed,
    [heartbeat_monitor] sleeps five seconds and writes one heartbeat line
    each round, and changes nothing else. *)
Theorem heartbeat_monitor_sends_one_line_per_round :
  forall (clock : list Q) (texts : list string) (s : sock) (st : ConnectionManager),
    server_running st = true -> connected st = true -> client_socket st = Some s ->
    existsb (Nat.eqb s) (closed st) || net_send_raises s = false ->
    Forall2 (fun now text => json_dumps (heartbeat_message now) = Ret text)
      clock texts ->
    heartbeat_monitor net_send_raises clock st
    = Done tt
        (add_trace
           (flat_map
              (fun text =>
                 [Sleep 5;
                  SockSend s (str_encode (text ++ String "010" EmptyString))])
              texts)
           st).
Proof.
  intros clock texts s st Hr Hc Hs Hok H. revert st Hr Hc Hs Hok.
  induction H as [|now text clock texts Hj H IH]; intros st Hr Hc Hs Hok.
  - cbn. now rewrite add_trace_nil.
  - cbn [heartbeat_monitor]. unfold sbind at 1, get_state. rewrite Hr.
    unfold sbind at 1. rewrite (heartbeat_round_sends now s text st Hc Hs Hok Hj).
    rewrite IH by assumption. cbn [flat_map]. now rewrite add_trace_app.
Qed.

Lemma receive_loop_ends (s : sock) (schedule : list recv_outcome) :
  forall (logs : list data_log) (st : ConnectionManager)
         (logs' : list data_log) (st' : ConnectionManager),
    receive_loop s schedule logs st = Some (logs', st') ->
    exists n : nat, st' = add_trace (repeat (SockRecv s) n) st.
Proof.
  induction schedule as [|received later IH]; intros logs st logs' st' H.
  - cbn in H. destruct (negb (server_running st && connected st)); [|discriminate].
    injection H as _ <-. exists 0%nat. now rewrite add_trace_nil.
  - cbn [receive_loop] in H.
    destruct (negb (server_running st && connected st)).
    { injection H as _ <-. exists 0%nat. now rewrite add_trace_nil. }
    destruct (existsb (Nat.eqb s) (closed st)).
    { injection H as _ <-. exists 0%nat. now rewrite add_trace_nil. }
    destruct received as [data| |].
    + destruct data as [|b data].
      * injection H as _ <-. now exists 1%nat.
      * apply IH in H. destruct H as (n & ->). exists (S n).
        now rewrite add_trace_app.
    + apply IH in H. destruct H as (n & ->). exists (S n).
      now rewrite add_trace_app.
    + injection H as _ <-. now exists 1%nat.
Qed.

(** X19: when the loop of [handle_client_data] ends, the session that is
    current then is disconnected, whichever socket the loop was reading:
    the installed socket is closed, the attributes are cleared, and
    [status_changed(False)] is emitted when a device name was set. *)
Theorem handle_client_data_disconnects_the_current_session :
  forall (s : sock) (schedule : list recv_outcome) (st : ConnectionManager)
         (logs : list data_log) (result : outcome unit),
    lock_held st = false ->
    handle_client_data s schedule st = Some (logs, result) ->
    exists st' : ConnectionManager,
      result = Done tt st'
      /\ client_socket st' = None /\ connected st' = false
      /\ device_name st' = PStr ""
      /\ (forall current, client_socket st = Some current -> In current (closed st'))
      /\ (py_truthy (device_name st) = true ->
          In (EmitStatusChanged false "") (trace st')).
Proof.
  intros s schedule st logs result Hlock H. unfold handle_client_data in H.
  destruct (receive_loop s schedule [] st) as [[logs' st1]|] eqn:E; [|discriminate].
  injection H as _ <-.
  apply receive_loop_ends in E. destruct E as (n & ->).
  exists (disconnected (add_trace (repeat (SockRecv s) n) st)).
  split; [now apply disconnect_client_eq|].
  repeat split.
  - intros current Hcur. cbn. rewrite Hcur. now left.
  - intros Hname. cbn. rewrite Hname.
    apply in_or_app. right. apply in_or_app. right. right. now left.
Qed.

Lemma receive_loop_timeouts (s : sock) (rounds : nat) :
  forall (rest : list recv_outcome) (logs : list data_log) (st : ConnectionManager),
    server_running st = true -> connected st = true ->
    existsb (Nat.eqb s) (closed st) = false ->
    receive_loop s (repeat RecvTimeout rounds ++ rest) logs st
    = receive_loop s rest logs (add_trace (repeat (SockRecv s) rounds) st).
Proof.
  induction rounds as [|k IH]; intros rest logs st Hr Hc Ho.
  - cbn [repeat app]. now rewrite add_trace_nil.
  - cbn [repeat app receive_loop]. rewrite Hr, Hc, Ho. cbn [andb negb].
    rewrite IH by assumption. now rewrite add_trace_app.
Qed.

(** C3, as the code has it: two successful handshakes in sequence install
    the socket of the later peer and close the socket of the earlier one,
    but the later session does not stay connected. The receive thread of
    the earlier socket, started by the first handshake, is in its loop:
    after any number of rounds that timed out before the second handshake,
    its next round finds its own socket closed, leaves the loop and calls
    [disconnect_client], which closes the socket of the later peer and
    clears the session. Afterward no session is connected and both
    sockets are closed. *)
Theorem earlier_receive_thread_ends_the_later_session :
  forall (now1 now2 : Q) (s1 s2 : sock) (a1 a2 : addr) (n1 n2 : string)
         (st0 : ConnectionManager) (rounds : nat)
         (received : recv_outcome) (later : list recv_outcome),
    server_running st0 = true -> client_socket st0 = None ->
    lock_held st0 = false ->
    ~ In s1 (closed st0) -> ~ In s2 (closed st0) -> s1 <> s2 ->
    replies_handshake net_recv str_strip s1 n1 ->
    replies_handshake net_recv str_strip s2 n2 ->
    exists st1 st1' st2 st3 : ConnectionManager,
      handle_client_connection net_send_raises net_recv str_strip now1 s1 a1 st0
      = Done tt st1
      /\ In (ThreadStart s1) (trace st1)
      /\ st1' = add_trace (repeat (SockRecv s1) rounds) st1
      /\ (forall (rest : list recv_outcome) (logs : list data_log),
            receive_loop s1 (repeat RecvTimeout rounds ++ rest) logs st1
            = receive_loop s1 rest logs st1')
      /\ handle_client_connection net_send_raises net_recv str_strip now2 s2 a2 st1'
         = Done tt st2
      /\ client_socket st2 = Some s2 /\ connected st2 = true
      /\ In s1 (closed st2) /\ ~ In s2 (closed st2)
      /\ handle_client_data s1 (received :: later) st2
         = Some ([LogErrorReceivingData], Done tt st3)
      /\ client_socket st3 = None /\ connected st3 = false
      /\ In s1 (closed st3) /\ In s2 (closed st3).
Proof.
  intros now1 now2 s1 s2 a1 a2 n1 n2 st0 rounds received later
         Hrun Hidle Hlock Hs1 Hs2 Hneq Hr1 Hr2.
  destruct (handshake_installs net_send_raises net_recv str_strip now1 s1 a1 n1 st0
              Hlock Hs1 Hr1)
    as (st1 & pre1 & mid1 & E1 & Hc1 & _ & _ & Hconn1 & Hlock1 & Hrun1 & Hcl1
        & _ & _ & Htr1).
  rewrite Hidle in Hcl1. cbn [app] in Hcl1.
  set (st1' := add_trace (repeat (SockRecv s1) rounds) st1).
  assert (Hs2' : ~ In s2 (closed st1')) by (cbn [st1' add_trace closed]; now rewrite Hcl1).
  assert (Hlock1' : lock_held st1' = false) by exact Hlock1.
  destruct (handshake_installs net_send_raises net_recv str_strip now2 s2 a2 n2 st1'
              Hlock1' Hs2' Hr2)
    as (st2 & pre2 & mid2 & E2 & Hc2 & _ & _ & Hconn2 & Hlock2 & Hrun2 & Hcl2 & _).
  assert (Hcs1' : client_socket st1' = Some s1) by exact Hc1.
  rewrite Hcs1' in Hcl2. cbn [app] in Hcl2.
  assert (Hcl1' : closed st1' = closed st0) by (cbn [st1' add_trace closed]; exact Hcl1).
  rewrite Hcl1' in Hcl2.
  assert (Hrun2' : server_running st2 = true).
  { rewrite Hrun2. cbn [st1' add_trace server_running]. now rewrite Hrun1. }
  assert (Hclosed : existsb (Nat.eqb s1) (closed st2) = true).
  { rewrite Hcl2. cbn [existsb]. now rewrite Nat.eqb_refl. }
  exists st1, st1', st2, (disconnected st2).
  split; [exact E1|].
  split; [rewrite Htr1; repeat (apply in_or_app; right); now left|].
  split; [reflexivity|].
  split.
  { intros rest logs. apply receive_loop_timeouts.
    - now rewrite Hrun1.
    - exact Hconn1.
    - apply not_in_existsb. now rewrite Hcl1. }
  split; [exact E2|]. split; [exact Hc2|]. split; [exact Hconn2|].
  split; [rewrite Hcl2; now left|].
  split; [rewrite Hcl2; cbn [In]; intros [E|E]; [now apply Hneq|now apply Hs2]|].
  split.
  { unfold handle_client_data. cbn [receive_loop].
    rewrite Hrun2', Hconn2, Hclosed. cbn [andb negb app].
    now rewrite (disconnect_client_eq st2 Hlock2). }
  cbn [disconnected client_socket connected closed]. rewrite Hc2, Hcl2.
  repeat split.
  - right. now left.
  - now left.
Qed.

Lemma is_connected_eq (st : ConnectionManager) :
  lock_held st = false -> is_connected st = Done (connected st) st.
Proof.
  destruct st as [cs ca dn c sr lk cl tr]. cbn [lock_held]. intros ->. reflexivity.
Qed.

(** X20: [on_input_event] of the main window does nothing when the
    session is not connected: no packet is built and no sequence number
    used. When connected, and the write succeeds, it writes the one frame
    that [create_packet] returns; that frame does not decode. *)
Theorem on_input_event_forwards_one_frame_when_connected :
  forall (now : Q) (event_data : dict) (h : ProtocolHandler) (st : ConnectionManager),
    lock_held st = false ->
    (connected st = false ->
     on_input_event net_send_raises now event_data h st = SlotDone h st)
    /\ (forall (s : sock) (frame : bytes) (h' : ProtocolHandler),
          connected st = true -> client_socket st = Some s ->
          existsb (Nat.eqb s) (closed st) || net_send_raises s = false ->
          create_packet now event_data h = (Ret frame, h') ->
          on_input_event net_send_raises now event_data h st
          = SlotDone h' (add_trace [SockSend s frame] st)
          /\ parse_packet frame = Ret None).
Proof.
  intros now event_data h st Hlock. split.
  - intros Hc. unfold on_input_event. rewrite is_connected_eq by exact Hlock.
    now rewrite Hc.
  - intros s frame h' Hc Hs Hok Hp. split.
    + unfold on_input_event. rewrite is_connected_eq by exact Hlock.
      rewrite Hc, Hp.
      now rewrite (send_packet_written net_send_raises frame s st Hlock Hc Hs Hok).
    + pose proof (create_packet_json_frame now event_data h) as Hf.
      rewrite Hp in Hf. exact (proj2 Hf).
Qed.

Lemma dict_lookup_set_same (d : dict) (k : string) (v : pyval) :
  dict_lookup (dict_set d k v) k = Some v.
Proof.
  induction d as [|[k' v'] r IH]; cbn.
  - now rewrite String.eqb_refl.
  - destruct (String.eqb k' k) eqn:E; cbn; now rewrite E.
Qed.

Lemma dict_lookup_set_other (d : dict) (k k' : string) (v : pyval) :
  k <> k' -> dict_lookup (dict_set d k v) k' = dict_lookup d k'.
Proof.
  intros Hk. induction d as [|[k0 v0] r IH]; cbn.
  - destruct (String.eqb k k') eqn:E; [|reflexivity].
    apply String.eqb_eq in E. contradiction.
  - destruct (String.eqb k0 k) eqn:E; cbn.
    + apply String.eqb_eq in E. subst k0.
      destruct (String.eqb k k') eqn:E'; [|reflexivity].
      apply String.eqb_eq in E'. contradiction.
    + now rewrite IH.
Qed.

Lemma handle_datagram_sound :
  forall (server_port : Z) (data : bytes) (ip : string),
    match handle_datagram server_port data ip with
    | Ignored => startswith data DISCOVERY_RESPONSE = false
    | Emitted device_info l =>
        startswith data DISCOVERY_RESPONSE = true
        /\ dict_lookup device_info "ip" = Some (PStr ip)
        /\ match on_device_discovered device_info with
           | inl (name, shown_ip) =>
               shown_ip = PStr ip /\ dict_lookup device_info "name" = Some name
           | inr key =>
               key = "name"%string /\ l = LogDeviceDiscovered (PStr "Unknown") ip
           end
    | ListenerStops e =>
        startswith data DISCOVERY_RESPONSE = true
        /\ (utf8_decode (skipn 16 data) = Raise e
            \/ exists text : string,
                 utf8_decode (skipn 16 data) = Ret text
                 /\ (json_loads text = Raise e /\ e <> JSONDecodeError
                     \/ exists v : pyval,
                          json_loads text = Ret v /\ e = TypeError
                          /\ forall d : dict, v <> PDict d))
    end.
Proof.
  intros server_port data ip. unfold handle_datagram.
  destruct (startswith data DISCOVERY_RESPONSE) eqn:Hs; [|reflexivity].
  change (length DISCOVERY_RESPONSE) with 16%nat.
  destruct (utf8_decode (skipn 16 data)) as [text|e] eqn:Hd.
  2:{ split; [reflexivity|now left]. }
  destruct (json_loads text) as [v|e] eqn:Hj.
  - assert (Hstop : forall w : pyval, json_loads text = Ret w ->
                                      (forall d : dict, w <> PDict d) ->
              true = true
              /\ (Ret text = Raise TypeError
                  \/ exists text0 : string,
                       Ret text = Ret text0
                       /\ (json_loads text0 = Raise TypeError /\ TypeError <> JSONDecodeError
                           \/ exists v0 : pyval,
                                json_loads text0 = Ret v0 /\ TypeError = TypeError
                                /\ forall d : dict, v0 <> PDict d))).
    { intros w Hw Hnd. split; [reflexivity|]. right. exists text.
      split; [reflexivity|]. right. exists w. rewrite Hw. auto. }
    destruct v; try (apply (Hstop _ Hj); intros d0; discriminate).
    split; [reflexivity|]. split; [apply dict_lookup_set_same|].
    unfold on_device_discovered, dict_get.
    rewrite dict_lookup_set_same.
    destruct (dict_lookup (dict_set d "ip" (PStr ip)) "name"); auto.
  - destruct e;
      try (split; [reflexivity|]; right; exists text; split; [reflexivity|];
           left; split; [assumption|discriminate]).
    split; [reflexivity|]. split; [reflexivity|]. cbn. auto.
Qed.

(** X21: what the discovery listener does with a datagram, case by case
    and in both directions. It ignores one that does not start with the
    response token. Bytes after the token that are not UTF-8, JSON that is
    not an object, and an error of [json.loads] other than
    [JSONDecodeError] each end the listener with that exception. A JSON
    object is emitted with the sender address under [ip], whatever the
    response said; text that is not JSON gives the descriptor made up from
    the sender address and the server port. For every descriptor emitted,
    [on_device_discovered] shows the sender address, or raises [KeyError]
    on [name] when the response had none. *)
Theorem discovery_descriptor_carries_the_sender_address :
  forall (server_port : Z) (data : bytes) (ip : string),
    let started := startswith data DISCOVERY_RESPONSE in
    let result := handle_datagram server_port data ip in
    (started = false -> result = Ignored)
    /\ (forall e : exn,
          started = true -> utf8_decode (skipn 16 data) = Raise e ->
          result = ListenerStops e)
    /\ (forall (text : string) (v : pyval),
          started = true -> utf8_decode (skipn 16 data) = Ret text ->
          json_loads text = Ret v -> (forall d : dict, v <> PDict d) ->
          result = ListenerStops TypeError)
    /\ (forall (text : string) (e : exn),
          started = true -> utf8_decode (skipn 16 data) = Ret text ->
          json_loads text = Raise e -> e <> JSONDecodeError ->
          result = ListenerStops e)
    /\ (forall (text : string) (d : dict),
          started = true -> utf8_decode (skipn 16 data) = Ret text ->
          json_loads text = Ret (PDict d) ->
          result
          = Emitted (dict_set d "ip" (PStr ip))
              (LogDeviceDiscovered
                 (dict_get (dict_set d "ip" (PStr ip)) "name" (PStr "Unknown")) ip))
    /\ (forall text : string,
          started = true -> utf8_decode (skipn 16 data) = Ret text ->
          json_loads text = Raise JSONDecodeError ->
          result
          = Emitted [ ("name", PStr ("Android Device (" ++ ip ++ ")"));
                      ("ip", PStr ip); ("port", PInt server_port) ]%string
              (LogDeviceDiscoveredAt ip))
    /\ match result with
       | Ignored => started = false
       | Emitted device_info l =>
           started = true
           /\ dict_lookup device_info "ip" = Some (PStr ip)
           /\ match on_device_discovered device_info with
              | inl (name, shown_ip) =>
                  shown_ip = PStr ip /\ dict_lookup device_info "name" = Some name
              | inr key =>
                  key = "name"%string /\ l = LogDeviceDiscovered (PStr "Unknown") ip
              end
       | ListenerStops e =>
           started = true
           /\ (utf8_decode (skipn 16 data) = Raise e
               \/ exists text : string,
                    utf8_decode (skipn 16 data) = Ret text
                    /\ (json_loads text = Raise e /\ e <> JSONDecodeError
                        \/ exists v : pyval,
                             json_loads text = Ret v /\ e = TypeError
                             /\ forall d : dict, v <> PDict d))
       end.
Proof.
  intros server_port data ip. cbv zeta.
  split; [|split; [|split; [|split; [|split; [|split]]]]].
  - intros Hs. unfold handle_datagram. now rewrite Hs.
  - intros e Hs Hd. unfold handle_datagram.
    change (length DISCOVERY_RESPONSE) with 16%nat. now rewrite Hs, Hd.
  - intros text v Hs Hd Hj Hnd. unfold handle_datagram.
    change (length DISCOVERY_RESPONSE) with 16%nat. rewrite Hs, Hd, Hj.
    destruct v; try reflexivity. exfalso. now apply (Hnd d).
  - intros text e Hs Hd Hj Hne. unfold handle_datagram.
    change (length DISCOVERY_RESPONSE) with 16%nat. rewrite Hs, Hd, Hj.
    destruct e; try reflexivity. now contradiction Hne.
  - intros text d Hs Hd Hj. unfold handle_datagram.
    change (length DISCOVERY_RESPONSE) with 16%nat. now rewrite Hs, Hd, Hj.
  - intros text Hs Hd Hj. unfold handle_datagram.
    change (length DISCOVERY_RESPONSE) with 16%nat. now rewrite Hs, Hd, Hj.
  - apply handle_datagram_sound.
Qed.

Lemma cleanup_eq (st : ConnectionManager) (ss ds : option sock) :
  cleanup {| manager := st; server_socket := ss; discovery_socket := ds |}
  = {| manager :=
         {| client_socket := client_socket st;
            client_address := client_address st;
            device_name := device_name st;
            connected := connected st;
            server_running := server_running st;
            lock_held := lock_held st;
            closed := match ds with Some s => [s] | None => [] end
                      ++ match ss with Some s => [s] | None => [] end
                      ++ closed st;
            trace := trace st
                     ++ match ss with Some s => [SockClose s] | None => [] end
                     ++ match ds with Some s => [SockClose s] | None => [] end |};
       server_socket := None;
       discovery_socket := None |}.
Proof.
  destruct st as [cs ca dn c sr lk cl tr].
  destruct ss as [s1|], ds as [s2|]; unfold cleanup; cbn;
    rewrite <- ?app_assoc, ?app_nil_r; reflexivity.
Qed.

(** X22: [stop_server] on a server that is not running does nothing. On a
    running one it clears the running flag and the session, closes the
    session socket and the two server sockets; a second call then does
    nothing, and a receive thread that is still running ends without any
    effect. *)
Theorem stop_server_closes_everything_once :
  forall sv : Server,
    lock_held (manager sv) = false ->
    (server_running (manager sv) = false -> stop_server sv = Stopped false sv)
    /\ (server_running (manager sv) = true ->
        exists sv' : Server,
          stop_server sv = Stopped true sv'
          /\ server_running (manager sv') = false
          /\ connected (manager sv') = false
          /\ client_socket (manager sv') = None
          /\ server_socket sv' = None /\ discovery_socket sv' = None
          /\ (forall s : sock,
                client_socket (manager sv) = Some s \/ server_socket sv = Some s
                \/ discovery_socket sv = Some s ->
                In s (closed (manager sv')))
          /\ stop_server sv' = Stopped false sv'
          /\ forall (s : sock) (schedule : list recv_outcome),
               handle_client_data s schedule (manager sv')
               = Some ([], Done tt (manager sv'))).
Proof.
  intros [[cs ca dn c sr lk cl tr] ss ds]. cbn [manager lock_held server_running].
  intros ->. split; intros ->.
  - reflexivity.
  - unfold stop_server.
    cbv [with_lock sbind get_state set_server_running sret set_lock manager
         client_socket client_address device_name connected server_running
         lock_held closed trace negb server_socket discovery_socket].
    rewrite disconnect_client_eq by reflexivity.
    rewrite cleanup_eq.
    eexists. split; [reflexivity|].
    cbn [manager disconnected server_running connected client_socket server_socket
         discovery_socket closed lock_held device_name trace client_address].
    repeat split.
    + intros s [H|[H|H]]; subst.
      * apply in_or_app. right. apply in_or_app. right. now left.
      * apply in_or_app. right. apply in_or_app. left. now left.
      * apply in_or_app. left. now left.
    + intros s schedule. unfold handle_client_data.
      destruct schedule; cbn [receive_loop server_running connected andb negb];
        rewrite disconnect_client_eq by reflexivity;
        unfold disconnected; cbn; now rewrite !app_nil_r.
Qed.

End MoreSessionTheorems.

(** ** The capture object *)

Lemma input_events_app (a b : list capture_signal) :
  input_events (a ++ b) = input_events a ++ input_events b.
Proof.
  induction a as [|[e|l] a IH]; cbn; [reflexivity|now rewrite IH|exact IH].
Qed.

Lemma control_after_app (on : bool) (a b : list dict) :
  control_after on (a ++ b)
  = match control_after on a with
    | Some on' => control_after on' b
    | None => None
    end.
Proof.
  revert on. induction a as [|e a IH]; intros on; [reflexivity|].
  cbn [app control_after].
  destruct (py_eq_str (dict_get e "type" PNone) "control_switch").
  - destruct (py_eq_str (dict_get e "edge" PNone) "return_to_pc");
      destruct on; auto.
  - destruct on; auto.
Qed.

Lemma check_screen_edge_switch_names (x y : Z) (self : InputCapture) (edge : string) :
  check_screen_edge_switch x y self = Some edge ->
  In edge ["left"; "right"; "top"; "bottom"]%string.
Proof.
  unfold check_screen_edge_switch.
  repeat match goal with |- context [if ?c then _ else _] => destruct c end;
    intros H; inversion H; cbn; auto.
Qed.

Lemma capture_step_control (c : capture_call) (self : InputCapture) :
  control_after (control_active self) (input_events (fst (capture_step c self)))
  = Some (control_active (snd (capture_step c self))).
Proof.
  destruct c as [now x y|now x y button pressed|now x y dx dy|now|now];
    cbn [capture_step].
  - unfold on_mouse_move.
    destruct (negb (active self)); [reflexivity|].
    destruct (float_lt _ _); [reflexivity|].
    cbn [control_active set_last_mouse].
    destruct (check_screen_edge_switch x y _) as [edge|] eqn:E.
    + destruct (control_active self) eqn:Hc.
      * cbn. now rewrite Hc.
      * apply check_screen_edge_switch_names in E.
        cbn in E. destruct E as [<-|[<-|[<-|[<-|[]]]]]; reflexivity.
    + destruct (control_active self) eqn:Hc; cbn; now rewrite Hc.
  - unfold on_mouse_click.
    destruct (active self), (control_active self) eqn:Hc; cbn; now rewrite ?Hc.
  - unfold on_mouse_scroll.
    destruct (active self), (control_active self) eqn:Hc; cbn; now rewrite ?Hc.
  - unfold toggle_control. destruct (control_active self) eqn:Hc; reflexivity.
  - unfold return_control_to_pc.
    destruct (control_active self) eqn:Hc; cbn; now rewrite ?Hc.
Qed.

(** X23: the events of the mouse handlers and the control switches follow
    the control state. Along any sequence of calls, a switch to the device
    is emitted only while the PC has the control, a switch back and every
    mouse event only while the device has it, and the state the stream
    leaves is the [control_active] attribute. *)
Theorem capture_events_follow_the_control_state :
  forall (cs : list capture_call) (self : InputCapture),
    control_after (control_active self) (input_events (fst (capture_run cs self)))
    = Some (control_active (snd (capture_run cs self))).
Proof.
  induction cs as [|c later IH]; intros self; [reflexivity|].
  cbn [capture_run].
  pose proof (capture_step_control c self) as Hstep.
  destruct (capture_step c self) as [signals self'].
  specialize (IH self').
  destruct (capture_run later self') as [more self''].
  cbn [fst snd] in *.
  now rewrite input_events_app, control_after_app, Hstep.
Qed.


(** ** Rounding to the nearest double keeps the order *)

Lemma pow2_pos (k : Z) : (0 < 2 ^ k)%Q.
Proof. apply Qpower_0_lt. reflexivity. Qed.

Lemma pow2_add (a b : Z) : (2 ^ (a + b) == 2 ^ a * 2 ^ b)%Q.
Proof. apply Qpower_plus. discriminate. Qed.

Lemma pow2_le (a b : Z) : a <= b -> (2 ^ a <= 2 ^ b)%Q.
Proof. intros H. apply Qpower_le_compat_l; [exact H|discriminate]. Qed.

Lemma pow2_lt (a b : Z) : a < b -> (2 ^ a < 2 ^ b)%Q.
Proof. intros H. apply Qpower_lt_compat_l; [exact H|reflexivity]. Qed.

Lemma pow2_inject (n : Z) : 0 <= n -> (inject_Z (2 ^ n) == 2 ^ n)%Q.
Proof. intros H. now rewrite Zpower_Qpower. Qed.

Lemma div_lt_div (N D U L : Q) :
  (0 < L)%Q -> (L <= D)%Q -> (0 < U)%Q -> (N < U)%Q -> (N / D < U / L)%Q.
Proof.
  intros HL HLD HU HN.
  apply Qlt_shift_div_r; [lra|].
  assert (Hq : (0 < U / L)%Q) by (apply Qlt_shift_div_l; [exact HL|lra]).
  assert (E : (U / L * L == U)%Q) by (field; lra).
  assert (H : (U / L * L <= U / L * D)%Q) by (apply Qmult_le_l; assumption).
  lra.
Qed.

Lemma div_lt_div' (N D U L : Q) :
  (0 < D)%Q -> (D < U)%Q -> (0 < L)%Q -> (L <= N)%Q -> (L / U < N / D)%Q.
Proof.
  intros HD HDU HL HLN.
  apply Qlt_shift_div_r; [lra|].
  assert (Hq : (0 < N / D)%Q) by (apply Qlt_shift_div_l; [exact HD|lra]).
  assert (E : (N / D * D == N)%Q) by (field; lra).
  assert (H : (N / D * D < N / D * U)%Q) by (apply Qmult_lt_l; assumption).
  lra.
Qed.

Lemma floor_log2_spec (x : Q) :
  (0 < x)%Q -> (2 ^ floor_log2 x <= x)%Q /\ (x < 2 ^ (floor_log2 x + 1))%Q.
Proof.
  intros Hx. destruct x as [n d].
  assert (Hn : 0 < n) by (unfold Qlt in Hx; cbn in Hx; lia).
  unfold floor_log2. cbn [Qnum Qden].
  set (a := Z.log2 n). set (b := Z.log2 (Z.pos d)).
  assert (Ha : 0 <= a) by apply Z.log2_nonneg.
  assert (Hb : 0 <= b) by apply Z.log2_nonneg.
  destruct (Z.log2_spec n Hn) as [Hn1 Hn2]. fold a in Hn1, Hn2.
  destruct (Z.log2_spec (Z.pos d) ltac:(lia)) as [Hd1 Hd2]. fold b in Hd1, Hd2.
  replace (Z.succ a) with (a + 1) in Hn2 by lia.
  replace (Z.succ b) with (b + 1) in Hd2 by lia.
  rewrite Zle_Qle, pow2_inject in Hn1, Hd1 by lia.
  rewrite Zlt_Qlt, pow2_inject in Hn2, Hd2 by lia.
  pose proof (pow2_pos a). pose proof (pow2_pos b).
  pose proof (pow2_pos (a + 1)). pose proof (pow2_pos (b + 1)).
  assert (Hup : (n # d < 2 ^ (a - b + 1))%Q).
  { replace (a - b + 1) with ((a + 1) - b) by lia.
    rewrite Qpower_minus by discriminate. rewrite (Qmake_Qdiv n d).
    apply div_lt_div; assumption. }
  assert (Hlow : (2 ^ (a - b - 1) < n # d)%Q).
  { replace (a - b - 1) with (a - (b + 1)) by lia.
    rewrite Qpower_minus by discriminate. rewrite (Qmake_Qdiv n d).
    apply div_lt_div'; try assumption. lra. }
  destruct (Qle_bool (2 ^ (a - b)) (n # d)) eqn:E.
  - apply Qle_bool_iff in E. split; assumption.
  - split.
    + apply Qlt_le_weak. exact Hlow.
    + replace (a - b - 1 + 1) with (a - b) by lia.
      apply Qnot_le_lt. intros H'. apply Qle_bool_iff in H'. congruence.
Qed.

Lemma floor_log2_mono (x y : Q) :
  (0 < x)%Q -> (x <= y)%Q -> floor_log2 x <= floor_log2 y.
Proof.
  intros Hx Hxy.
  assert (Hy : (0 < y)%Q) by lra.
  destruct (floor_log2_spec x Hx) as [Hx1 _].
  destruct (floor_log2_spec y Hy) as [_ Hy2].
  destruct (Z_lt_le_dec (floor_log2 y) (floor_log2 x)) as [H|H]; [|exact H].
  exfalso. assert (H' : (2 ^ (floor_log2 y + 1) <= 2 ^ floor_log2 x)%Q)
    by (apply pow2_le; lia).
  lra.
Qed.

Lemma round_half_even_bounds (x : Q) :
  Qfloor x <= round_half_even x <= Qfloor x + 1.
Proof.
  unfold round_half_even.
  destruct (x - inject_Z (Qfloor x) ?= 1 # 2)%Q; [destruct (Z.even _)| |]; lia.
Qed.

Lemma round_half_even_Z (n : Z) : round_half_even (inject_Z n) = n.
Proof.
  unfold round_half_even. rewrite Qfloor_Z.
  destruct (Qcompare_spec (inject_Z n - inject_Z n) (1 # 2)) as [H|H|H];
    [exfalso; lra|reflexivity|exfalso; lra].
Qed.

Lemma round_half_even_mono (x y : Q) :
  (x <= y)%Q -> round_half_even x <= round_half_even y.
Proof.
  intros Hxy. pose proof (Qfloor_resp_le x y Hxy) as Hf.
  pose proof (round_half_even_bounds x) as Bx.
  pose proof (round_half_even_bounds y) as By.
  destruct (Z.eq_dec (Qfloor x) (Qfloor y)) as [E|NE]; [|lia].
  unfold round_half_even in *. rewrite <- E in *.
  destruct (Qcompare_spec (x - inject_Z (Qfloor x)) (1 # 2)) as [Hx|Hx|Hx];
    destruct (Qcompare_spec (y - inject_Z (Qfloor x)) (1 # 2)) as [Hy|Hy|Hy];
    try destruct (Z.even (Qfloor x)); try lia; exfalso; lra.
Qed.

Lemma round_positive_nonneg (x : Q) : (0 < x)%Q -> (0 <= round_positive x)%Q.
Proof.
  intros Hx. unfold round_positive.
  set (e := Z.max (-1074) (floor_log2 x - 52)).
  pose proof (pow2_pos e) as He.
  assert (H0 : (0 <= x / 2 ^ e)%Q).
  { apply Qle_shift_div_l; [exact He|lra]. }
  assert (Hr : 0 <= round_half_even (x / 2 ^ e)).
  { rewrite <- (round_half_even_Z 0). apply round_half_even_mono. exact H0. }
  apply Qmult_le_0_compat; [|lra].
  change 0%Q with (inject_Z 0). now rewrite <- Zle_Qle.
Qed.

Lemma div_pow2_le (x y : Q) (e : Z) : (x <= y)%Q -> (x / 2 ^ e <= y / 2 ^ e)%Q.
Proof.
  intros H. pose proof (pow2_pos e) as He.
  apply Qle_shift_div_l; [exact He|].
  unfold Qdiv. rewrite <- Qmult_assoc, (Qmult_comm (/ _)), Qmult_inv_r by lra. lra.
Qed.

Lemma round_positive_mono (x y : Q) :
  (0 < x)%Q -> (x <= y)%Q -> (round_positive x <= round_positive y)%Q.
Proof.
  intros Hx Hxy.
  assert (Hy : (0 < y)%Q) by lra.
  pose proof (floor_log2_mono x y Hx Hxy) as Hk.
  destruct (floor_log2_spec x Hx) as [_ Hx2].
  destruct (floor_log2_spec y Hy) as [Hy1 _].
  unfold round_positive.
  set (kx := floor_log2 x) in *. set (ky := floor_log2 y) in *.
  set (ex := Z.max (-1074) (kx - 52)). set (ey := Z.max (-1074) (ky - 52)).
  destruct (Z.eq_dec ex ey) as [E|NE].
  - rewrite E. apply Qmult_le_compat_r; [|apply Qlt_le_weak, pow2_pos].
    rewrite <- Zle_Qle. apply round_half_even_mono. now apply div_pow2_le.
  - assert (Hlt : ex < ey) by lia.
    assert (Hey : ey = ky - 52) by lia.
    assert (Hkk : kx < ky) by lia.
    apply Qle_trans with (2 ^ ky)%Q.
    + (* x <= 2^ky, and 2^ky / 2^ex is an integer *)
      assert (Hx3 : (x <= 2 ^ ky)%Q).
      { apply Qle_trans with (2 ^ (kx + 1))%Q; [lra|apply pow2_le; lia]. }
      assert (Hint : (2 ^ ky / 2 ^ ex == inject_Z (2 ^ (ky - ex)))%Q).
      { rewrite pow2_inject by lia. rewrite Qpower_minus by discriminate. reflexivity. }
      assert (Hm : round_half_even (x / 2 ^ ex) <= 2 ^ (ky - ex)).
      { rewrite <- (round_half_even_Z (2 ^ (ky - ex))).
        apply round_half_even_mono. rewrite <- Hint. now apply div_pow2_le. }
      apply Qle_trans with (inject_Z (2 ^ (ky - ex)) * 2 ^ ex)%Q.
      * apply Qmult_le_compat_r; [|apply Qlt_le_weak, pow2_pos].
        now rewrite <- Zle_Qle.
      * rewrite pow2_inject by lia. rewrite <- pow2_add.
        replace (ky - ex + ex) with ky by lia. apply Qle_refl.
    + assert (Hint : (2 ^ ky / 2 ^ ey == inject_Z (2 ^ 52))%Q).
      { rewrite pow2_inject by lia. rewrite Hey.
        rewrite <- Qpower_minus by discriminate.
        replace (ky - (ky - 52)) with 52 by lia. reflexivity. }
      assert (Hm : 2 ^ 52 <= round_half_even (y / 2 ^ ey)).
      { rewrite <- (round_half_even_Z (2 ^ 52)) at 1.
        apply round_half_even_mono. rewrite <- Hint. now apply div_pow2_le. }
      apply Qle_trans with (inject_Z (2 ^ 52) * 2 ^ ey)%Q.
      * rewrite pow2_inject by lia. rewrite <- pow2_add.
        replace (52 + ey) with ky by lia. apply Qle_refl.
      * apply Qmult_le_compat_r; [|apply Qlt_le_weak, pow2_pos].
        now rewrite <- Zle_Qle.
Qed.

Lemma round_double_nonpos (x : Q) : (x <= 0)%Q -> (round_double x <= 0)%Q.
Proof.
  intros Hx. unfold round_double.
  destruct (Qcompare_spec x 0) as [H|H|H].
  - apply Qle_refl.
  - rewrite Qred_correct.
    pose proof (round_positive_nonneg (- x) ltac:(lra)). lra.
  - exfalso. lra.
Qed.

Lemma round_double_nonneg (x : Q) : (0 <= x)%Q -> (0 <= round_double x)%Q.
Proof.
  intros Hx. unfold round_double.
  destruct (Qcompare_spec x 0) as [H|H|H].
  - apply Qle_refl.
  - exfalso. lra.
  - rewrite Qred_correct. now apply round_positive_nonneg.
Qed.

Lemma round_double_mono (x y : Q) :
  (x <= y)%Q -> (round_double x <= round_double y)%Q.
Proof.
  intros Hxy.
  destruct (Qlt_le_dec 0 x) as [Hx|Hx].
  - unfold round_double.
    destruct (Qcompare_spec x 0) as [H|H|H]; try (exfalso; lra).
    destruct (Qcompare_spec y 0) as [H'|H'|H']; try (exfalso; lra).
    rewrite !Qred_correct. now apply round_positive_mono.
  - destruct (Qlt_le_dec y 0) as [Hy|Hy].
    + unfold round_double.
      destruct (Qcompare_spec x 0) as [H|H|H]; try (exfalso; lra).
      destruct (Qcompare_spec y 0) as [H'|H'|H']; try (exfalso; lra).
      rewrite !Qred_correct.
      pose proof (round_positive_mono (- y) (- x) ltac:(lra) ltac:(lra)). lra.
    + apply Qle_trans with 0%Q;
        [now apply round_double_nonpos|now apply round_double_nonneg].
Qed.

(** ** The rate limit *)

Lemma nondecreasing_from_weaken (lo lo' : Q) (ts : list Q) :
  (lo <= lo')%Q -> nondecreasing_from lo' ts -> nondecreasing_from lo ts.
Proof.
  intros Hle [Hh Hs]. split; [|exact Hs].
  destruct ts as [|a r]; [exact I|]. lra.
Qed.

Lemma nondecreasing_from_cons (lo a : Q) (ts : list Q) :
  (lo <= a)%Q -> nondecreasing_from a ts -> nondecreasing_from lo (a :: ts).
Proof.
  intros Hle [Hh Hs]. split; [exact Hle|].
  destruct ts as [|b r]; [exact I|]. cbn. split; assumption.
Qed.

Lemma float_lt_false (a b : Q) : float_lt a b = false -> (b <= a)%Q.
Proof.
  unfold float_lt, Qle. intros H. apply Z.ltb_ge in H. exact H.
Qed.

Lemma float_lt_true (a b : Q) : (a < b)%Q -> float_lt a b = true.
Proof.
  unfold float_lt, Qlt. intros H. apply Z.ltb_lt. exact H.
Qed.

Lemma float_mul_mono (a b c : Q) :
  (0 <= c)%Q -> (a <= b)%Q -> (float_mul a c <= float_mul b c)%Q.
Proof.
  intros Hc Hab. unfold float_mul. apply round_double_mono.
  now apply Qmult_le_compat_r.
Qed.

(** A reading that passes the rate limit is later than the last one. *)
Lemma rate_limit_passed (t last interval : Q) :
  (0 < interval)%Q -> float_lt (float_sub t last) interval = false ->
  (last < t)%Q.
Proof.
  intros Hgap Hrate. apply float_lt_false in Hrate. unfold float_sub in Hrate.
  apply Qnot_le_lt. intros Hle.
  pose proof (round_double_nonpos (t - last) ltac:(lra)). lra.
Qed.

Lemma rate_limit_drops (t last interval : Q) :
  (0 < interval)%Q -> (t <= last)%Q ->
  float_lt (float_sub t last) interval = true.
Proof.
  intros Hgap Hle. apply float_lt_true. unfold float_sub.
  pose proof (round_double_nonpos (t - last) ltac:(lra)). lra.
Qed.

Lemma capture_step_interval (c : capture_call) (self : InputCapture) :
  mouse_interval (snd (capture_step c self)) = mouse_interval self.
Proof.
  destruct c; cbn [capture_step].
  - unfold on_mouse_move.
    destruct (negb (active self)); [reflexivity|].
    destruct (float_lt _ _); [reflexivity|].
    destruct (check_screen_edge_switch _ _ _);
      cbn [control_active set_last_mouse]; destruct (control_active self); reflexivity.
  - unfold on_mouse_click. now destruct (negb (active self) || negb (control_active self)).
  - unfold on_mouse_scroll. now destruct (negb (active self) || negb (control_active self)).
  - unfold toggle_control. now destruct (control_active self).
  - unfold return_control_to_pc. now destruct (control_active self).
Qed.

Lemma capture_step_moves (c : capture_call) (self : InputCapture) :
  (0 < mouse_interval self)%Q ->
  let self' := snd (capture_step c self) in
  let ts := move_timestamps (input_events (fst (capture_step c self))) in
  (last_mouse_time self <= last_mouse_time self')%Q
  /\ (ts = [] \/ ts = [float_mul (last_mouse_time self') 1000]).
Proof.
  intros Hgap. destruct c as [now x y|now x y button pressed|now x y dx dy|now|now];
    cbn [capture_step]; cbv zeta.
  - unfold on_mouse_move.
    destruct (negb (active self)); [split; [cbn; lra|now left]|].
    destruct (float_lt _ _) eqn:Hrate; [split; [cbn; lra|now left]|].
    apply rate_limit_passed in Hrate; [|exact Hgap].
    cbn [control_active set_last_mouse].
    destruct (check_screen_edge_switch x y _) as [edge|] eqn:E.
    + destruct (control_active self) eqn:Hc.
      * split; [cbn; lra|now right].
      * split; [cbn; lra|left].
        apply check_screen_edge_switch_names in E.
        cbn in E. destruct E as [<-|[<-|[<-|[<-|[]]]]]; reflexivity.
    + destruct (control_active self) eqn:Hc.
      * split; [cbn; lra|now right].
      * split; [cbn; lra|now left].
  - unfold on_mouse_click.
    destruct (negb (active self) || negb (control_active self));
      (split; [cbn; lra|now left]).
  - unfold on_mouse_scroll.
    destruct (negb (active self) || negb (control_active self));
      (split; [cbn; lra|now left]).
  - unfold toggle_control.
    destruct (control_active self); (split; [cbn; lra|now left]).
  - unfold return_control_to_pc.
    destruct (control_active self); (split; [cbn; lra|now left]).
Qed.

Lemma move_timestamps_app (a b : list dict) :
  move_timestamps (a ++ b) = move_timestamps a ++ move_timestamps b.
Proof.
  induction a as [|e a IH]; [reflexivity|]. cbn [app move_timestamps].
  destruct (py_eq_str _ _); [|exact IH].
  destruct (dict_get e "timestamp" PNone); try exact IH.
  cbn. now rewrite IH.
Qed.

Lemma capture_run_nondecreasing (cs : list capture_call) :
  forall self : InputCapture,
    (0 < mouse_interval self)%Q ->
    nondecreasing_from (float_mul (last_mouse_time self) 1000)
      (move_timestamps (input_events (fst (capture_run cs self))))
    /\ (last_mouse_time self <= last_mouse_time (snd (capture_run cs self)))%Q.
Proof.
  induction cs as [|c later IH]; intros self Hgap.
  - cbn. repeat split. lra.
  - cbn [capture_run].
    pose proof (capture_step_moves c self Hgap) as Hstep.
    pose proof (capture_step_interval c self) as Hint.
    destruct (capture_step c self) as [signals self'].
    cbn [fst snd] in Hstep, Hint. cbv zeta in Hstep.
    assert (Hgap' : (0 < mouse_interval self')%Q) by now rewrite Hint.
    destruct (IH self' Hgap') as [IH1 IH2].
    destruct (capture_run later self') as [more self''].
    cbn [fst snd] in *.
    destruct Hstep as [Hle Hts].
    assert (Hm : (float_mul (last_mouse_time self) 1000
                  <= float_mul (last_mouse_time self') 1000)%Q)
      by (apply float_mul_mono; [lra|exact Hle]).
    split; [|lra].
    rewrite input_events_app, move_timestamps_app.
    destruct Hts as [-> | ->]; cbn [app].
    + now apply nondecreasing_from_weaken with (lo' := float_mul (last_mouse_time self') 1000).
    + now apply nondecreasing_from_cons.
Qed.

(** X24: the rate limit of [on_mouse_move] in the arithmetic of the code.
    With a positive [mouse_interval], a movement read at or before the last
    accepted reading of the clock is dropped: no attribute changes and no
    signal is emitted. So along any sequence of calls the accepted
    readings only grow, and the timestamps of successive [mouse_move]
    events never decrease. *)
Theorem mouse_move_timestamps_never_decrease :
  forall (cs : list capture_call) (self : InputCapture),
    (0 < mouse_interval self)%Q ->
    nondecreasing (move_timestamps (input_events (fst (capture_run cs self))))
    /\ (last_mouse_time self <= last_mouse_time (snd (capture_run cs self)))%Q
    /\ (forall (t : Q) (x y : Z),
          (t <= last_mouse_time self)%Q -> on_mouse_move t x y self = ([], self)).
Proof.
  intros cs self Hgap.
  destruct (capture_run_nondecreasing cs self Hgap) as [[_ H1] H2].
  split; [exact H1|]. split; [exact H2|].
  intros t x y Ht. unfold on_mouse_move.
  destruct (negb (active self)); [reflexivity|].
  now rewrite rate_limit_drops.
Qed.

(** X25: while the PC has the control, a mouse movement that passes the
    rate limit takes the control exactly when it is within the threshold of
    a screen edge; it then emits one [control_switch] event, and otherwise
    no signal at all. *)
Theorem on_mouse_move_takes_control_exactly_at_an_edge :
  forall (current_time : Q) (x y : Z) (self : InputCapture),
    active self = true -> control_active self = false ->
    float_lt (float_sub current_time (last_mouse_time self)) (mouse_interval self) = false ->
    let at_edge :=
      x <= edge_threshold self \/ screen_width self - edge_threshold self <= x
      \/ y <= edge_threshold self \/ screen_height self - edge_threshold self <= y in
    let '(signals, self') := on_mouse_move current_time x y self in
    (control_active self' = true <-> at_edge)
    /\ (at_edge ->
        exists edge : string,
          input_events signals = [control_switch_event edge current_time])
    /\ (~ at_edge -> signals = []).
Proof.
  intros current_time x y self Ha Hc Hrate. cbv zeta.
  unfold on_mouse_move. rewrite Ha, Hrate. cbn [negb].
  cbn [control_active set_last_mouse]. rewrite Hc.
  unfold check_screen_edge_switch.
  cbn [edge_threshold screen_width screen_height set_last_mouse].
  destruct (x <=? edge_threshold self) eqn:E1;
    [apply Z.leb_le in E1|apply Z.leb_gt in E1].
  { cbn. repeat split; auto; try (intros; eexists; reflexivity). tauto. }
  destruct (x >=? screen_width self - edge_threshold self) eqn:E2;
    [apply Z.geb_le in E2|rewrite Z.geb_leb in E2; apply Z.leb_gt in E2].
  { cbn. repeat split; auto; try (intros; eexists; reflexivity). tauto. }
  destruct (y <=? edge_threshold self) eqn:E3;
    [apply Z.leb_le in E3|apply Z.leb_gt in E3].
  { cbn. repeat split; auto; try (intros; eexists; reflexivity). tauto. }
  destruct (y >=? screen_height self - edge_threshold self) eqn:E4;
    [apply Z.geb_le in E4|rewrite Z.geb_leb in E4; apply Z.leb_gt in E4].
  { cbn. repeat split; auto; try (intros; eexists; reflexivity). tauto. }
  cbn. rewrite Hc. repeat split.
  - discriminate.
  - lia.
  - lia.
Qed.

(* ================================================================== *)
(** * Closed examples *)
(* ================================================================== *)

(** The one encoder whose frames decode: the heartbeat packet. *)
Example heartbeat_packet_round_trip :
  exists frame,
    create_heartbeat_packet (lib:=ref_lib) 1 init_handler
    = (Ret frame, next_sequence init_handler)
    /\ length frame = 15%nat
    /\ parse_packet (lib:=ref_lib) frame = Ret (Some (heartbeat_record 0 1000)).
Proof.
  eexists. split; [vm_compute; reflexivity|].
  repeat split; vm_compute; reflexivity.
Qed.

(** The frame of a mouse movement event has 68 bytes and the type byte
    [0xFF], and does not decode. *)
Example create_packet_mouse_move_runs :
  exists frame,
    create_packet (lib:=ref_lib) 0 (mouse_move_event 10 20 1000) init_handler
    = (Ret frame, next_sequence init_handler)
    /\ length frame = 68%nat
    /\ byte_to_Z (nth 2 frame x00) = 0xFF
    /\ parse_packet (lib:=ref_lib) frame = Ret None.
Proof.
  eexists. split; [vm_compute; reflexivity|].
  repeat split; vm_compute; reflexivity.
Qed.

Lemma checksum_detects_bit_flips_witness :
  exists frame,
    create_heartbeat_packet (lib:=ref_lib) 1 init_handler
    = (Ret frame, next_sequence init_handler)
    /\ last2 frame = le_bytes 2 (crc16_spec (drop_last2 frame))
    /\ parse_packet (lib:=ref_lib) (flip_bit 42 frame) = Ret None.
Proof.
  eexists. split; [vm_compute; reflexivity|].
  match goal with
  | |- last2 ?f = _ /\ _ =>
      assert (E : build_packet (lib:=ref_lib) 0x08 (le_bytes 2 0 ++ le_bytes 8 1000)
                    init_handler = (Ret f, next_sequence init_handler))
        by (vm_compute; reflexivity)
  end.
  destruct (checksum_is_crc16_and_detects_bit_flips (lib:=ref_lib)
              init_handler (next_sequence init_handler) 0x08
              (le_bytes 2 0 ++ le_bytes 8 1000) [] _ (or_introl E)) as [Hcrc Hflip].
  split; [exact Hcrc|]. apply Hflip. vm_compute. lia.
Defined.

Lemma json_frame_flag_witness :
  exists frame,
    create_json_packet (lib:=ref_lib) (heartbeat_event 1000) init_handler
    = (Ret frame, next_sequence init_handler)
    /\ length (skipn 3 (drop_last2 frame)) = 44%nat
    /\ Z.testbit (byte_to_Z (nth 2 frame x00)) 7 = true.
Proof.
  pose (text := text_of (PDict (heartbeat_event 1000))).
  pose (payload := le_bytes 2 0 ++ le_bytes 2 (len (str_encode text)) ++ str_encode text).
  assert (Ep : json_payload (lib:=ref_lib) (packet_sequence init_handler)
                 (PDict (heartbeat_event 1000)) = Ret payload)
    by (vm_compute; reflexivity).
  destruct (json_frame_flag_set_on_raw_payload (lib:=ref_lib) init_handler
              (heartbeat_event 1000) payload Ep) as (E & Hflag & Hraw).
  - vm_compute. discriminate.
  - eexists. split; [exact E|]. split; [|exact Hflag].
    rewrite Hraw. vm_compute. reflexivity.
Defined.




Lemma later_handshake_wins_witness :
  exists st1 st2,
    handle_client_connection (lib:=ref_lib) net_up pixel_net ref_strip 0 1%nat
      pixel_address init_manager = Done tt st1
    /\ handle_client_connection (lib:=ref_lib) net_up pixel_net ref_strip 5 2%nat
         pixel_address st1 = Done tt st2
    /\ client_socket st2 = Some 2%nat /\ connected st2 = true
    /\ In 1%nat (closed st2) /\ ~ In 2%nat (closed st2)
    /\ exclusive (trace st2).
Proof.
  assert (Hreply : forall s, replies_handshake (lib:=ref_lib) pixel_net ref_strip s "Pixel").
  { intros s. exists (str_encode (text_of pixel_reply ++ newline)),
      (text_of pixel_reply ++ newline)%string,
      [ ("type", PStr "handshake_response"); ("device_name", PStr "Pixel") ]%string.
    repeat split; vm_compute; reflexivity. }
  destruct (later_handshake_wins (lib:=ref_lib) net_up pixel_net ref_strip 0 5
              1%nat 2%nat pixel_address pixel_address "Pixel" "Pixel" init_manager)
    as (st1 & st2 & E1 & E2 & _ & _ & Hs & Hc & _ & _ & Hin & Hout & Hex);
    try reflexivity; try (cbn; tauto); try discriminate; try apply Hreply.
  exists st1, st2. repeat split; assumption.
Defined.

Lemma send_packet_blocks_witness :
  exists st',
    send_packet net_down [x01] connected_manager = Blocked st'
    /\ connected st' = true /\ client_socket st' = Some 1%nat /\ closed st' = [].
Proof.
  destruct (send_packet_blocks_on_write_failure net_down [x01] 1%nat connected_manager)
    as (st' & E & _ & Hc & Hs & Hcl & _); try reflexivity.
  exists st'. repeat split; assumption.
Defined.

Lemma heartbeat_round_witness :
  heartbeat_round (lib:=ref_lib) net_up 1700000000 connected_manager
  = Done tt (add_trace
               [Sleep 5;
                SockSend 1%nat
                  (str_encode (text_of (heartbeat_message 1700000000) ++ newline))]
               connected_manager).
Proof.
  destruct (heartbeat_round_sends_json_in_seconds (lib:=ref_lib) net_up 1700000000
              connected_manager eq_refl) as [_ H].
  assert (Ej : json_dumps (heartbeat_message 1700000000)
               = Ret (text_of (heartbeat_message 1700000000)))
    by (vm_compute; reflexivity).
  destruct (H 1%nat (text_of (heartbeat_message 1700000000)) eq_refl eq_refl Ej)
    as [Hok _].
  apply Hok. reflexivity.
Defined.

(** At the clock reading 1700000000 (seconds), which is 1700000000000 in
    milliseconds, the line that the heartbeat round sends carries the
    timestamp 1700000000.0. *)
Lemma heartbeat_timestamp_is_not_milliseconds :
  exists st',
    heartbeat_round (lib:=ref_lib) net_up 1700000000 connected_manager = Done tt st'
    /\ trace st'
       = [Sleep 5;
          SockSend 1%nat
            (str_encode (text_of (heartbeat_message 1700000000) ++ newline))]
    /\ text_of (heartbeat_message 1700000000)
       <> text_of (heartbeat_message (1700000000 * 1000))
    /\ text_of (heartbeat_message 1700000000)
       <> text_of (PDict [ ("type", PStr "heartbeat");
                           ("timestamp", PInt 1700000000000) ]%string).
Proof.
  eexists. split; [vm_compute; reflexivity|].
  split; [vm_compute; reflexivity|].
  split; vm_compute; discriminate.
Qed.

(** * Closed examples, continued *)

Lemma click_packet_never_decodes_witness :
  parse_mouse_click_packet (repeat x00 24) = Raise ValueError
  /\ parse_packet (lib:=ref_lib) (frame_of 0x02 (repeat x00 24)) = Ret None.
Proof.
  split; [vm_compute; reflexivity|].
  apply (click_keyboard_scroll_switch_packets_never_decode (lib:=ref_lib)).
  vm_compute. auto.
Defined.

(** At the clock reading 1700000000.123, as a double, the product with
    1000 rounds to 1700000000123 exactly, the timestamp of the packet. *)
Lemma heartbeat_packet_decodes_witness :
  exists frame,
    create_heartbeat_packet (lib:=ref_lib) (round_double (1700000000123 # 1000))
      init_handler
    = (Ret frame, next_sequence init_handler)
    /\ length frame = 15%nat
    /\ parse_packet (lib:=ref_lib) frame
       = Ret (Some (heartbeat_record 0 1700000000123)).
Proof.
  eexists.
  match goal with
  | |- ?run = (Ret ?f, ?s') /\ _ =>
      assert (E : run = (Ret f, s')) by (vm_compute; reflexivity)
  end.
  split; [exact E|].
  assert (Et : @py_int ref_lib
                 (PFloat (float_mul (round_double (1700000000123 # 1000)) 1000))
               = Ret 1700000000123)
    by (vm_compute; reflexivity).
  destruct (heartbeat_packet_decodes (lib:=ref_lib)
              (round_double (1700000000123 # 1000)) init_handler _ _
              1700000000123 Et E)
    as (Hl & _ & Hp).
  split; [exact Hl|exact Hp].
Defined.

Lemma parse_packet_accepts_only_well_formed_witness :
  exists frame v,
    parse_packet (lib:=ref_lib) frame = Ret (Some v)
    /\ length frame = 15%nat
    /\ verify_checksum frame = true
    /\ full_record v.
Proof.
  exists (frame_of 0x08 (le_bytes 2 0 ++ le_bytes 8 1000)), (heartbeat_record 0 1000).
  assert (E : parse_packet (lib:=ref_lib) (frame_of 0x08 (le_bytes 2 0 ++ le_bytes 8 1000))
              = Ret (Some (heartbeat_record 0 1000))) by (vm_compute; reflexivity).
  destruct (parse_packet_accepts_only_well_formed (lib:=ref_lib) _ _ E)
    as (_ & _ & Hv & _ & Hf).
  split; [exact E|]. split; [vm_compute; reflexivity|]. split; assumption.
Defined.

Lemma build_packet_sets_flag_witness :
  exists frame,
    build_packet (lib:=toy_lib) 0x08 (repeat x00 70) init_handler
    = (Ret frame, next_sequence init_handler)
    /\ Z.land (byte_to_Z (nth 2 frame x00)) 0x7F = 0x08
    /\ Z.testbit (byte_to_Z (nth 2 frame x00)) 7 = true.
Proof.
  eexists.
  match goal with
  | |- ?run = (Ret ?f, ?s') /\ _ =>
      assert (E : run = (Ret f, s')) by (vm_compute; reflexivity)
  end.
  split; [exact E|].
  destruct (build_packet_sets_flag_iff_compressed (lib:=toy_lib) 0x08 (repeat x00 70)
              init_handler (next_sequence init_handler) _ ltac:(lia) E) as (Ht & Hflag & _).
  split; [exact Ht|]. vm_compute. reflexivity.
Defined.

Lemma compressed_frame_decodes_witness :
  exists frame,
    build_packet (lib:=toy_lib) 0x08 (repeat x00 70) init_handler
    = (Ret frame, next_sequence init_handler)
    /\ length frame = 6%nat
    /\ parse_packet (lib:=toy_lib) frame
       = parse_payload (lib:=toy_lib) 0x08 (repeat x00 70).
Proof.
  eexists.
  match goal with
  | |- ?run = (Ret ?f, ?s') /\ _ =>
      assert (E : run = (Ret f, s')) by (vm_compute; reflexivity)
  end.
  split; [exact E|]. split; [vm_compute; reflexivity|].
  apply (compressed_frame_decodes_like_raw (lib:=toy_lib) 0x08 (repeat x00 70)
           init_handler (next_sequence init_handler)); [lia| |exact E].
  intros c Hc. injection Hc as <-. vm_compute. reflexivity.
Defined.

Lemma json_payload_parses_back_witness :
  exists payload,
    json_payload (lib:=ref_lib) 7 pixel_reply = Ret payload
    /\ parse_json_packet (lib:=ref_lib) payload = Ret pixel_reply.
Proof.
  eexists.
  match goal with
  | |- ?run = Ret ?p /\ _ => assert (E : run = Ret p) by (vm_compute; reflexivity)
  end.
  split; [exact E|].
  assert (Ed : @json_dumps ref_lib pixel_reply = Ret (text_of pixel_reply))
    by (vm_compute; reflexivity).
  assert (Eu : @utf8_decode ref_lib (str_encode (text_of pixel_reply))
               = Ret (text_of pixel_reply)) by (vm_compute; reflexivity).
  rewrite (json_payload_parses_back (lib:=ref_lib) 7 pixel_reply _ _ Ed Eu E).
  vm_compute. reflexivity.
Defined.

Lemma batch_events_sequence_witness :
  exists frames self',
    batch_events (lib:=ref_lib) 0
      [heartbeat_event 1000; heartbeat_event 2000; heartbeat_event 3000] 100
      init_handler
    = (Ret frames, self')
    /\ length frames = 2%nat
    /\ packet_sequence self' = 5.
Proof.
  eexists. eexists.
  match goal with
  | |- ?run = (Ret ?fs, ?s') /\ _ =>
      assert (E : run = (Ret fs, s')) by (vm_compute; reflexivity)
  end.
  split; [exact E|]. split; [vm_compute; reflexivity|].
  assert (Hn : 0 <= packet_sequence init_handler < 65536) by (cbn; lia).
  destruct (batch_events_consumes_sequence_numbers (lib:=ref_lib) 0
              [heartbeat_event 1000; heartbeat_event 2000; heartbeat_event 3000] 100
              init_handler _ _ Hn E) as (Hs & _ & _).
  rewrite Hs. vm_compute. reflexivity.
Defined.

Lemma batch_events_one_per_event_witness :
  exists frames self',
    batch_events (lib:=ref_lib) 0 [heartbeat_event 1000; heartbeat_event 2000] 4
      init_handler
    = (Ret frames, self')
    /\ Forall2 (fun e frame => batch_frame_of (lib:=ref_lib) [e] frame)
         [heartbeat_event 1000; heartbeat_event 2000] frames.
Proof.
  eexists. eexists.
  match goal with
  | |- ?run = (Ret ?fs, ?s') /\ _ =>
      assert (E : run = (Ret fs, s')) by (vm_compute; reflexivity)
  end.
  split; [exact E|].
  assert (Hm : 4 < 5) by lia.
  exact (batch_events_one_batch_per_event_below_frame_size (lib:=ref_lib) 0
           [heartbeat_event 1000; heartbeat_event 2000] 4 init_handler _ _ Hm E).
Defined.

Lemma batch_events_one_batch_witness :
  exists frames self' frame,
    batch_events (lib:=ref_lib) 0 [heartbeat_event 1000; heartbeat_event 2000] 1024
      init_handler
    = (Ret frames, self')
    /\ frames = [frame]
    /\ batch_frame_of (lib:=ref_lib) [heartbeat_event 1000; heartbeat_event 2000] frame.
Proof.
  eexists. eexists.
  match goal with
  | |- exists frame, ?run = (Ret ?fs, ?s') /\ _ =>
      assert (E : run = (Ret fs, s')) by (vm_compute; reflexivity)
  end.
  assert (Hne : [heartbeat_event 1000; heartbeat_event 2000] <> []) by discriminate.
  assert (Hfit : fold_right Z.add 0
                   (map (raw_frame_size (lib:=ref_lib))
                      [heartbeat_event 1000; heartbeat_event 2000]) <= 1024)
    by (vm_compute; discriminate).
  destruct (batch_events_one_batch_when_all_fit (lib:=ref_lib) 0
              [heartbeat_event 1000; heartbeat_event 2000] 1024 init_handler _ _
              Hne Hfit E) as (frame & Hf & Hb).
  exists frame. repeat split; assumption.
Defined.

Lemma disconnect_client_idempotent_witness :
  exists st1,
    disconnect_client connected_manager = Done tt st1
    /\ connected st1 = false /\ In 1%nat (closed st1)
    /\ disconnect_client st1 = Done tt st1.
Proof.
  destruct (disconnect_client_idempotent connected_manager eq_refl)
    as (st1 & E & _ & _ & _ & Hc & Hcl & E2).
  exists st1. repeat split; try assumption. now apply Hcl.
Defined.

Lemma failed_handshake_witness :
  exists st',
    handle_client_connection (lib:=ref_lib) net_up silent_net ref_strip 0 2%nat
      pixel_address connected_manager = Done tt st'
    /\ client_socket st' = Some 1%nat /\ connected st' = true
    /\ closed st' = [2%nat].
Proof.
  assert (H : In 2%nat (closed connected_manager)
              \/ is_handshake_response (peer_reply (lib:=ref_lib) silent_net ref_strip 2%nat)
                 <> Ret true) by (right; vm_compute; discriminate).
  destruct (failed_handshake_keeps_session (lib:=ref_lib) net_up silent_net ref_strip
              0 2%nat pixel_address connected_manager H)
    as (st' & pre & E & Hs & _ & _ & Hc & _ & Hcl & _).
  exists st'. repeat split; assumption.
Defined.

Lemma send_packet_writes_witness :
  send_packet net_up [x01] connected_manager
  = Done true (add_trace [SockSend 1%nat [x01]] connected_manager).
Proof.
  destruct (send_packet_writes_only_to_the_connected_socket net_up [x01]
              connected_manager eq_refl) as [_ H].
  apply H; reflexivity.
Defined.

Lemma heartbeat_monitor_idle_witness :
  heartbeat_monitor (lib:=ref_lib) net_up [5; 10]%Q idle_manager
  = Done tt (add_trace [Sleep 5; Sleep 5] idle_manager)
  /\ heartbeat_monitor (lib:=ref_lib) net_up [5; 10]%Q init_manager
     = Done tt init_manager.
Proof.
  split.
  - exact (heartbeat_monitor_idle_only_sleeps (lib:=ref_lib) net_up [5; 10]%Q
             idle_manager eq_refl).
  - exact (heartbeat_monitor_idle_only_sleeps (lib:=ref_lib) net_up [5; 10]%Q
             init_manager eq_refl).
Defined.

Lemma heartbeat_monitor_beats_witness :
  heartbeat_monitor (lib:=ref_lib) net_up [5; 10]%Q connected_manager
  = Done tt
      (add_trace
         [Sleep 5;
          SockSend 1%nat (str_encode (text_of (heartbeat_message 5) ++ newline));
          Sleep 5;
          SockSend 1%nat (str_encode (text_of (heartbeat_message 10) ++ newline))]
         connected_manager).
Proof.
  assert (E1 : @json_dumps ref_lib (heartbeat_message 5) = Ret (text_of (heartbeat_message 5)))
    by (vm_compute; reflexivity).
  assert (E2 : @json_dumps ref_lib (heartbeat_message 10) = Ret (text_of (heartbeat_message 10)))
    by (vm_compute; reflexivity).
  exact (heartbeat_monitor_sends_one_line_per_round (lib:=ref_lib) net_up [5; 10]%Q
           [text_of (heartbeat_message 5); text_of (heartbeat_message 10)] 1%nat
           connected_manager eq_refl eq_refl eq_refl eq_refl
           (Forall2_cons _ _ E1 (Forall2_cons _ _ E2 (Forall2_nil _)))).
Defined.

Lemma handle_client_data_witness :
  exists logs st',
    handle_client_data (lib:=ref_lib) 1%nat
      [RecvTimeout; RecvData (str_encode (text_of pixel_reply)); RecvData []]
      connected_manager
    = Some (logs, Done tt st')
    /\ client_socket st' = None /\ connected st' = false /\ In 1%nat (closed st').
Proof.
  eexists. 
  match goal with
  | |- exists st', ?run = Some (?l, _) /\ _ =>
      destruct run as [[logs result]|] eqn:E; [|vm_compute in E; discriminate]
  end.
  destruct (handle_client_data_disconnects_the_current_session (lib:=ref_lib) 1%nat
              [RecvTimeout; RecvData (str_encode (text_of pixel_reply)); RecvData []]
              connected_manager logs result eq_refl E)
    as (st' & -> & Hs & Hc & _ & Hcl & _).
  exists st'. split; [|repeat split; try assumption; now apply Hcl].
  vm_compute in E. injection E as <- _. reflexivity.
Defined.

Lemma on_input_event_witness :
  exists frame,
    on_input_event (lib:=ref_lib) net_up 0 (mouse_move_event 10 20 1000) init_handler
      connected_manager
    = SlotDone (next_sequence init_handler)
        (add_trace [SockSend 1%nat frame] connected_manager)
    /\ length frame = 68%nat
    /\ parse_packet (lib:=ref_lib) frame = Ret None.
Proof.
  destruct (create_packet (lib:=ref_lib) 0 (mouse_move_event 10 20 1000) init_handler)
    as [[frame|e] h'] eqn:E; [|vm_compute in E; discriminate].
  destruct (on_input_event_forwards_one_frame_when_connected (lib:=ref_lib) net_up 0
              (mouse_move_event 10 20 1000) init_handler connected_manager eq_refl)
    as [_ H].
  destruct (H 1%nat frame h' eq_refl eq_refl eq_refl E) as [Hrun Hparse].
  exists frame. vm_compute in E. injection E as <- <-.
  split; [exact Hrun|]. split; [reflexivity|exact Hparse].
Defined.

Lemma stop_server_witness :
  exists sv',
    stop_server running_server = Stopped true sv'
    /\ server_running (manager sv') = false
    /\ In 1%nat (closed (manager sv')) /\ In 2%nat (closed (manager sv'))
    /\ In 3%nat (closed (manager sv'))
    /\ stop_server sv' = Stopped false sv'.
Proof.
  destruct (stop_server_closes_everything_once running_server eq_refl) as [_ H].
  destruct (H eq_refl) as (sv' & E & Hr & _ & _ & _ & _ & Hcl & E2 & _).
  exists sv'. repeat split; try assumption; apply Hcl; cbn; auto.
Defined.

Lemma mouse_move_timestamps_witness :
  let calls :=
    [MouseMove 100 5 500; MouseMove (100 + (1 # 100)) 500 500;
     MouseMove (100 + (2 # 100)) 600 500; MouseMove 99 650 500;
     MouseMove (100 + (4 # 100)) 800 500] in
  move_timestamps (input_events (fst (capture_run calls started_capture)))
  = [float_mul (100 + (2 # 100)) 1000; float_mul (100 + (4 # 100)) 1000]
  /\ nondecreasing
       (move_timestamps (input_events (fst (capture_run calls started_capture))))
  /\ on_mouse_move 0 500 500 started_capture = ([], started_capture).
Proof.
  cbv zeta. split; [vm_compute; reflexivity|].
  assert (Hgap : (0 < mouse_interval started_capture)%Q) by (vm_compute; reflexivity).
  destruct (mouse_move_timestamps_never_decrease
              [MouseMove 100 5 500; MouseMove (100 + (1 # 100)) 500 500;
               MouseMove (100 + (2 # 100)) 600 500; MouseMove 99 650 500;
               MouseMove (100 + (4 # 100)) 800 500]
              started_capture Hgap) as (H1 & _ & H3).
  split; [exact H1|]. apply H3. vm_compute. discriminate.
Defined.

Lemma on_mouse_move_takes_control_witness :
  control_active (snd (on_mouse_move 100 5 500 started_capture)) = true
  /\ control_active (snd (on_mouse_move 100 500 500 started_capture)) = false.
Proof.
  assert (Hr : float_lt (float_sub 100 (last_mouse_time started_capture))
                 (mouse_interval started_capture) = false) by (vm_compute; reflexivity).
  pose proof (on_mouse_move_takes_control_exactly_at_an_edge 100 5 500
                started_capture eq_refl eq_refl Hr) as H1.
  pose proof (on_mouse_move_takes_control_exactly_at_an_edge 100 500 500
                started_capture eq_refl eq_refl Hr) as H2.
  cbv zeta in H1, H2.
  destruct (on_mouse_move 100 5 500 started_capture) as [signals1 self1].
  destruct (on_mouse_move 100 500 500 started_capture) as [signals2 self2].
  cbn [snd]. destruct H1 as [H1 _], H2 as [H2 _]. split.
  - apply H1. left. vm_compute. discriminate.
  - destruct (control_active self2); [|reflexivity].
    exfalso. destruct H2 as [H2 _]. specialize (H2 eq_refl).
    vm_compute in H2. intuition congruence.
Defined.

Lemma discovery_listener_witness :
  let ip := "192.168.1.20"%string in
  handle_datagram (lib:=array_lib) 12346 (str_encode "WIFIKEY_DISCOVERY") ip = Ignored
  /\ handle_datagram (lib:=array_lib) 12346 (DISCOVERY_RESPONSE ++ [xff]) ip
     = ListenerStops UnicodeDecodeError
  /\ handle_datagram (lib:=array_lib) 12346 (DISCOVERY_RESPONSE ++ str_encode "[]") ip
     = ListenerStops TypeError
  /\ handle_datagram (lib:=array_lib) 12346 DISCOVERY_RESPONSE ip
     = Emitted [ ("name", PStr "Android Device (192.168.1.20)");
                 ("ip", PStr ip); ("port", PInt 12346) ]%string
         (LogDeviceDiscoveredAt ip).
Proof.
  cbv zeta.
  destruct (discovery_descriptor_carries_the_sender_address (lib:=array_lib) 12346
              (str_encode "WIFIKEY_DISCOVERY") "192.168.1.20") as (H1 & _).
  destruct (discovery_descriptor_carries_the_sender_address (lib:=array_lib) 12346
              (DISCOVERY_RESPONSE ++ [xff]) "192.168.1.20") as (_ & H2 & _).
  destruct (discovery_descriptor_carries_the_sender_address (lib:=array_lib) 12346
              (DISCOVERY_RESPONSE ++ str_encode "[]") "192.168.1.20")
    as (_ & _ & H3 & _).
  destruct (discovery_descriptor_carries_the_sender_address (lib:=array_lib) 12346
              DISCOVERY_RESPONSE "192.168.1.20") as (_ & _ & _ & _ & _ & H6 & _).
  cbv zeta in H1, H2, H3, H6.
  split; [apply H1; vm_compute; reflexivity|].
  split; [apply H2; vm_compute; reflexivity|].
  split.
  - apply (H3 "[]"%string (PList [])); try (vm_compute; reflexivity).
    intros d. discriminate.
  - apply (H6 EmptyString); vm_compute; reflexivity.
Defined.

Lemma earlier_receive_thread_witness :
  exists st1 st2 st3,
    handle_client_connection (lib:=ref_lib) net_up pixel_net ref_strip 0 1%nat
      pixel_address idle_manager = Done tt st1
    /\ handle_client_connection (lib:=ref_lib) net_up pixel_net ref_strip 5 2%nat
         pixel_address (add_trace (repeat (SockRecv 1%nat) 3) st1) = Done tt st2
    /\ client_socket st2 = Some 2%nat /\ connected st2 = true
    /\ handle_client_data (lib:=ref_lib) 1%nat [RecvTimeout] st2
       = Some ([LogErrorReceivingData], Done tt st3)
    /\ client_socket st3 = None /\ connected st3 = false
    /\ In 2%nat (closed st3).
Proof.
  assert (Hreply : forall s, replies_handshake (lib:=ref_lib) pixel_net ref_strip s "Pixel").
  { intros s. exists (str_encode (text_of pixel_reply ++ newline)),
      (text_of pixel_reply ++ newline)%string,
      [ ("type", PStr "handshake_response"); ("device_name", PStr "Pixel") ]%string.
    repeat split; vm_compute; reflexivity. }
  assert (H1 : ~ In 1%nat (closed idle_manager)) by (cbn; tauto).
  assert (H2 : ~ In 2%nat (closed idle_manager)) by (cbn; tauto).
  assert (Hneq : 1%nat <> 2%nat) by discriminate.
  destruct (earlier_receive_thread_ends_the_later_session (lib:=ref_lib) net_up
              pixel_net ref_strip 0 5 1%nat 2%nat pixel_address pixel_address
              "Pixel" "Pixel" idle_manager 3%nat RecvTimeout []
              eq_refl eq_refl eq_refl H1 H2 Hneq (Hreply 1%nat) (Hreply 2%nat))
    as (st1 & st1' & st2 & st3 & E1 & _ & -> & _ & E2 & Hs2 & Hc2 & _ & _ & E & Hs3
        & Hc3 & _ & Hcl3).
  exists st1, st2, st3. repeat split; assumption.
Defined.

(** The arithmetic of doubles: [1.0 / 60.0], and the clock reading
    1700000000.123 in milliseconds, which the exact product would truncate
    to 1700000000122. *)
Example float_arithmetic :
  float_div 1 60 = 4803839602528529 # 288230376151711744
  /\ round_double (1700000000123 # 1000) = 7130316800515899 # 4194304
  /\ float_mul (7130316800515899 # 4194304) 1000 = 1700000000123 # 1
  /\ Qfloor ((7130316800515899 # 4194304) * 1000) = 1700000000122.
Proof.
  repeat split; vm_compute; reflexivity.
Qed.
